(** * mm-1c: the reconciliation engine of [bot.py]

    A shallow embedding of the pure core of [src/bot.py]: the table
    locator, the record extractor, the identity resolver, the context
    aggregator and the reconciliation builder, and of the mapping of
    teams to leads of [src/teams.py], followed by the properties the
    specification states about them and by further properties of the
    code.

    Conventions of the embedding.
    - A Python [str] is a list of Unicode code points ([pystr]); literals
      are written as UTF-8 Rocq strings and decoded by [py].
    - Case mapping and digits follow Python on the Basic Latin and
      Cyrillic blocks (the alphabets of the sheets this bot reads); other
      code points are left unchanged by [lower]/[upper] and are not
      digits. White space is the full set of [str.isspace].
    - A Python [float] is a binary64 number, held as the rational it
      equals, or one of inf, -inf, nan ([pyfloat]): [float(s)], the
      division of two ints, the subtraction and [round] give the nearest
      binary64 number, ties to even. Zero has no sign, and where Python
      raises [OverflowError] the model gives an infinity.
    - A sheet is a list of rows of cells; a cell is empty, a text, an
      integer or a float (dates and booleans in cells are left out).
    - Dictionaries are [gmap]s, sets are [gset]s; dictionaries whose
      iteration order matters are association lists. Python leaves the
      iteration order of a set open; [elements] fixes one.
    - An HTTP call is an answer of an [upstream] record, a function of
      the request: a status code with a decoded body, or a transport
      error. Bodies are typed as the code reads them.
    - A run starts from the sheet already downloaded and read, and ends
      with the sorted rows handed to rendering. What follows the run is
      modelled apart: the highlighting of rows, the teams of the summary
      and the tagging of leads; the workbook and the chat messages
      themselves are outside the model.
    - [teams.py] is modelled from the parsed page on: the rows, cells,
      tags and texts the parser gives are data, and the key cache of the
      module is a state passed along. *)

From Stdlib Require Import ZArith NArith QArith Qabs Qround String Ascii List Lia Lqa.
From Stdlib Require Import DecimalString Sorted.
From stdpp Require Import base option list gmap sets.

Import ListNotations.

(* ===================================================================== *)
(** * Python strings *)
(* ===================================================================== *)

Abbreviation pystr := (list N).

Module PyStr.

(** UTF-8 decoding of a Rocq string literal into code points. *)
Fixpoint utf8_go (bs : list N) (need : nat) (acc : N) : pystr :=
  match bs with
  | [] => []
  | b :: rest =>
      match need with
      | S k =>
          let acc' := (acc * 64 + b mod 64)%N in
          match k with
          | O => acc' :: utf8_go rest 0 0%N
          | S _ => utf8_go rest k acc'
          end
      | O =>
          if (b <? 128)%N then b :: utf8_go rest 0 0%N
          else if (b <? 224)%N then utf8_go rest 1 (b mod 32)%N
          else if (b <? 240)%N then utf8_go rest 2 (b mod 16)%N
          else utf8_go rest 3 (b mod 8)%N
      end
  end.

Definition py (s : string) : pystr :=
  utf8_go (List.map N_of_ascii (list_ascii_of_string s)) 0 0%N.

Definition in_range (lo hi c : N) : bool := ((lo <=? c) && (c <=? hi))%N.

(** [str.lower()] per code point: A-Z, and the Cyrillic capitals
    U+0400..U+042F. *)
Definition lower_cp (c : N) : N :=
  if in_range 65 90 c then (c + 32)%N
  else if in_range 1040 1071 c then (c + 32)%N
  else if in_range 1024 1039 c then (c + 80)%N
  else c.

(** [str.upper()] per code point: a-z, and the Cyrillic small letters
    U+0430..U+045F. *)
Definition upper_cp (c : N) : N :=
  if in_range 97 122 c then (c - 32)%N
  else if in_range 1072 1103 c then (c - 32)%N
  else if in_range 1104 1119 c then (c - 80)%N
  else c.

Definition lower (s : pystr) : pystr := List.map lower_cp s.
Definition upper (s : pystr) : pystr := List.map upper_cp s.

(** [str.isspace()] for one code point (the Unicode white space set that
    [split()] and [strip()] use). *)
Definition isspace (c : N) : bool :=
  in_range 9 13 c || in_range 28 32 c || (c =? 133)%N || (c =? 160)%N
  || (c =? 5760)%N || in_range 8192 8202 c || (c =? 8232)%N
  || (c =? 8233)%N || (c =? 8239)%N || (c =? 8287)%N || (c =? 12288)%N.

Definition is_digit (c : N) : bool := in_range 48 57 c.

(** [s.isdigit()]: non-empty and digits only. *)
Definition isdigit (s : pystr) : bool :=
  match s with
  | [] => false
  | _ => forallb is_digit s
  end.

Definition eqb (a b : pystr) : bool := bool_decide (a = b).

(** [s.startswith(p)] *)
Fixpoint startswith (s p : pystr) : bool :=
  match p, s with
  | [], _ => true
  | _ :: _, [] => false
  | a :: p', b :: s' => (a =? b)%N && startswith s' p'
  end.

(** The rest of [s] after the prefix [p], when [s] starts with [p]. *)
Fixpoint strip_prefix (p s : pystr) : option pystr :=
  match p, s with
  | [], _ => Some s
  | _ :: _, [] => None
  | a :: p', b :: s' => if (a =? b)%N then strip_prefix p' s' else None
  end.

(** [p in s] *)
Fixpoint contains (s p : pystr) : bool :=
  startswith s p ||
  match s with
  | [] => false
  | _ :: s' => contains s' p
  end.

(** [s.replace(old, new)] for a one-character [old]. *)
Definition replace (old : N) (new : pystr) (s : pystr) : pystr :=
  flat_map (fun c => if (c =? old)%N then new else [c]) s.

(** [s.split(sep)[0]] for a one-character [sep]. *)
Fixpoint before (sep : N) (s : pystr) : pystr :=
  match s with
  | [] => []
  | c :: r => if (c =? sep)%N then [] else c :: before sep r
  end.

Fixpoint lstrip (s : pystr) : pystr :=
  match s with
  | c :: r => if isspace c then lstrip r else s
  | [] => []
  end.

Definition strip (s : pystr) : pystr := rev (lstrip (rev (lstrip s))).

(** [s.split()]: the maximal runs of non-space characters. *)
Fixpoint split_go (s : pystr) (cur : pystr) : list pystr :=
  match s with
  | [] => match cur with [] => [] | _ => [rev cur] end
  | c :: r =>
      if isspace c then
        match cur with
        | [] => split_go r []
        | _ => rev cur :: split_go r []
        end
      else split_go r (c :: cur)
  end.

Definition split (s : pystr) : list pystr := split_go s [].

(** [a < b] and [a <= b] on strings: lexicographic on code points. *)
Fixpoint ltb (a b : pystr) : bool :=
  match a, b with
  | [], [] => false
  | [], _ :: _ => true
  | _ :: _, [] => false
  | x :: a', y :: b' => (x <? y)%N || ((x =? y)%N && ltb a' b')
  end.

Definition leb (a b : pystr) : bool := negb (ltb b a).

(** [int(s)] for a string of ASCII digits. *)
Definition int_of_digits (s : pystr) : N :=
  fold_left (fun acc c => (acc * 10 + (c - 48))%N) s 0%N.

(** [str(n)] for a natural number. *)
Definition of_N (n : N) : pystr :=
  py (NilZero.string_of_uint (N.to_uint n)).

(** [sep.join(l)] *)
Fixpoint join (sep : pystr) (l : list pystr) : pystr :=
  match l with
  | [] => []
  | [x] => x
  | x :: r => x ++ sep ++ join sep r
  end.

End PyStr.

Import PyStr.

(* ===================================================================== *)
(** * Python floats *)
(* ===================================================================== *)

Inductive pyfloat := Fin (q : Q) | PInf | NInf | NaN.

Module PyFloat.

Definition Qltb (x y : Q) : bool := negb (Qle_bool y x).

(** [a > b] *)
Definition gt (a b : pyfloat) : bool :=
  match a, b with
  | NaN, _ | _, NaN => false
  | NInf, _ => false
  | _, PInf => false
  | PInf, _ => true
  | Fin _, NInf => true
  | Fin x, Fin y => Qltb y x
  end.

(** [abs(a)] *)
Definition abs (a : pyfloat) : pyfloat :=
  match a with
  | Fin x => Fin (Qabs x)
  | PInf | NInf => PInf
  | NaN => NaN
  end.

(** Rounding of a rational to the nearest integer, ties to even. *)
Definition round_half_even (q : Q) : Z :=
  let f := Qfloor q in
  let r := (q - inject_Z f)%Q in
  if Qltb r (1 # 2) then f
  else if Qltb (1 # 2) r then (f + 1)%Z
  else if Z.even f then f else (f + 1)%Z.

(** [2 ^ e] *)
Definition two_pow (e : Z) : Q :=
  match e with
  | Z0 => 1
  | Zpos p => inject_Z (Z.pow_pos 2 p)
  | Zneg p => 1 # Pos.pow 2 p
  end.

(** For a positive [q], the [l] with [2 ^ l <= q < 2 ^ (l + 1)]. *)
Definition floor_log2 (q : Q) : Z :=
  let l := (Z.log2 (Qnum q) - Z.log2 (Zpos (Qden q)))%Z in
  if Qle_bool (two_pow l) q then l else (l - 1)%Z.

(** The binary64 number nearest to a rational: a significand of 53 bits
    (fewer below [2 ^ -1022]), ties to the even significand, and an
    infinity from [2 ^ 1024] on. *)
Definition b64 (q : Q) : pyfloat :=
  let a := Qabs q in
  if Qle_bool a 0 then Fin 0
  else
    let e := Z.max (floor_log2 a - 52) (-1074) in
    let m := round_half_even (a / two_pow e) in
    let r := (inject_Z m * two_pow e)%Q in
    if Qle_bool (two_pow 1024) r then (if Qle_bool 0 q then PInf else NInf)
    else Fin (Qred (if Qle_bool 0 q then r else - r)).

(** [a - b] *)
Definition sub (a b : pyfloat) : pyfloat :=
  match a, b with
  | NaN, _ | _, NaN => NaN
  | PInf, PInf | NInf, NInf => NaN
  | PInf, _ => PInf
  | NInf, _ => NInf
  | Fin _, PInf => NInf
  | Fin _, NInf => PInf
  | Fin x, Fin y => b64 (x - y)
  end.

(** [round(a, 2)]: the decimal with two places nearest to the value,
    ties to even, read back as a float; infinities and nan round to
    themselves. *)
Definition round2 (a : pyfloat) : pyfloat :=
  match a with
  | Fin x => b64 (round_half_even (x * 100) # 100)
  | _ => a
  end.

(** [a / b] for two Python ints, [b] positive: the quotient rounded
    once. *)
Definition div_int (a : Z) (b : positive) : pyfloat := b64 (a # b).

Definition of_Z (z : Z) : pyfloat := Fin (inject_Z z).

End PyFloat.

(* ===================================================================== *)
(** * Sorting ([DataFrame.sort_values], [sorted]) *)
(* ===================================================================== *)

Section Sort.
Context {A : Type} (le : A -> A -> bool).

Fixpoint insert_sorted (x : A) (l : list A) : list A :=
  match l with
  | [] => [x]
  | y :: r => if le x y then x :: l else y :: insert_sorted x r
  end.

(** A stable sort: an element goes before the first later element that
    is not smaller. *)
Definition sort (l : list A) : list A := foldr insert_sorted [] l.
End Sort.

(* ===================================================================== *)
(** * Team rank ([get_team_rank]) *)
(* ===================================================================== *)

Fixpoint take_digits (s : pystr) : pystr :=
  match s with
  | c :: r => if is_digit c then c :: take_digits r else []
  | [] => []
  end.

(** [re.search(r'stream(\d+)', tn)]: group 1 of the leftmost match. *)
Fixpoint search_stream_num (s : pystr) : option pystr :=
  match s with
  | [] => None
  | _ :: r =>
      match strip_prefix (py "stream") s with
      | Some rest =>
          match take_digits rest with
          | [] => search_stream_num r
          | ds => Some ds
          end
      | None => search_stream_num r
      end
  end.

Definition get_team_rank (team_name : pystr) : N * N * pystr :=
  let tn := lower team_name in
  if eqb tn (py "other") then (99%N, 0%N, tn)
  else if contains tn (py "arch-team") then (1%N, 0%N, tn)
  else if contains tn (py "change-team") then (2%N, 0%N, tn)
  else if contains tn (py "stream") then
    let num := match search_stream_num tn with
               | Some ds => int_of_digits ds
               | None => 999%N
               end in
    (3%N, num, tn)
  else (4%N, 0%N, tn).

Definition SortRank (team : pystr) : N := fst (fst (get_team_rank team)).
Definition SortNum (team : pystr) : N := snd (fst (get_team_rank team)).

(** The order of [sort_values(by=['SortRank', 'SortNum', 'Team', ...])]
    on the team columns: rank, then number, then the team name itself. *)
Definition team_ltb (a b : pystr) : bool :=
  (SortRank a <? SortRank b)%N
  || ((SortRank a =? SortRank b)%N
      && ((SortNum a <? SortNum b)%N
          || ((SortNum a =? SortNum b)%N && ltb a b))).

Definition team_leb (a b : pystr) : bool := negb (team_ltb b a).

Definition sort_teams (l : list pystr) : list pystr := sort team_leb l.

(* ===================================================================== *)
(** * Sheet cells *)
(* ===================================================================== *)

(** A cell of the frame that [pd.read_excel(..., header=None)] returns:
    empty (NaN), text, an integer, or a float given by its shortest
    decimal expansion [m / 10^k]. *)
Inductive cell :=
| CNaN
| CStr (s : pystr)
| CInt (z : Z)
| CFloat (m : Z) (k : nat).

Definition notna (c : cell) : bool :=
  match c with CNaN => false | _ => true end.

(** Drop the trailing zeros of a decimal expansion. *)
Fixpoint normalize_decimal (m : Z) (k : nat) : Z * nat :=
  match k with
  | O => (m, O)
  | S k' => if (m mod 10 =? 0)%Z then normalize_decimal (m / 10) k' else (m, k)
  end.

Definition str_of_Z (z : Z) : pystr :=
  (if (z <? 0)%Z then py "-" else []) ++ of_N (Z.abs_N z).

(** [repr] of a float in positional notation: at least one digit after
    the point. *)
Definition str_of_decimal (m : Z) (k : nat) : pystr :=
  let '(m, k) := normalize_decimal m k in
  let p := (10 ^ N.of_nat k)%N in
  let a := Z.abs_N m in
  let frac := of_N (a mod p) in
  (if (m <? 0)%Z then py "-" else []) ++ of_N (a / p) ++ py "." ++
  match k with
  | O => py "0"
  | _ => repeat 48%N (k - length frac) ++ frac
  end.

(** [str(val)] *)
Definition cell_str (c : cell) : pystr :=
  match c with
  | CNaN => py "nan"
  | CStr s => s
  | CInt z => str_of_Z z
  | CFloat m k => str_of_decimal m k
  end.

(* ===================================================================== *)
(** * [float(s)] *)
(* ===================================================================== *)

(** A run of digits in which single underscores may separate digits;
    returns the digits read (reversed onto [acc]) and the rest. *)
Fixpoint digitpart (s : pystr) (acc : pystr) : pystr * pystr :=
  match s with
  | [] => (rev acc, [])
  | c :: r =>
      if is_digit c then digitpart r (c :: acc)
      else
        match acc, r with
        | _ :: _, d :: r' =>
            if (c =? 95)%N && is_digit d then digitpart r' (d :: acc)
            else (rev acc, s)
        | _, _ => (rev acc, s)
        end
  end.

Definition take_sign (s : pystr) : bool * pystr :=
  match s with
  | 45%N :: r => (true, r)
  | 43%N :: r => (false, r)
  | _ => (false, s)
  end.

(** [[sign] digitpart] closing the string: the exponent of a float. *)
Definition parse_exponent (s : pystr) : option Z :=
  let '(neg, r) := take_sign s in
  match digitpart r [] with
  | ((_ :: _) as ds, []) =>
      let e := Z.of_N (int_of_digits ds) in
      Some (if neg then (- e)%Z else e)
  | _ => None
  end.

Definition scale10 (m : Z) (e : Z) : Q :=
  match e with
  | Z0 => inject_Z m
  | Zpos p => inject_Z (m * Z.pow_pos 10 p)
  | Zneg p => Qred (m # Pos.pow 10 p)
  end.

(** [number [exponent]] with its value. *)
Definition parse_number (s : pystr) : option Q :=
  let '(ip, r1) := digitpart s [] in
  let '(fp, r2) :=
    match r1 with
    | 46%N :: r => digitpart r []
    | _ => ([], r1)
    end in
  match ip ++ fp with
  | [] => None
  | ds =>
      let m := Z.of_N (int_of_digits ds) in
      let k := Z.of_nat (length fp) in
      match r2 with
      | [] => Some (scale10 m (- k))
      | c :: r =>
          if (c =? 101)%N || (c =? 69)%N then
            e ← parse_exponent r; Some (scale10 m (e - k))
          else None
      end
  end.

(** [float(s)]: [None] stands for [ValueError]. *)
Definition py_float (s : pystr) : option pyfloat :=
  let '(neg, body) := take_sign (strip s) in
  let lb := lower body in
  if eqb lb (py "inf") || eqb lb (py "infinity") then
    Some (if neg then NInf else PInf)
  else if eqb lb (py "nan") then Some NaN
  else q ← parse_number body; Some (PyFloat.b64 (if neg then - q else q)).

(* ===================================================================== *)
(** * Dates and the reporting period ([extract_period_from_excel]) *)
(* ===================================================================== *)

Record date := mkdate { year : N; month : N; day : N }.

Definition date_ltb (a b : date) : bool :=
  (year a <? year b)%N
  || ((year a =? year b)%N
      && ((month a <? month b)%N
          || ((month a =? month b)%N && (day a <? day b)%N))).

Definition date_leb (a b : date) : bool := negb (date_ltb b a).

Definition is_leap (y : N) : bool :=
  (((y mod 4 =? 0) && negb (y mod 100 =? 0)) || (y mod 400 =? 0))%N.

Definition days_in_month (y m : N) : N :=
  if (m =? 2)%N then (if is_leap y then 29 else 28)%N
  else if ((m =? 4) || (m =? 6) || (m =? 9) || (m =? 11))%N then 30%N
  else 31%N.

(** [datetime.strptime(m, '%d.%m.%Y').date()] on a string of the shape
    dd.mm.yyyy; [None] stands for [ValueError]. *)
Definition strptime_dmy (s : pystr) : option date :=
  match s with
  | [d1; d2; _; m1; m2; _; y1; y2; y3; y4] =>
      let d := int_of_digits [d1; d2] in
      let m := int_of_digits [m1; m2] in
      let y := int_of_digits [y1; y2; y3; y4] in
      if ((1 <=? y) && (1 <=? m) && (m <=? 12) && (1 <=? d)
          && (d <=? days_in_month y m))%N
      then Some (mkdate y m d) else None
  | _ => None
  end.

(** Does the pattern [\d{2}\.\d{2}\.\d{4}] match at the head of [s]? *)
Definition date_at (s : pystr) : bool :=
  match s with
  | d1 :: d2 :: p1 :: m1 :: m2 :: p2 :: y1 :: y2 :: y3 :: y4 :: _ =>
      is_digit d1 && is_digit d2 && (p1 =? 46)%N && is_digit m1 && is_digit m2
      && (p2 =? 46)%N && is_digit y1 && is_digit y2 && is_digit y3 && is_digit y4
  | _ => false
  end.

(** [re.findall]: leftmost matches that do not overlap; [skip] counts the
    characters of the current match still to pass. *)
Fixpoint findall_go (s : pystr) (skip : nat) : list pystr :=
  match s with
  | [] => []
  | _ :: r =>
      match skip with
      | S k => findall_go r k
      | O => if date_at s then firstn 10 s :: findall_go r 9 else findall_go r 0
      end
  end.

Definition findall_dates (s : pystr) : list pystr := findall_go s 0.

Abbreviation df_raw := (list (list cell)).

(** The dates one row contributes: the matches in the text of its cells
    that [strptime] accepts. The code searches [str(row.values)], numpy's
    rendering of the row, which sets the cells side by side with spaces
    and quotes between them, so a match lies within one cell. *)
Definition row_dates (row : list cell) : list date :=
  omap strptime_dmy (flat_map (fun c => findall_dates (cell_str c)) row).

Definition min_date (d : date) (l : list date) : date :=
  fold_left (fun a b => if date_ltb b a then b else a) l d.
Definition max_date (d : date) (l : list date) : date :=
  fold_left (fun a b => if date_ltb a b then b else a) l d.

Definition extract_period_from_excel (df_head : df_raw) : option (date * date) :=
  match flat_map row_dates df_head with
  | d1 :: ((_ :: _) as ds) => Some (min_date d1 ds, max_date d1 ds)
  | _ => None
  end.

(** [df_raw.head(20)] *)
Definition head (n : nat) (df : df_raw) : df_raw := firstn n df.

(* ===================================================================== *)
(** * Identity resolver ([check_name_match]) *)
(* ===================================================================== *)

(** A cached directory user ([user_obj] of [get_all_jira_users]); a field
    the directory did not send is [None]. *)
Record user := mkuser {
  login : option pystr;
  key : option pystr;
  displayName : option pystr
}.

(** [[p for p in str(name).lower().replace('.', ' ').split() if len(p)>1]] *)
Definition name_parts (name : pystr) : list pystr :=
  List.filter (fun p => 1 <? length p) (split (replace 46%N (py " ") (lower name))).

(** Truthiness of an optional string: [None] and [''] are false. *)
Definition truthy (s : option pystr) : bool :=
  match s with
  | Some (_ :: _) => true
  | _ => false
  end.

Definition check_name_match (jira_name excel_name : option pystr) : bool :=
  match jira_name, excel_name with
  | Some j, Some e =>
      if negb (truthy jira_name) || negb (truthy excel_name) then false
      else
        let j_parts : gset pystr := list_to_set (name_parts j) in
        let e_parts : gset pystr := list_to_set (name_parts e) in
        negb (bool_decide (j_parts ## e_parts))
  | _, _ => false
  end.

(** [dict[k] = v]: an existing key keeps its place. *)
Fixpoint dict_set {K V : Type} `{EqDecision K} (k : K) (v : V) (d : list (K * V))
  : list (K * V) :=
  match d with
  | [] => [(k, v)]
  | (k', v') :: r =>
      if decide (k = k') then (k, v) :: r else (k', v') :: dict_set k v r
  end.

(** [{v['key']: v for v in JIRA_LOOKUP_CACHE.values()}.values()] *)
Definition unique_users (cache_values : list user) : list user :=
  List.map snd (fold_left (fun d v => dict_set (key v) v d) cache_values []).

(* ===================================================================== *)
(** * Table locator *)
(* ===================================================================== *)

Definition nrows (df : df_raw) : nat := length df.

(** [len(df_raw.columns)]: short rows are padded with NaN. *)
Definition ncols (df : df_raw) : nat :=
  foldr (fun row n => Nat.max (length row) n) 0 df.

(** [df_raw.iloc[r, c]] *)
Definition iloc (df : df_raw) (r c : nat) : cell := nth c (nth r df []) CNaN.

(** [range(a, b)] *)
Definition range (a b : nat) : list nat := seq a (b - a).

Definition is_surname_cell (val : cell) : bool :=
  startswith (lower (cell_str val)) (py "фамилия").

(** The first cell, rows first, whose text starts with "фамилия". *)
Fixpoint find_header_from (df : df_raw) (idxs : list nat) : option (nat * nat) :=
  match idxs with
  | [] => None
  | idx :: rest =>
      match List.find (fun c => is_surname_cell (iloc df idx c)) (range 0 (ncols df)) with
      | Some c => Some (idx, c)
      | None => find_header_from df rest
      end
  end.

Definition find_header (df : df_raw) : option (nat * nat) :=
  find_header_from df (range 0 (nrows df)).

Definition is_numeric_cell (val : cell) : bool :=
  notna val && bool_decide (is_Some (py_float (replace 44%N (py ".") (cell_str val)))).

(** The rightmost column of the middle row that holds a number. *)
Definition find_hours_col (df : df_raw) : option nat :=
  List.find (fun c => is_numeric_cell (iloc df (nrows df / 2) c))
            (rev (range 0 (ncols df))).

Definition is_code_header (val : cell) : bool :=
  contains (lower (cell_str val)) (py "код").

Definition find_absence_cols (df : df_raw) (header_row_idx name_col_idx : nat)
  : list nat :=
  fold_left
    (fun absence_cols r =>
       fold_left
         (fun absence_cols c =>
            if (name_col_idx <? c) && is_code_header (iloc df r c)
               && negb (bool_decide (c ∈ absence_cols))
            then absence_cols ++ [c] else absence_cols)
         (range 0 (ncols df)) absence_cols)
    (range header_row_idx (Nat.min (header_row_idx + 3) (nrows df))) [].

(* ===================================================================== *)
(** * Record extractor *)
(* ===================================================================== *)

Record excel_record := mkrecord {
  name_1c : pystr;
  hours_1c : pyfloat;
  jira_user : option user;
  absences : list pystr
}.

Definition skip_labels : list pystr :=
  [py "итого"; py "подпись"; py "должность"; py "профессия"].

(** The two [continue] tests on the name cell. *)
Definition skip_name (raw_name : cell) : bool :=
  negb (notna raw_name) || (length (cell_str raw_name) <? 2)
  || existsb (fun k => contains (lower (cell_str raw_name)) k) skip_labels.

Definition clean_name_of (raw_name : cell) : pystr :=
  strip (before 40%N (before 10%N (cell_str raw_name))).

(** The rows [i + offset], [offset] in [range(4)], up to the [break] at
    the end of the sheet. *)
Definition block_rows (df : df_raw) (i : nat) : list nat :=
  List.map (fun offset => i + offset) (range 0 (Nat.min 4 (nrows df - i))).

(** The hours of a block. The lookup is guarded by [if hours_col_idx:],
    which is false for [None] and for column 0. *)
Definition scan_hours (df : df_raw) (hours_col_idx : option nat) (rows : list nat)
  : pyfloat :=
  match hours_col_idx with
  | Some ((S _) as c) =>
      fold_left
        (fun hours r =>
           match py_float (replace 32%N [] (replace 44%N (py ".") (cell_str (iloc df r c)))) with
           | Some h => if PyFloat.gt h hours then h else hours
           | None => hours
           end)
        rows (Fin 0)
  | _ => Fin 0
  end.

Definition absence_ok (s : pystr) : bool :=
  negb (bool_decide (s = [])) && negb (isdigit s) && (length s <? 5)
  && negb (eqb (upper s) (py "Я")).

(** The body of the loop over the absence columns for one cell. *)
Definition collect_absence (df : df_raw) (r : nat) (absences : gset pystr) (ac : nat)
  : gset pystr :=
  let val := iloc df r ac in
  if notna val then
    let s := strip (cell_str val) in
    if absence_ok s then {[ s ]} ∪ absences else absences
  else absences.

Definition scan_absences (df : df_raw) (absence_cols : list nat) (rows : list nat)
  : gset pystr :=
  fold_left (fun absences r => fold_left (collect_absence df r) absence_cols absences)
            rows ∅.

(** [sorted(list(absences))] *)
Definition sorted_strings (s : gset pystr) : list pystr := sort leb (elements s).

(** One turn of the loop over the rows below the header: the record the
    row yields, if any. *)
Definition extract_row (df : df_raw) (name_col_idx : nat) (hours_col_idx : option nat)
    (absence_cols : list nat) (users : list user) (i : nat) : option excel_record :=
  let raw_name := iloc df i name_col_idx in
  if skip_name raw_name then None
  else
    let clean_name := clean_name_of raw_name in
    let hours := scan_hours df hours_col_idx (block_rows df i) in
    let absences := scan_absences df absence_cols (block_rows df i) in
    if PyFloat.gt hours (Fin 0) || negb (bool_decide (absences = ∅)) then
      let found_u :=
        List.find (fun u => check_name_match (displayName u) (Some clean_name)) users in
      Some (mkrecord clean_name hours found_u (sorted_strings absences))
    else None.

Definition extract_records (df : df_raw) (header_row_idx name_col_idx : nat)
    (hours_col_idx : option nat) (absence_cols : list nat) (users : list user)
  : list excel_record :=
  omap (extract_row df name_col_idx hours_col_idx absence_cols users)
       (range (header_row_idx + 1) (nrows df)).

(** [target_jira_keys]: the keys of the users found. *)
Definition target_keys (excel_data : list excel_record) : gset (option pystr) :=
  list_to_set (omap (fun r => key <$> jira_user r) excel_data).

(* ===================================================================== *)
(** * Upstream services *)
(* ===================================================================== *)

(** The answer to one HTTP request: a status code with the decoded JSON
    body ([None] when [resp.json()] raises), or an exception of the
    transport ([requests] raised). *)
Inductive response (A : Type) :=
| Resp (status_code : Z) (json : option A)
| TransportError.
Arguments Resp {A} status_code json.
Arguments TransportError {A}.

(** [{id, name}] of the team list; a missing name reads as [""]. *)
Record team := mkteam { team_id : Z; team_name : pystr }.

(** One membership entry: [member.key], and the two dates as
    [parse_tempo_date] returns them ([None] when absent or unreadable). *)
Record member := mkmember {
  member_key : option pystr;
  dateFrom : option date;
  dateTo : option date
}.

(** One worklog entry. *)
Record worklog := mkworklog {
  worker : option pystr;
  timeSpentSeconds : option Z
}.

(** The body of a worklog search: an object that may hold ['results'],
    or a bare list. *)
Inductive worklog_body :=
| BodyDict (results : option (list worklog))
| BodyList (entries : list worklog).

(** The payload of one worklog search. *)
Record payload := mkpayload {
  p_from : date;
  p_to : date;
  p_worker : list (option pystr)
}.

Record upstream := mkupstream {
  get_teams : response (list team);
  get_members : Z -> response (list member);
  post_worklogs : payload -> response worklog_body
}.

(** The body of an answer with status 200; nothing otherwise. *)
Definition ok_body {A : Type} (r : response A) : option A :=
  match r with
  | Resp code body => if (code =? 200)%Z then body else None
  | TransportError => None
  end.

(* ===================================================================== *)
(** * Context aggregator *)
(* ===================================================================== *)

Definition endswith (s p : pystr) : bool := startswith (rev s) (rev p).

(** [^(stream.*-team|change-team|arch-team)$] on a name whose characters
    were replaced by the letters they stand for. *)
Definition pattern_core (s : pystr) : bool :=
  (startswith s (py "stream") && endswith s (py "-team") && (11 <=? length s)
   && negb (existsb (N.eqb 10) s))
  || eqb s (py "change-team") || eqb s (py "arch-team").

(** The letter of the pattern a character matches under [re.IGNORECASE]:
    its lower case, and "s" also for the long s (U+017F), the one
    character beyond the two cases that a letter of this pattern
    matches. *)
Definition ignorecase_cp (c : N) : N :=
  if (c =? 383)%N then 115%N else lower_cp c.

(** [pattern.match(name)]: [$] also matches before a final newline. *)
Definition team_pattern_match (name : pystr) : bool :=
  let s := List.map ignorecase_cp name in
  pattern_core s
  || match rev s with
     | 10%N :: r => pattern_core (rev r)
     | _ => false
     end.

Definition date_2000 : date := mkdate 2000 1 1.
Definition date_2099 : date := mkdate 2099 12 31.

(** The members of one team whose membership overlaps the period. *)
Definition assign_members (report_start_date report_end_date : date) (name : pystr)
    (members : list member) (user_team_map : gmap pystr pystr) : gmap pystr pystr :=
  fold_left
    (fun (m : gmap pystr pystr) e =>
       match member_key e with
       | Some ((_ :: _) as jira_key) =>
           let d_from := default date_2000 (dateFrom e) in
           let d_to := default date_2099 (dateTo e) in
           if date_leb d_from report_end_date && date_leb report_start_date d_to
           then <[ jira_key := name ]> m else m
       | _ => m
       end)
    members user_team_map.

Definition get_tempo_teams_assignments (up : upstream)
    (report_start_date report_end_date : date) : gmap pystr pystr :=
  match ok_body (get_teams up) with
  | None => ∅
  | Some all_teams =>
      let target_teams := List.filter (fun t => team_pattern_match (team_name t)) all_teams in
      fold_left
        (fun user_team_map t =>
           match ok_body (get_members up (team_id t)) with
           | Some members =>
               assign_members report_start_date report_end_date (team_name t)
                              members user_team_map
           | None => user_team_map
           end)
        target_teams ∅
  end.

(** [range(0, stop, step)] *)
Definition range_step (stop step : nat) : list nat :=
  List.map (fun k => k * step) (range 0 ((stop + step - 1) / step)).

(** [[worker_ids[i:i + 25] for i in range(0, len(worker_ids), 25)]] *)
Definition chunks {A : Type} (worker_ids : list A) : list (list A) :=
  List.map (fun i => firstn 25 (skipn i worker_ids)) (range_step (length worker_ids) 25).

(** The entries one answer adds to [all_worklogs]. *)
Definition worklog_results (r : response worklog_body) : list worklog :=
  match ok_body r with
  | Some (BodyDict results) => default [] results
  | Some (BodyList entries) => entries
  | None => []
  end.

(** The loop of [fetch_tempo_worklogs_for_users] over given chunks,
    threading [all_worklogs] and the log of the requests sent. *)
Definition fetch_chunks (up : upstream) (start_date end_date : date)
    (cs : list (list (option pystr))) : list worklog * list payload :=
  fold_left
    (fun '(all_worklogs, sent) chunk_workers =>
       let p := mkpayload start_date end_date chunk_workers in
       (all_worklogs ++ worklog_results (post_worklogs up p), sent ++ [p]))
    cs ([], []).

Definition fetch_tempo_worklogs_for_users (up : upstream) (start_date end_date : date)
    (worker_ids : list (option pystr)) : list worklog * list payload :=
  fetch_chunks up start_date end_date (chunks worker_ids).

(** [tempo_agg[wid] = tempo_agg.get(wid, 0) + l.get('timeSpentSeconds', 0)] *)
Definition aggregate (logs : list worklog) : gmap (option pystr) Z :=
  fold_left
    (fun (tempo_agg : gmap (option pystr) Z) l =>
       <[ worker l := (default 0 (tempo_agg !! worker l)
                       + default 0 (timeSpentSeconds l))%Z ]> tempo_agg)
    logs ∅.

(** [tempo_agg] of a run: no request at all when no identity resolved. *)
Definition fetch_and_aggregate (up : upstream) (start_date end_date : date)
    (target_jira_keys : gset (option pystr)) : gmap (option pystr) Z :=
  if bool_decide (target_jira_keys = ∅) then ∅
  else aggregate (fst (fetch_tempo_worklogs_for_users up start_date end_date
                         (elements target_jira_keys))).

(** The seconds logged for one worker in a list of entries. *)
Definition total_seconds (w : option pystr) (logs : list worklog) : Z :=
  foldr (fun l acc => if decide (worker l = w)
                      then (default 0 (timeSpentSeconds l) + acc)%Z else acc) 0%Z logs.

(* ===================================================================== *)
(** * Reconciliation builder *)
(* ===================================================================== *)

Definition DASH : pystr := py "—".
Definition OTHER : pystr := py "Other".
Definition STATUS_OK : pystr := py "✅ OK".
Definition STATUS_VARIANCE : pystr := py "⚠️ Расхождение".
Definition STATUS_UNRESOLVED : pystr := py "❓ Не найден в Jira".

(** One row of the report (the link column, built from the configured
    domain, is left out). *)
Record report_row := mkrow {
  Team : pystr;
  row_name_1c : pystr;
  row_name_jira : option pystr;
  row_jira_key : option pystr;
  row_hours_1c : pyfloat;
  row_absences : pystr;
  hours_tempo : pyfloat;
  diff : pyfloat;
  status : pystr
}.

(** [a or b] on an optional int: [None] and [0] are false. *)
Definition or_else (a : option Z) (b : Z) : Z :=
  match a with
  | Some v => if (v =? 0)%Z then b else v
  | None => b
  end.

Definition build_row (team_mapping : gmap pystr pystr)
    (tempo_agg : gmap (option pystr) Z) (r : excel_record) : report_row :=
  let '(t_sec, j_name, j_key, t_name) :=
    match jira_user r with
    | Some u =>
        let j_key := key u in
        let j_login := login u in
        (or_else (tempo_agg !! j_key) (or_else (tempo_agg !! j_login) 0),
         displayName u, j_key,
         match j_key with
         | Some k => default OTHER (team_mapping !! k)
         | None => OTHER
         end)
    | None => (0%Z, Some DASH, Some DASH, OTHER)
    end in
  let t_hours := PyFloat.round2 (PyFloat.div_int t_sec 3600) in
  let diff := PyFloat.round2 (PyFloat.sub t_hours (hours_1c r)) in
  let status := STATUS_OK in
  let status := if PyFloat.gt (PyFloat.abs diff) (Fin 4) then STATUS_VARIANCE else status in
  let status := if bool_decide (j_name = Some DASH) then STATUS_UNRESOLVED else status in
  mkrow t_name (name_1c r) j_name j_key (hours_1c r)
        (join (py ", ") (absences r)) t_hours diff status.

(** The order of
    [sort_values(by=['SortRank', 'SortNum', 'Team', 'Сотрудник (1C)'])]. *)
Definition row_leb (a b : report_row) : bool :=
  team_ltb (Team a) (Team b)
  || (negb (team_ltb (Team b) (Team a)) && leb (row_name_1c a) (row_name_1c b)).

Definition sort_rows (rows : list report_row) : list report_row := sort row_leb rows.

(* ===================================================================== *)
(** * One run ([worker_process_file]) *)
(* ===================================================================== *)

(** How a run on a sheet that was downloaded and read ends: the last
    status text when it stops early, or the period and the sorted rows
    handed to rendering. *)
Inductive outcome :=
| Aborted (status_text : pystr)
| Reported (start_date end_date : date) (rows : list report_row).

Definition MSG_NO_PERIOD : pystr := py "⚠️ Не найден период дат.".
Definition MSG_NO_HEADER : pystr := py "❌ Не найдена колонка 'Фамилия'.".
(** The text of the outer [except] for [df['Team']] on a frame without
    columns. *)
Definition MSG_NO_ROWS : pystr := py "💥 Ошибка: 'Team'".

(** [excel_data] of a sheet whose header cell is at the given place. *)
Definition parse_excel (df : df_raw) (cache_values : list user)
    (header_row_idx name_col_idx : nat) : list excel_record :=
  let hours_col_idx := find_hours_col df in
  let absence_cols := find_absence_cols df header_row_idx name_col_idx in
  extract_records df header_row_idx name_col_idx hours_col_idx absence_cols
                  (unique_users cache_values).

Definition build_rows (up : upstream) (start_date end_date : date)
    (excel_data : list excel_record) : list report_row :=
  let team_mapping := get_tempo_teams_assignments up start_date end_date in
  let tempo_agg := fetch_and_aggregate up start_date end_date (target_keys excel_data) in
  List.map (build_row team_mapping tempo_agg) excel_data.

Definition worker_process_file (df : df_raw) (cache_values : list user) (up : upstream)
  : outcome :=
  match extract_period_from_excel (head 20 df) with
  | None => Aborted MSG_NO_PERIOD
  | Some (start_date, end_date) =>
      match find_header df with
      | None => Aborted MSG_NO_HEADER
      | Some (header_row_idx, name_col_idx) =>
          let excel_data := parse_excel df cache_values header_row_idx name_col_idx in
          match build_rows up start_date end_date excel_data with
          | [] => Aborted MSG_NO_ROWS
          | report_rows => Reported start_date end_date (sort_rows report_rows)
          end
      end
  end.

(* ===================================================================== *)
(** * The specification's reading of the absence filter *)
(* ===================================================================== *)

(** A text is numeric when it reads as a number once the comma is a
    decimal point: the test the table locator itself applies to find the
    hours column. *)
Definition numeric_text (s : pystr) : bool :=
  bool_decide (is_Some (py_float (replace 44%N (py ".") s))).

(** The filter in the specification's words: non-blank, non-numeric,
    shorter than 5 characters, not the attendance marker. *)
Definition spec_absence_ok (s : pystr) : bool :=
  negb (bool_decide (s = [])) && negb (numeric_text s) && (length s <? 5)
  && negb (eqb (upper s) (py "Я")).

(* ===================================================================== *)
(** * Sample data *)
(* ===================================================================== *)

Module Sample.

(** A small time sheet: the period line, the header row, two employees. *)
Definition sheet : df_raw :=
  [ [CStr (py "Табель за период с 01.01.2024 по 31.01.2024")];
    [CStr (py "Фамилия, инициалы"); CStr (py "Код"); CStr (py "Часы")];
    [CStr (py "Иванов Иван (инженер)"); CStr (py "ОТ"); CInt 160];
    [CStr (py "Петров П.П."); CStr (py "Я"); CStr (py "152,5")] ].

Definition ivanov : user :=
  mkuser (Some (py "ivanov")) (Some (py "JIRAUSER1")) (Some (py "Иван Иванов")).

Definition cache_values : list user := [ivanov].

Definition rec_ivanov : excel_record :=
  mkrecord (py "Иванов Иван") (Fin 160) (Some ivanov) [py "ОТ"].

Definition rec_petrov : excel_record :=
  mkrecord (py "Петров П.П.") (Fin (305 # 2)) None [].

(** The same sheet with 40 and 38 hours. *)
Definition sheet_40 : df_raw :=
  [ [CStr (py "Табель за период с 01.01.2024 по 31.01.2024")];
    [CStr (py "Фамилия, инициалы"); CStr (py "Код"); CStr (py "Часы")];
    [CStr (py "Иванов Иван (инженер)"); CStr (py "ОТ"); CInt 40];
    [CStr (py "Петров П.П."); CStr (py "Я"); CInt 38] ].

Definition rec_40 : excel_record :=
  mkrecord (py "Иванов Иван") (Fin 40) (Some ivanov) [py "ОТ"].

Definition rec_38 : excel_record :=
  mkrecord (py "Петров П.П.") (Fin 38) None [].

(** Every request fails. *)
Definition up_down : upstream :=
  mkupstream TransportError (fun _ => Resp 503 None) (fun _ => TransportError).

(** One stream team with the one known user; [secs] seconds logged. *)
Definition up_ok (secs : Z) : upstream :=
  mkupstream
    (Resp 200 (Some [mkteam 7 (py "stream2-team")]))
    (fun _ => Resp 200 (Some [mkmember (Some (py "JIRAUSER1")) None None]))
    (fun _ => Resp 200 (Some (BodyList [mkworklog (Some (py "JIRAUSER1")) (Some secs)]))).

(** A sheet whose only number in the middle row is in column 0. *)
Definition sheet_hours0 : df_raw :=
  [ [CStr (py "01.01.2024"); CStr (py "31.01.2024")];
    [CStr (py "Часы"); CStr (py "Фамилия"); CStr (py "Код")];
    [CInt 80; CStr (py "Петров Пётр"); CStr (py "Б")];
    [CInt 160; CStr (py "Иванов Иван"); CNaN] ].

(** A sheet with a number in a code column. *)
Definition sheet_code_number : df_raw :=
  [ [CStr (py "Фамилия"); CStr (py "Код")];
    [CStr (py "Иванов Иван"); CFloat 75 1] ].

(** A sheet with a period but no surname header. *)
Definition sheet_no_header : df_raw :=
  [ [CStr (py "с 01.01.2024 по 31.01.2024")];
    [CStr (py "Сотрудник"); CStr (py "Часы")];
    [CStr (py "Иванов Иван"); CInt 160] ].


Definition teams_in : list pystr :=
  [py "Other"; py "stream2-team"; py "arch-team"; py "streamA-team"; py "change-team"].

End Sample.

(* ===================================================================== *)
(** * [datetime.strptime] and [parse_tempo_date] *)
(* ===================================================================== *)

(** The directives of the three formats the bot uses, and literal
    characters. *)
Inductive directive := DY | Dm | Dd | DLit (c : N).

(** The fields read so far; [_strptime] starts from 1900-01-01. *)
Record ymd := mkymd { f_Y : N; f_m : N; f_d : N }.

Definition ymd_default : ymd := mkymd 1900 1 1.

(** [%Y] is [\d\d\d\d]. *)
Definition field_Y (s : pystr) : list (N * pystr) :=
  match s with
  | a :: b :: c :: d :: r =>
      if is_digit a && is_digit b && is_digit c && is_digit d
      then [(int_of_digits [a; b; c; d], r)] else []
  | _ => []
  end.

(** [%m] is [1[0-2]|0[1-9]|[1-9]]: the alternatives in the order the
    regex engine tries them. *)
Definition field_m (s : pystr) : list (N * pystr) :=
  match s with
  | a :: r =>
      match r with
      | b :: r' =>
          (if (a =? 49)%N && in_range 48 50 b then [(10 + (b - 48), r')%N] else [])
          ++ (if (a =? 48)%N && in_range 49 57 b then [((b - 48)%N, r')] else [])
      | [] => []
      end
      ++ (if in_range 49 57 a then [((a - 48)%N, r)] else [])
  | [] => []
  end.

(** [%d] is [3[0-1]|[1-2]\d|0[1-9]|[1-9]| [1-9]]. *)
Definition field_d (s : pystr) : list (N * pystr) :=
  match s with
  | a :: r =>
      match r with
      | b :: r' =>
          (if (a =? 51)%N && in_range 48 49 b then [(30 + (b - 48), r')%N] else [])
          ++ (if in_range 49 50 a && is_digit b
              then [((a - 48) * 10 + (b - 48), r')%N] else [])
          ++ (if (a =? 48)%N && in_range 49 57 b then [((b - 48)%N, r')] else [])
      | [] => []
      end
      ++ (if in_range 49 57 a then [((a - 48)%N, r)] else [])
      ++ match r with
         | b :: r' => if (a =? 32)%N && in_range 49 57 b then [((b - 48)%N, r')] else []
         | [] => []
         end
  | [] => []
  end.

(** The matches of a format at the head of [s], in the order of the
    backtracking search, each with the fields read and the rest. *)
Fixpoint run (fmt : list directive) (v : ymd) (s : pystr) : list (ymd * pystr) :=
  match fmt with
  | [] => [(v, s)]
  | DLit c :: fmt' =>
      match s with
      | x :: r => if (x =? c)%N then run fmt' v r else []
      | [] => []
      end
  | DY :: fmt' =>
      flat_map (fun '(n, r) => run fmt' (mkymd n (f_m v) (f_d v)) r) (field_Y s)
  | Dm :: fmt' =>
      flat_map (fun '(n, r) => run fmt' (mkymd (f_Y v) n (f_d v)) r) (field_m s)
  | Dd :: fmt' =>
      flat_map (fun '(n, r) => run fmt' (mkymd (f_Y v) (f_m v) n) r) (field_d s)
  end.

(** [datetime(year, month, day)]: [None] stands for [ValueError]. *)
Definition make_date (v : ymd) : option date :=
  if ((1 <=? f_Y v) && (1 <=? f_m v) && (f_m v <=? 12) && (1 <=? f_d v)
      && (f_d v <=? days_in_month (f_Y v) (f_m v)))%N
  then Some (mkdate (f_Y v) (f_m v) (f_d v)) else None.

(** [datetime.strptime(s, fmt).date()]: the first match must use up the
    string, and the fields must name a day of the calendar. *)
Definition strptime (fmt : list directive) (s : pystr) : option date :=
  match run fmt ymd_default s with
  | (v, []) :: _ => make_date v
  | _ => None
  end.

Definition FMT_ISO : list directive := [DY; DLit 45; Dm; DLit 45; Dd].
Definition FMT_SLASH : list directive := [DY; DLit 47; Dm; DLit 47; Dd].
Definition FMT_DOT : list directive := [Dd; DLit 46; Dm; DLit 46; DY].

Definition parse_tempo_date (date_val : option pystr) : option date :=
  match date_val with
  | Some ((_ :: _) as v) =>
      let s := before 116%N (strip (lower v)) in
      if contains s (py "-") then strptime FMT_ISO s
      else if contains s (py "/") then strptime FMT_SLASH s
      else if contains s (py ".") then strptime FMT_DOT s
      else None
  | _ => None
  end.

(** [a or b] on two optional strings. *)
Definition str_or (a b : option pystr) : option pystr :=
  if truthy a then a else b.

(** One membership entry as the team service sends it. *)
Record raw_member := mkraw_member {
  raw_key : option pystr;
  dateFromANSI : option pystr;
  raw_dateFrom : option pystr;
  dateToANSI : option pystr;
  raw_dateTo : option pystr
}.

(** The key and the two dates the loop over the members reads. *)
Definition decode_member (m : raw_member) : member :=
  mkmember (raw_key m)
           (parse_tempo_date (str_or (dateFromANSI m) (raw_dateFrom m)))
           (parse_tempo_date (str_or (dateToANSI m) (raw_dateTo m))).

(** Zero-padded decimal of width [w] ([strftime]'s [%Y], [%m], [%d]). *)
Definition pad (w : nat) (n : N) : pystr :=
  let ds := of_N n in repeat 48%N (w - length ds) ++ ds.

(** [d.strftime("%Y-%m-%d")] *)
Definition iso_format (d : date) : pystr :=
  pad 4 (year d) ++ py "-" ++ pad 2 (month d) ++ py "-" ++ pad 2 (day d).

(** A day of the calendar, years 1 to 9999. *)
Definition valid_date (d : date) : bool :=
  ((1 <=? year d) && (year d <=? 9999) && (1 <=? month d) && (month d <=? 12)
   && (1 <=? day d) && (day d <=? days_in_month (year d) (month d)))%N.

(** Is the membership of [e] active in the period? *)
Definition member_active (report_start_date report_end_date : date) (e : member) : bool :=
  date_leb (default date_2000 (dateFrom e)) report_end_date
  && date_leb report_start_date (default date_2099 (dateTo e)).

(** The candidates of a field that a literal character follows, with the
    literal passed. *)
Definition then_lit (c : N) (cands : list (N * pystr)) : list (N * pystr) :=
  flat_map (fun '(n, r) =>
              match r with
              | x :: r' => if (x =? c)%N then [(n, r')] else []
              | [] => []
              end) cands.

(** Characters of an ISO date: digits and the dash. *)
Definition iso_char (c : N) : bool := is_digit c || (c =? 45)%N.


(** The teams whose members are asked for: those of the list whose name
    matches the pattern; none when the list request fails. *)
Definition target_teams (up : upstream) : list team :=
  match ok_body (get_teams up) with
  | Some all_teams => List.filter (fun t => team_pattern_match (team_name t)) all_teams
  | None => []
  end.

(** Does the answer for team [t] hold, under the key [k], a membership
    that is active in the period? *)
Definition team_has_active (up : upstream) (report_start_date report_end_date : date)
    (k : pystr) (t : team) : bool :=
  match ok_body (get_members up (team_id t)) with
  | Some members =>
      existsb (fun m => bool_decide (member_key m = Some k)
                        && member_active report_start_date report_end_date m) members
  | None => false
  end.

(* ===================================================================== *)
(** * More sample data *)
(* ===================================================================== *)

Module Sample2.

(** Two stream teams and one other team; every team lists the same user
    without dates. *)
Definition up_two_teams : upstream :=
  mkupstream
    (Resp 200 (Some [mkteam 1 (py "stream1-team"); mkteam 2 (py "Stream2-Team");
                     mkteam 3 (py "QA")]))
    (fun _ => Resp 200 (Some [mkmember (Some (py "JIRAUSER1")) None None]))
    (fun _ => TransportError).

(** Three rows of a report: two of the team "Other", written in two
    ways, and one of a stream team. *)
Definition row_in (team name : pystr) : report_row :=
  mkrow team name None None (Fin 0) [] (Fin 0) (Fin 0) [].

Definition row_other_a : report_row := row_in (py "Other") (py "Яковлев Я.Я.").
Definition row_other_b : report_row := row_in (py "OTHER") (py "Борисов Б.Б.").
Definition row_stream : report_row := row_in (py "stream1-team") (py "Яковлев Я.Я.").

End Sample2.

(** The number a cell of the hours column stands for, if any:
    [float(str(val).replace(',', '.').replace(' ', ''))]. *)
Definition parse_hours (val : cell) : option pyfloat :=
  py_float (replace 32%N [] (replace 44%N (py ".") (cell_str val))).

(** A value that is not below zero: a rational at least 0, or inf. *)
Definition nonneg (h : pyfloat) : Prop :=
  (exists q, h = Fin q /\ (0 <= q)%Q) \/ h = PInf.


(** No white space at the head. *)
Definition no_lead (s : pystr) : Prop :=
  match s with
  | c :: _ => isspace c = false
  | [] => True
  end.

(* ===================================================================== *)
(** * Directory cache ([get_all_jira_users]) *)
(* ===================================================================== *)

(** A user as the directory sends it: ['name'], ['key'] and
    ['displayName'], each possibly absent. *)
Record raw_user := mkraw_user {
  ru_name : option pystr;
  ru_key : option pystr;
  ru_displayName : option pystr
}.

(** One query of the user search, as a function of [startAt]. *)
Abbreviation user_search := (nat -> response (list raw_user)).

(** The [while True] loop over the pages of one query. [fuel] bounds the
    number of requests; [None] means the bound was reached with full
    pages still coming. *)
Fixpoint fetch_pages (fuel : nat) (search : user_search) (start_at : nat)
    (temp_users : list raw_user) : option (list raw_user) :=
  match fuel with
  | O => None
  | S fuel' =>
      match ok_body (search start_at) with
      | None => Some temp_users
      | Some [] => Some temp_users
      | Some chunk =>
          let temp_users := temp_users ++ chunk in
          if length chunk <? 1000 then Some temp_users
          else fetch_pages fuel' search (start_at + length chunk) temp_users
      end
  end.

(** The loop over the search masks: the first mask that yields a user
    gives the users. *)
Fixpoint first_users (fuel : nat) (searches : list user_search)
  : option (list raw_user) :=
  match searches with
  | [] => Some []
  | search :: rest =>
      match fetch_pages fuel search 0 [] with
      | None => None
      | Some [] => first_users fuel rest
      | Some temp_users => Some temp_users
      end
  end.

(** [user_obj]: a user without a key takes the login as key. *)
Definition user_obj (u : raw_user) : user :=
  let login := ru_name u in
  let key := if truthy (ru_key u) then ru_key u else login in
  mkuser login key (ru_displayName u).

(** [d.get(k)] on an association list. *)
Definition dict_get {K V : Type} `{EqDecision K} (k : K) (d : list (K * V)) : option V :=
  snd <$> List.find (fun p => bool_decide (fst p = k)) d.

(** The names under which a user enters [lookup_map]: the display name,
    the display name of two words with the words swapped, the login, all
    in lower case. *)
Definition index_keys (o : user) : list pystr :=
  match displayName o with
  | Some ((_ :: _) as d_name) =>
      lower d_name ::
      match split d_name with
      | [p0; p1] => [lower (p1 ++ py " " ++ p0)]
      | _ => []
      end
  | _ => []
  end
  ++ match login o with
     | Some ((_ :: _) as l) => [lower l]
     | _ => []
     end.

(** The body of the loop that fills [lookup_map] and [key_map]. *)
Definition index_user (maps : list (pystr * user) * list (pystr * user)) (u : raw_user)
  : list (pystr * user) * list (pystr * user) :=
  let '(lookup_map, key_map) := maps in
  let user_obj := user_obj u in
  let key_map :=
    match key user_obj with
    | Some ((_ :: _) as k) => dict_set k user_obj key_map
    | _ => key_map
    end in
  let lookup_map :=
    fold_left (fun d k => dict_set k user_obj d) (index_keys user_obj) lookup_map in
  (lookup_map, key_map).

Definition build_maps (users : list raw_user) : list (pystr * user) * list (pystr * user) :=
  fold_left index_user users ([], []).

(** [get_all_jira_users()] with the three search masks ['.'], ['@'] and
    ['']. *)
Definition get_all_jira_users (fuel : nat) (search_dot search_at search_empty : user_search)
  : option (list (pystr * user) * list (pystr * user)) :=
  build_maps <$> first_users fuel [search_dot; search_at; search_empty].

(** [JIRA_LOOKUP_CACHE.values()] *)
Definition cache_values_of (lookup_map : list (pystr * user)) : list user :=
  List.map snd lookup_map.

(** A directory that serves the users of [all], 1000 to a page. *)
Definition paged (all : list raw_user) : user_search :=
  fun start_at => Resp 200 (Some (firstn 1000 (skipn start_at all))).

(** The key under which a user enters [key_map], if any. *)
Definition key_map_keys (o : user) : list pystr :=
  match key o with
  | Some ((_ :: _) as k) => [k]
  | _ => []
  end.

(* ===================================================================== *)
(** * Summary of a report and tagging of leads *)
(* ===================================================================== *)

(** [unique_teams]: the teams of the report, each once, in the order of
    their first rows. *)
Definition unique_teams (rows : list report_row) : list pystr :=
  fold_left
    (fun unique_teams t =>
       if bool_decide (t ∈ unique_teams) then unique_teams else unique_teams ++ [t])
    (List.map Team rows) [].

(** [team_df[team_df['Статус'].str.contains("⚠️")]] for one team; the
    pattern holds no character that is special in a regular expression. *)
Definition bad_rows (team : pystr) (rows : list report_row) : list report_row :=
  List.filter (fun r => bool_decide (Team r = team) && contains (status r) (py "⚠️")) rows.

Definition teams_with_issues (rows : list report_row) : gset pystr :=
  list_to_set
    (List.filter (fun team => negb (bool_decide (bad_rows team rows = [])))
                 (unique_teams rows)).

(** [df[df['Статус'].str.contains("❓")]] *)
Definition not_found (rows : list report_row) : list report_row :=
  List.filter (fun r => contains (status r) (py "❓")) rows.

(** The leads of the teams with issues that the mapping knows. *)
Definition leads_to_tag (leads_mapping : gmap pystr pystr) (rows : list report_row)
  : gset pystr :=
  list_to_set (omap (fun t_name => leads_mapping !! t_name)
                    (elements (teams_with_issues rows))).

(** The message that tags the leads, when one is posted. *)
Definition lead_tags_message (leads_mapping : gmap pystr pystr) (rows : list report_row)
  : option pystr :=
  if negb (bool_decide (teams_with_issues rows = ∅))
     && negb (bool_decide (leads_mapping = ∅))
  then
    let leads := leads_to_tag leads_mapping rows in
    if negb (bool_decide (leads = ∅)) then
      Some (py "Внимание: " ++ join (py ", ") (sorted_strings leads)
            ++ py " — в ваших командах есть расхождения.")
    else None
  else None.

(** The code points on which [lower_cp] and [upper_cp] are the case
    mappings of Python: Basic Latin and the Cyrillic letters
    U+0400..U+045F. *)
Definition cased_cp (c : N) : bool := (c <=? 127)%N || in_range 1024 1119 c.

(* ===================================================================== *)
(** * Highlighting of absences ([hl] and the mark of the summary) *)
(* ===================================================================== *)

(** [s.split(sep)] for a one-character [sep]: the pieces between the
    separators, empty ones included. *)
Fixpoint split_on (sep : N) (s : pystr) : list pystr :=
  match s with
  | [] => [[]]
  | c :: r =>
      if (c =? sep)%N then [] :: split_on sep r
      else match split_on sep r with
           | p :: ps => (c :: p) :: ps
           | [] => [[c]]
           end
  end.

(** [c != 'В' and c] for a code that was stripped and upper-cased. *)
Definition code_marks (c : pystr) : bool :=
  negb (eqb c (py "В")) && negb (eqb c []).

(** [any(c != 'В' and c for c in [x.strip().upper() for x in s.split(',')])] *)
Definition any_code_marks (s : pystr) : bool :=
  existsb code_marks (List.map (fun c => upper (strip c)) (split_on 44%N s)).

(** Is the row of the workbook given the yellow background? *)
Definition hl (row : report_row) : bool := any_code_marks (row_absences row).

(* ===================================================================== *)
(** * Team leads ([teams.py]) *)
(* ===================================================================== *)

(** [s.lstrip(chars)] and [s.strip(chars)] for a set of characters. *)
Fixpoint lstrip_chars (chars : pystr) (s : pystr) : pystr :=
  match s with
  | c :: r => if existsb (N.eqb c) chars then lstrip_chars chars r else s
  | [] => []
  end.

Definition strip_chars (chars : pystr) (s : pystr) : pystr :=
  rev (lstrip_chars chars (rev (lstrip_chars chars s))).

(** A tag of the parsed page: its attributes. *)
Abbreviation tag := (gmap pystr pystr).

(** A cell of the table: [find_all(True)] and [get_text(" ", strip=True)]
    of it, as the parser gives them. *)
Record cell_tag := mkcell {
  find_all_tags : list tag;
  get_text : pystr
}.

(** The page: the request or the parsing raised, the page holds no
    table, or the rows of the first table, each with its cells. *)
Inductive page_answer :=
| PageRaise
| PageNoTable
| PageTable (rows : list (list cell_tag)).

(** What [get_user_details_by_userkey] gives: an exception, or details
    with the ['username'] they hold, if any (none also for a falsy
    answer). *)
Inductive user_details :=
| DetailsRaise
| DetailsOf (username : option pystr).

Record confluence := mkconfluence {
  get_user_details_by_userkey : pystr -> user_details;
  get_page_by_id : pystr -> page_answer
}.

(** The environment of the module: the variables it reads, the column
    index [int] gave (0 when it raised), and the client the library
    builds from the URL and the token ([None] when it raises). *)
Record settings := mksettings {
  CONFLUENCE_ENABLED : option pystr;
  CONFLUENCE_PAGE_ID : option pystr;
  CONFLUENCE_URL : option pystr;
  CONFLUENCE_TOKEN : option pystr;
  col_idx : Z;
  connect : option confluence
}.

Definition get_confluence_client (env : settings) : option confluence :=
  if negb (truthy (CONFLUENCE_URL env)) || negb (truthy (CONFLUENCE_TOKEN env)) then None
  else connect env.

(** The state the module keeps between calls: [USER_KEY_CACHE], and the
    keys the directory was asked for so far, the latest first. *)
Record key_state := mkkeys {
  USER_KEY_CACHE : gmap pystr pystr;
  api_calls : list pystr
}.

Definition resolve_user_by_key (c : confluence) (user_key : pystr) (st : key_state)
  : option pystr * key_state :=
  match user_key with
  | [] => (None, st)
  | _ :: _ =>
      match USER_KEY_CACHE st !! user_key with
      | Some username => (Some username, st)
      | None =>
          match get_user_details_by_userkey c user_key with
          | DetailsOf (Some username) =>
              (Some username,
               mkkeys (<[ user_key := username ]> (USER_KEY_CACHE st))
                      (user_key :: api_calls st))
          | _ => (None, mkkeys (USER_KEY_CACHE st) (user_key :: api_calls st))
          end
      end
  end.

Inductive id_type := ID_username | ID_userkey.

(** [[^/?#]] *)
Definition segment_char (c : N) : bool :=
  negb ((c =? 47)%N || (c =? 63)%N || (c =? 35)%N).

Fixpoint take_segment (s : pystr) : pystr :=
  match s with
  | c :: r => if segment_char c then c :: take_segment r else []
  | [] => []
  end.

(** [re.search(p + '([^/?#]+)', s)] for a literal [p]: group 1 of the
    leftmost match. *)
Fixpoint search_segment (p s : pystr) : option pystr :=
  let here :=
    match strip_prefix p s with
    | Some rest =>
        match take_segment rest with
        | [] => None
        | seg => Some seg
        end
    | None => None
    end in
  match here with
  | Some seg => Some seg
  | None =>
      match s with
      | [] => None
      | _ :: r => search_segment p r
      end
  end.

Definition extract_identity_from_tag (t : tag) : option (id_type * pystr) :=
  match t !! py "ri:userkey" with
  | Some v => Some (ID_userkey, v)
  | None =>
  match t !! py "ri:username" with
  | Some v => Some (ID_username, v)
  | None =>
  match t !! py "data-username" with
  | Some v => Some (ID_username, v)
  | None =>
  match t !! py "href" with
  | Some href =>
      match search_segment (py "/display/~") href with
      | Some v => Some (ID_username, v)
      | None =>
          match search_segment (py "/users/") href with
          | Some v => Some (ID_username, v)
          | None => None
          end
      end
  | None => None
  end end end end.

(** The loop over the tags of a cell: the first tag that names a user
    directly, or whose key resolves to a non-empty login, ends it. *)
Fixpoint tag_username (c : confluence) (all_tags : list tag) (st : key_state)
  : option pystr * key_state :=
  match all_tags with
  | [] => (None, st)
  | t :: rest =>
      match extract_identity_from_tag t with
      | Some (ID_username, id_val) => (Some id_val, st)
      | Some (ID_userkey, id_val) =>
          let '(resolved_login, st') := resolve_user_by_key c id_val st in
          if truthy resolved_login then (resolved_login, st')
          else tag_username c rest st'
      | None => tag_username c rest st
      end
  end.

(** [target_cell.get_text(" ", strip=True).replace('\xa0', ' ')] *)
Definition cell_text (target_cell : cell_tag) : pystr :=
  replace 160%N (py " ") (get_text target_cell).

(** The loop over the words of a cell: the first word that starts with
    "@" and is longer than one character gives the name. *)
Definition text_username (target_cell : cell_tag) : option pystr :=
  match List.find (fun word => startswith word (py "@") && (1 <? length word))
                  (split (cell_text target_cell)) with
  | Some word => Some (lstrip_chars (py "@") (strip word))
  | None => None
  end.

(** [found_username] of a cell. *)
Definition found_username (c : confluence) (target_cell : cell_tag) (st : key_state)
  : option pystr * key_state :=
  let '(found, st') := tag_username c (find_all_tags target_cell) st in
  if truthy found then (found, st')
  else
    match text_username target_cell with
    | Some v => (Some v, st')
    | None => (found, st')
    end.

(** [parts] of a cell. *)
Definition cell_parts (target_cell : cell_tag) : list pystr :=
  List.map (fun p => strip_chars (py ",;") (strip p)) (split (cell_text target_cell)).

(** [l[i]] for a Python index [i < len(l)]: a negative index counts from
    the end, and below [-len(l)] it raises ([None]). *)
Definition py_index {A : Type} (l : list A) (i : Z) : option A :=
  if (0 <=? i)%Z then l !! Z.to_nat i
  else if (- i <=? Z.of_nat (length l))%Z then l !! Z.to_nat (Z.of_nat (length l) + i)
  else None.

(** The variables of the loop over the rows. *)
Record leads_state := mkleads {
  current_lead : option pystr;
  leads_map : gmap pystr pystr;
  keys : key_state
}.

(** A turn of the loop either goes on or raises [IndexError]; what was
    cached stays cached. *)
Inductive turn := Next (st : leads_state) | Raised (ks : key_state).

(** The loop over [parts]. *)
Definition assign_parts (current_lead : option pystr) (parts : list pystr)
    (leads_map : gmap pystr pystr) : gmap pystr pystr :=
  fold_left
    (fun (m : gmap pystr pystr) p =>
       if team_pattern_match p then
         match current_lead with
         | Some ((_ :: _) as lead) => <[ p := py "@" ++ lead ]> m
         | _ => m
         end
       else m)
    parts leads_map.

(** One row of the table. *)
Definition read_row (c : confluence) (col_idx : Z) (st : leads_state)
    (cells : list cell_tag) : turn :=
  if (col_idx <? Z.of_nat (length cells))%Z then
    match py_index cells col_idx with
    | None => Raised (keys st)
    | Some target_cell =>
        let '(found, ks) := found_username c target_cell (keys st) in
        let current_lead := if truthy found then found else current_lead st in
        Next (mkleads current_lead
                      (assign_parts current_lead (cell_parts target_cell) (leads_map st))
                      ks)
    end
  else Next st.

Fixpoint read_rows (c : confluence) (col_idx : Z) (rows : list (list cell_tag))
    (st : leads_state) : turn :=
  match rows with
  | [] => Next st
  | cells :: rest =>
      match read_row c col_idx st cells with
      | Next st' => read_rows c col_idx rest st'
      | Raised ks => Raised ks
      end
  end.

(** The mapping of team names to the tags of their leads, and the state
    of the key cache after the call. *)
Definition fetch_team_leads_mapping (env : settings) (ks : key_state)
  : gmap pystr pystr * key_state :=
  if negb (eqb (lower (default (py "False") (CONFLUENCE_ENABLED env))) (py "true"))
  then (∅, ks)
  else
    match CONFLUENCE_PAGE_ID env with
    | Some ((_ :: _) as page_id) =>
        match get_confluence_client env with
        | None => (∅, ks)
        | Some c =>
            match get_page_by_id c page_id with
            | PageTable rows =>
                match read_rows c (col_idx env) rows (mkleads None ∅ ks) with
                | Next st => (leads_map st, keys st)
                | Raised ks' => (∅, ks')
                end
            | _ => (∅, ks)
            end
        end
    | _ => (∅, ks)
    end.

(** The team names a row lists in the column read. *)
Definition row_teams (col_idx : Z) (cells : list cell_tag) : list pystr :=
  if (col_idx <? Z.of_nat (length cells))%Z then
    match py_index cells col_idx with
    | Some target_cell => List.filter team_pattern_match (cell_parts target_cell)
    | None => []
    end
  else [].

Module Sample3.

(** A directory that knows one key. *)
Definition wiki_users (k : pystr) : user_details :=
  if eqb k (py "8af005") then DetailsOf (Some (py "ivanov")) else DetailsOf None.

(** A table of two rows: the first names a lead by key and lists a team,
    the second lists another team only. *)
Definition lead_cell : cell_tag :=
  mkcell [ {[ py "ri:userkey" := py "8af005" ]} ] (py "stream1-team,").

Definition team_cell : cell_tag := mkcell [] (py "Stream2-Team; arch-team").

Definition other_cell : cell_tag := mkcell [] (py "@petrov change-team").

Definition table : list (list cell_tag) :=
  [ [lead_cell; other_cell]; [team_cell] ].

Definition wiki : confluence :=
  mkconfluence wiki_users (fun _ => PageTable table).

Definition env (col : Z) : settings :=
  mksettings (Some (py "True")) (Some (py "12345")) (Some (py "https://wiki.example"))
             (Some (py "token")) col (Some wiki).

Definition no_keys : key_state := mkkeys ∅ [].

(** The state of the loop after the first row of the table, read in
    column 0. *)
Definition after_lead_row : leads_state :=
  mkleads (Some (py "ivanov")) {[ py "stream1-team" := py "@ivanov" ]}
          (mkkeys {[ py "8af005" := py "ivanov" ]} [py "8af005"]).

(** The state of the loop after both rows. *)
Definition after_table : leads_state :=
  mkleads (Some (py "ivanov"))
          {[ py "stream1-team" := py "@ivanov"; py "Stream2-Team" := py "@ivanov";
             py "arch-team" := py "@ivanov" ]}
          (mkkeys {[ py "8af005" := py "ivanov" ]} [py "8af005"]).

End Sample3.

(** From [st] to [st']: nothing cached is lost or changed, the keys
    asked for in between ([new], the latest first) were not cached in
    [st], and every key cached in between was asked for. *)
Definition grows (st st' : key_state) : Prop :=
  exists new,
    api_calls st' = new ++ api_calls st
    /\ Forall (fun k => k <> [] /\ USER_KEY_CACHE st !! k = None) new
    /\ (forall k u, USER_KEY_CACHE st !! k = Some u -> USER_KEY_CACHE st' !! k = Some u)
    /\ (forall k u, USER_KEY_CACHE st' !! k = Some u ->
                    USER_KEY_CACHE st !! k = Some u \/ k ∈ new).

(** The state of the keys a turn of the loop leaves. *)
Definition turn_keys (t : turn) : key_state :=
  match t with
  | Next st => keys st
  | Raised ks => ks
  end.

(** The tag the loop writes for a lead, when there is one to write. *)
Definition lead_tag (current_lead : option pystr) : option pystr :=
  match current_lead with
  | Some ((_ :: _) as lead) => Some (py "@" ++ lead)
  | _ => None
  end.

(* ===================================================================== *)
(** * Properties *)
(* ===================================================================== *)

(** ** The model on small inputs *)

Example py_cyrillic : py "Яя" = [1071%N; 1103%N].
Proof. reflexivity. Qed.
Example lower_mixed : lower (py "Stream2-Team Фамилия") = py "stream2-team фамилия".
Proof. vm_compute. reflexivity. Qed.
Example split_example : split (py "  иванов  и и ") = [py "иванов"; py "и"; py "и"].
Proof. vm_compute. reflexivity. Qed.
Example strip_example : strip (py "  ОТ ") = py "ОТ".
Proof. vm_compute. reflexivity. Qed.
Example b64_tenth :
  PyFloat.b64 (1 # 10) = Fin (3602879701896397 # 36028797018963968).
Proof. vm_compute. reflexivity. Qed.
Example b64_exact :
  List.map PyFloat.b64 [0; 160; - (305 # 2); 1 # 8]%Q
  = [Fin 0; Fin 160; Fin (- 305 # 2); Fin (1 # 8)].
Proof. vm_compute. reflexivity. Qed.
Example b64_range :
  PyFloat.b64 (PyFloat.two_pow 1024) = PInf
  /\ PyFloat.b64 (- PyFloat.two_pow 1024) = NInf
  /\ PyFloat.b64 (PyFloat.two_pow (-1074)) = Fin (PyFloat.two_pow (-1074))
  /\ PyFloat.b64 (PyFloat.two_pow (-1076)) = Fin 0.
Proof. vm_compute. auto. Qed.
Example round2_half_even : PyFloat.round2 (Fin (125 # 1000)) = PyFloat.b64 (12 # 100).
Proof. vm_compute. reflexivity. Qed.
Example round2_hours :
  PyFloat.round2 (PyFloat.div_int 590436 3600) = PyFloat.b64 (16401 # 100).
Proof. vm_compute. reflexivity. Qed.
(** [round(158418 / 3600, 2)] is 44.01: the quotient 44.005 is not a
    binary64 number, and the nearest one lies above it. *)
Example round2_tie_of_decimals :
  PyFloat.round2 (PyFloat.div_int 158418 3600) = PyFloat.b64 (4401 # 100)
  /\ PyFloat.round2 (PyFloat.sub (Fin 0) (PyFloat.b64 (2675 # 1000)))
     = PyFloat.b64 (- 267 # 100).
Proof. vm_compute. auto. Qed.
Example rank_stream2 : get_team_rank (py "stream2-team") = (3%N, 2%N, py "stream2-team").
Proof. vm_compute. reflexivity. Qed.
Example rank_streamA : get_team_rank (py "streamA-team") = (3%N, 999%N, py "streama-team").
Proof. vm_compute. reflexivity. Qed.
Example rank_other : get_team_rank (py "Other") = (99%N, 0%N, py "other").
Proof. vm_compute. reflexivity. Qed.
Example cell_str_float : cell_str (CFloat 75 1) = py "7.5".
Proof. vm_compute. reflexivity. Qed.
Example cell_str_float0 : cell_str (CFloat 160 0) = py "160.0".
Proof. vm_compute. reflexivity. Qed.
Example cell_str_small : cell_str (CFloat (-1250) 4) = py "-0.125".
Proof. vm_compute. reflexivity. Qed.
Example py_float_160 : py_float (py "160") = Some (Fin 160).
Proof. vm_compute. reflexivity. Qed.
Example py_float_dec : py_float (py " -7.5 ") = Some (Fin (- 15 # 2)).
Proof. vm_compute. reflexivity. Qed.
Example py_float_exp : py_float (py "1_0.5e-1") = Some (PyFloat.b64 (21 # 20)).
Proof. vm_compute. reflexivity. Qed.
Example py_float_nan : py_float (py "nan") = Some NaN.
Proof. vm_compute. reflexivity. Qed.
Example py_float_bad :
  List.map (fun s => py_float (py s))
           ["ОТ"; "1e"; "."; "1_"; "1__0"; "- 5"; "1._5"; "_1"; "e5"; "1e_5"; "1e5_"]%string
  = repeat None 11.
Proof. vm_compute. reflexivity. Qed.
Example py_float_good :
  List.map (fun s => py_float (py s)) ["1."; ".5"; "+inf"; "Infinity"; "-INF"]%string
  = [Some (Fin 1); Some (Fin (1 # 2)); Some PInf; Some PInf; Some NInf].
Proof. vm_compute. reflexivity. Qed.
Example team_pattern_examples :
  List.map (fun s => team_pattern_match (py s))
           ["Stream2-team"; "stream-team"; "streamteam"; "ARCH-TEAM"; "xarch-team";
            "stream-tea-team"; "Other"]%string
  = [true; true; false; true; false; true; false].
Proof. vm_compute. reflexivity. Qed.
Example search_stream_example :
  search_stream_num (py "streamstream25x") = Some (py "25")
  /\ search_stream_num (py "streama-team") = None.
Proof. vm_compute. auto. Qed.
Example findall_example :
  findall_dates (py "c 01.02.2024 по 29.02.20241.03.2024 ") = [py "01.02.2024"; py "29.02.2024"].
Proof. vm_compute. reflexivity. Qed.
Example strptime_example :
  strptime_dmy (py "29.02.2024") = Some (mkdate 2024 2 29)
  /\ strptime_dmy (py "29.02.2023") = None /\ strptime_dmy (py "01.13.2024") = None.
Proof. vm_compute. auto. Qed.
Example match_swapped :
  check_name_match (Some (py "Иван Иванов")) (Some (py "Иванов Иван")) = true.
Proof. vm_compute. reflexivity. Qed.
Example match_initials :
  check_name_match (Some (py "Иванов И.И.")) (Some (py "И. Петров")) = false.
Proof. vm_compute. reflexivity. Qed.

Example end_to_end_ok :
  worker_process_file Sample.sheet Sample.cache_values (Sample.up_ok 584640)
  = Reported (mkdate 2024 1 1) (mkdate 2024 1 31)
      [ mkrow (py "stream2-team") (py "Иванов Иван") (Some (py "Иван Иванов"))
              (Some (py "JIRAUSER1")) (Fin 160) (py "ОТ") (PyFloat.b64 (812 # 5))
              (PyFloat.b64 (12 # 5)) STATUS_OK;
        mkrow OTHER (py "Петров П.П.") (Some DASH) (Some DASH) (Fin (305 # 2)) []
              (Fin 0) (Fin (- 305 # 2)) STATUS_UNRESOLVED ].
Proof. vm_compute. reflexivity. Qed.

Example end_to_end_variance :
  match worker_process_file Sample.sheet Sample.cache_values (Sample.up_ok 612000) with
  | Reported _ _ rows => List.map (fun r => (diff r, status r)) rows
  | Aborted _ => []
  end
  = [(Fin 10, STATUS_VARIANCE); (Fin (- 305 # 2), STATUS_UNRESOLVED)].
Proof. vm_compute. reflexivity. Qed.

(** ** Supporting lemmas *)

Section SortFacts.
Context {A : Type} (le : A -> A -> bool).

Lemma insert_sorted_perm (x : A) (l : list A) : insert_sorted le x l ≡ₚ x :: l.
Proof.
  induction l as [|y r IH]; simpl; [done|].
  destruct (le x y); [done|].
  rewrite IH. apply Permutation_swap.
Qed.

Lemma sort_perm (l : list A) : sort le l ≡ₚ l.
Proof.
  induction l as [|x l IH]; simpl; [done|].
  rewrite insert_sorted_perm. by rewrite IH.
Qed.

Lemma elem_of_sort (x : A) (l : list A) : x ∈ sort le l ↔ x ∈ l.
Proof. by rewrite sort_perm. Qed.

Lemma length_sort (l : list A) : length (sort le l) = length l.
Proof. by rewrite sort_perm. Qed.
End SortFacts.

Lemma status_texts_distinct :
  STATUS_OK <> STATUS_VARIANCE /\ STATUS_OK <> STATUS_UNRESOLVED
  /\ STATUS_VARIANCE <> STATUS_UNRESOLVED.
Proof. vm_compute. repeat split; discriminate. Qed.

Lemma name_parts_nil : name_parts [] = [].
Proof. reflexivity. Qed.

Lemma name_parts_dash : name_parts DASH = [].
Proof. vm_compute. reflexivity. Qed.

(** The resolver accepts a pair exactly when the two token lists share a
    token. *)
Lemma check_name_match_shared (j e : pystr) :
  check_name_match (Some j) (Some e) = true
  <-> exists t, t ∈ name_parts j /\ t ∈ name_parts e.
Proof.
  unfold check_name_match.
  destruct j as [|a j].
  { simpl. split; [discriminate|]. intros (t & Ht & _). by apply elem_of_nil in Ht. }
  destruct e as [|b e].
  { simpl. split; [discriminate|]. intros (t & _ & Ht). by apply elem_of_nil in Ht. }
  cbn [truthy negb orb].
  rewrite negb_true_iff, bool_decide_eq_false, elem_of_disjoint.
  split.
  - intros Hnd.
    destruct (decide ((list_to_set (name_parts (a :: j)) : gset pystr)
                      ∩ list_to_set (name_parts (b :: e)) = ∅)) as [He|Hne].
    + exfalso. apply Hnd. intros x Hx Hy.
      assert (Hin : x ∈ (list_to_set (name_parts (a :: j)) : gset pystr)
                        ∩ list_to_set (name_parts (b :: e))) by set_solver.
      rewrite He in Hin. set_solver.
    + apply set_choose_L in Hne as [t Ht].
      exists t. apply elem_of_intersection in Ht as [H1 H2].
      by rewrite !elem_of_list_to_set in H1, H2.
  - intros (t & H1 & H2) Hd.
    apply (Hd t); by apply elem_of_list_to_set.
Qed.

Lemma check_name_match_None_l (e : option pystr) : check_name_match None e = false.
Proof. reflexivity. Qed.

(** A display name that is a bare dash has no token, so it never matches. *)
Lemma dash_never_matches (e : option pystr) : check_name_match (Some DASH) e = false.
Proof.
  destruct e as [e|]; [|reflexivity].
  apply not_true_is_false. rewrite check_name_match_shared, name_parts_dash.
  intros (t & Ht & _). by apply elem_of_nil in Ht.
Qed.

(** What the extractor records about a row it emits. *)
Lemma extract_row_Some df name_col hours_col cols users i r :
  extract_row df name_col hours_col cols users i = Some r ->
  skip_name (iloc df i name_col) = false
  /\ name_1c r = clean_name_of (iloc df i name_col)
  /\ hours_1c r = scan_hours df hours_col (block_rows df i)
  /\ absences r = sorted_strings (scan_absences df cols (block_rows df i))
  /\ jira_user r
     = List.find (fun u => check_name_match (displayName u) (Some (name_1c r))) users
  /\ (PyFloat.gt (hours_1c r) (Fin 0) = true
      \/ scan_absences df cols (block_rows df i) <> ∅).
Proof.
  unfold extract_row. destruct (skip_name _); [discriminate|].
  destruct (PyFloat.gt _ _ || _) eqn:Hemit; [|discriminate].
  intros [= <-]. simpl. repeat split; try reflexivity.
  apply orb_true_iff in Hemit as [H|H]; [by left|right].
  by apply negb_true_iff, bool_decide_eq_false in H.
Qed.

Lemma elem_of_extract_records df h n hours_col cols users r :
  r ∈ extract_records df h n hours_col cols users ->
  exists i, h < i < nrows df /\ extract_row df n hours_col cols users i = Some r.
Proof.
  unfold extract_records, range. rewrite list_elem_of_omap.
  intros (i & Hi & Hr). exists i. split; [|done].
  apply elem_of_seq in Hi. lia.
Qed.

(** A record with an identity was matched by the resolver on its display
    name. *)
Lemma resolved_matches df cache h n r u :
  r ∈ parse_excel df cache h n -> jira_user r = Some u ->
  check_name_match (displayName u) (Some (name_1c r)) = true.
Proof.
  intros Hin Hu. apply elem_of_extract_records in Hin as (i & _ & Hrow).
  apply extract_row_Some in Hrow as (_ & _ & _ & _ & Hfind & _).
  rewrite Hu in Hfind. symmetry in Hfind.
  by apply find_some in Hfind as [_ Hm].
Qed.

Lemma resolved_not_dash df cache h n r u :
  r ∈ parse_excel df cache h n -> jira_user r = Some u ->
  displayName u <> Some DASH.
Proof.
  intros Hin Hu Hd. pose proof (resolved_matches _ _ _ _ _ _ Hin Hu) as Hm.
  rewrite Hd, dash_never_matches in Hm. discriminate.
Qed.

Lemma sample_parse :
  parse_excel Sample.sheet Sample.cache_values 1 0 = [Sample.rec_ivanov; Sample.rec_petrov].
Proof. vm_compute. reflexivity. Qed.

(** ** Team rank ordering *)

(** A stream team without a number takes the number 999, so any stream
    team numbered below 999 sorts before it. *)
Lemma sort_rows_sample_teams (rows : list report_row) :
  List.map Team rows = Sample.teams_in ->
  List.map Team (sort_rows rows)
  = [py "arch-team"; py "change-team"; py "stream2-team"; py "streamA-team"; py "Other"].
Proof.
  intros H.
  destruct rows as [|[t1 ? ? ? ? ? ? ? ?] [|[t2 ? ? ? ? ? ? ? ?] [|[t3 ? ? ? ? ? ? ? ?]
    [|[t4 ? ? ? ? ? ? ? ?] [|[t5 ? ? ? ? ? ? ? ?] [|? ?]]]]]]; try discriminate H.
  injection H as -> -> -> -> ->.
  vm_compute. reflexivity.
Qed.

(** A stream team whose name holds no "stream<digits>" has the number
    999. *)
Lemma SortNum_unnumbered (team : pystr) :
  SortRank team = 3%N -> search_stream_num (lower team) = None -> SortNum team = 999%N.
Proof.
  unfold SortRank, SortNum, get_team_rank. intros Hrank Hnone.
  destruct (eqb _ _); [discriminate|].
  destruct (contains _ (py "arch-team")); [discriminate|].
  destruct (contains _ (py "change-team")); [discriminate|].
  destruct (contains _ (py "stream")); [|discriminate].
  cbn [fst snd]. by rewrite Hnone.
Qed.

(** C1, as the code has it: within the stream tier a team numbered below
    999 sorts before a team without a number, which takes the number 999;
    so sorting the teams Other, stream2-team, arch-team, streamA-team,
    change-team by the team rank key gives arch-team, change-team,
    stream2-team, streamA-team, Other. *)
Theorem C1_team_rank_order (numbered unnumbered : pystr) :
  SortRank numbered = 3%N -> (SortNum numbered < 999)%N ->
  SortRank unnumbered = 3%N -> search_stream_num (lower unnumbered) = None ->
  team_ltb numbered unnumbered = true
  /\ team_ltb unnumbered numbered = false
  /\ get_team_rank (py "stream2-team") = (3%N, 2%N, py "stream2-team")
  /\ get_team_rank (py "streamA-team") = (3%N, 999%N, py "streama-team")
  /\ sort_teams Sample.teams_in
     = [py "arch-team"; py "change-team"; py "stream2-team"; py "streamA-team"; py "Other"].
Proof.
  intros Hr1 Hn1 Hr2 Hnone.
  pose proof (SortNum_unnumbered _ Hr2 Hnone) as Hn2.
  unfold team_ltb. rewrite Hr1, Hr2, Hn2.
  split.
  { apply N.ltb_lt in Hn1. rewrite Hn1. reflexivity. }
  split.
  { assert (H1 : (999 <? SortNum numbered)%N = false) by (apply N.ltb_ge; lia).
    assert (H2 : (999 =? SortNum numbered)%N = false) by (apply N.eqb_neq; lia).
    rewrite H1, H2. reflexivity. }
  vm_compute. auto.
Qed.

Lemma C1_team_rank_order_witness :
  team_ltb (py "stream2-team") (py "streamA-team") = true
  /\ team_ltb (py "streamA-team") (py "stream2-team") = false.
Proof.
  assert (H1 : SortRank (py "stream2-team") = 3%N) by (vm_compute; reflexivity).
  assert (H2 : (SortNum (py "stream2-team") < 999)%N) by (vm_compute; reflexivity).
  assert (H3 : SortRank (py "streamA-team") = 3%N) by (vm_compute; reflexivity).
  assert (H4 : search_stream_num (lower (py "streamA-team")) = None)
    by (vm_compute; reflexivity).
  destruct (C1_team_rank_order _ _ H1 H2 H3 H4) as (Hlt & Hge & _).
  split; [exact Hlt | exact Hge].
Defined.

(** C1, as the specification's test property states it, fails: the sorted order is not arch-team,
    change-team, streamA-team, stream2-team, Other. *)
Lemma C1_claimed_order_fails :
  sort_teams Sample.teams_in
  <> [py "arch-team"; py "change-team"; py "streamA-team"; py "stream2-team"; py "Other"].
Proof. vm_compute. discriminate. Qed.

(** ** Variance classification *)

(** The two overriding tests that set the status of a row. *)
Lemma build_row_status tm agg r :
  status (build_row tm agg r)
  = if bool_decide (row_name_jira (build_row tm agg r) = Some DASH) then STATUS_UNRESOLVED
    else if PyFloat.gt (PyFloat.abs (diff (build_row tm agg r))) (Fin 4)
         then STATUS_VARIANCE else STATUS_OK.
Proof. unfold build_row. destruct (jira_user r); reflexivity. Qed.

(** The status of a row is decided by its rounded difference alone once
    the display name is not the dash. *)
Lemma build_row_resolved tm agg r u :
  jira_user r = Some u -> displayName u <> Some DASH ->
  let row := build_row tm agg r in
  diff row = PyFloat.round2 (PyFloat.sub (hours_tempo row) (hours_1c r))
  /\ status row
     = if PyFloat.gt (PyFloat.abs (diff row)) (Fin 4) then STATUS_VARIANCE else STATUS_OK.
Proof.
  intros Hu Hd. unfold build_row. rewrite Hu. cbn zeta. cbn [diff hours_tempo status].
  split; [reflexivity|].
  rewrite bool_decide_eq_false_2 by done. reflexivity.
Qed.

Lemma Qltb_lt (x y : Q) : PyFloat.Qltb x y = true <-> (x < y)%Q.
Proof.
  unfold PyFloat.Qltb. rewrite negb_true_iff, <- not_true_iff_false, Qle_bool_iff.
  split; [apply Qnot_le_lt | apply Qlt_not_le].
Qed.

(** [round_half_even] gives an integer at most one half away. *)
Lemma round_half_even_near (q : Q) :
  (Qabs (q - inject_Z (PyFloat.round_half_even q)) <= 1 # 2)%Q.
Proof.
  unfold PyFloat.round_half_even. cbv zeta.
  pose proof (Qfloor_le q) as Hlo. pose proof (Qlt_floor q) as Hhi.
  rewrite inject_Z_plus in Hhi. change (inject_Z 1) with 1%Q in Hhi.
  apply Qabs_Qle_condition.
  destruct (PyFloat.Qltb (q - inject_Z (Qfloor q)) (1 # 2)) eqn:H1.
  - apply Qltb_lt in H1. split; lra.
  - apply not_true_iff_false in H1. rewrite Qltb_lt in H1.
    destruct (PyFloat.Qltb (1 # 2) (q - inject_Z (Qfloor q))) eqn:H2.
    + apply Qltb_lt in H2. rewrite inject_Z_plus. change (inject_Z 1) with 1%Q.
      split; lra.
    + apply not_true_iff_false in H2. rewrite Qltb_lt in H2.
      destruct (Z.even (Qfloor q)).
      * split; lra.
      * rewrite inject_Z_plus. change (inject_Z 1) with 1%Q. split; lra.
Qed.

(** [round(x, 2)] is the float nearest to a number of hundredths that
    lies at most half a hundredth from [x]. *)
Lemma round2_two_places (x : Q) :
  exists k : Z,
    PyFloat.round2 (Fin x) = PyFloat.b64 (k # 100)
    /\ (Qabs (x - (k # 100)) <= 1 # 200)%Q.
Proof.
  exists (PyFloat.round_half_even (x * 100)). split; [reflexivity|].
  pose proof (round_half_even_near (x * 100)) as H.
  apply Qabs_Qle_condition in H. apply Qabs_Qle_condition.
  rewrite (Qmake_Qdiv (PyFloat.round_half_even (x * 100)) 100).
  change (inject_Z (Z.pos 100)) with 100%Q.
  set (k := inject_Z (PyFloat.round_half_even (x * 100))) in *.
  assert (Hk : (k == k / 100 * 100)%Q) by (field; discriminate).
  set (y := (k / 100)%Q) in *.
  split; lra.
Qed.

Lemma sample_parse_40 :
  parse_excel Sample.sheet_40 Sample.cache_values 1 0 = [Sample.rec_40; Sample.rec_38].
Proof. vm_compute. reflexivity. Qed.

(** C2: for a record the extractor resolved to a directory user, the row's
    difference is round(hours_tempo - hours_1c, 2): the float nearest to
    a number of hundredths at most half a hundredth from the float
    hours_tempo - hours_1c. The status is VARIANCE exactly when the
    absolute difference is strictly greater than 4, and OK otherwise; a
    difference of 4.00 gives OK and 4.01 gives VARIANCE, where 4.01 is
    the float 2257429313219461 / 2^49, and 158418 seconds are 44.01
    hours, the float 6193856862517985 / 2^47. *)
Theorem C2_variance_threshold df cache h n tm agg r u :
  r ∈ parse_excel df cache h n -> jira_user r = Some u ->
  let row := build_row tm agg r in
  diff row = PyFloat.round2 (PyFloat.sub (hours_tempo row) (hours_1c r))
  /\ (forall x, PyFloat.sub (hours_tempo row) (hours_1c r) = Fin x ->
        exists k : Z, diff row = PyFloat.b64 (k # 100)
                      /\ (Qabs (x - (k # 100)) <= 1 # 200)%Q)
  /\ (status row = STATUS_VARIANCE <-> PyFloat.gt (PyFloat.abs (diff row)) (Fin 4) = true)
  /\ (status row = STATUS_OK <-> PyFloat.gt (PyFloat.abs (diff row)) (Fin 4) = false)
  /\ (forall q, diff row = Fin q -> (status row = STATUS_VARIANCE <-> (4 < Qabs q)%Q))
  /\ (diff row = PyFloat.b64 4 -> status row = STATUS_OK)
  /\ (diff row = PyFloat.b64 (401 # 100) -> status row = STATUS_VARIANCE)
  /\ PyFloat.b64 4 = Fin 4
  /\ PyFloat.b64 (401 # 100) = Fin (2257429313219461 # 562949953421312)
  /\ PyFloat.round2 (PyFloat.div_int 158418 3600)
     = Fin (6193856862517985 # 140737488355328).
Proof.
  intros Hin Hu row.
  destruct (build_row_resolved tm agg r u Hu (resolved_not_dash _ _ _ _ _ _ Hin Hu))
    as [Hdiff Hst].
  fold row in Hdiff, Hst.
  destruct status_texts_distinct as (Hov & _ & _).
  assert (Hiff : status row = STATUS_VARIANCE
                 <-> PyFloat.gt (PyFloat.abs (diff row)) (Fin 4) = true).
  { rewrite Hst. destruct (PyFloat.gt _ _); split; congruence. }
  split; [exact Hdiff|]. split.
  { intros x Hx. rewrite Hdiff, Hx. apply round2_two_places. }
  split; [exact Hiff|]. split.
  { rewrite Hst. destruct (PyFloat.gt _ _); split; congruence. }
  split.
  { intros q Hq. rewrite Hiff, Hq. cbn [PyFloat.abs PyFloat.gt]. apply Qltb_lt. }
  split; [intros Hq; rewrite Hst, Hq; reflexivity|].
  split; [intros Hq; rewrite Hst, Hq; reflexivity|].
  split; [by vm_compute|]. split; by vm_compute.
Qed.

(** 158418 seconds against 40 hours: the quotient 44.005 is the float
    just above it, so the hours are 44.01, the difference is 4.01 and
    the row is a VARIANCE. *)
Lemma C2_variance_threshold_witness :
  let row := build_row ∅ {[ Some (py "JIRAUSER1") := 158418%Z ]} Sample.rec_40 in
  hours_tempo row = PyFloat.b64 (4401 # 100)
  /\ diff row = PyFloat.b64 (401 # 100)
  /\ status row = STATUS_VARIANCE.
Proof.
  assert (Hin : Sample.rec_40 ∈ parse_excel Sample.sheet_40 Sample.cache_values 1 0).
  { rewrite sample_parse_40. apply elem_of_cons. by left. }
  pose proof (C2_variance_threshold Sample.sheet_40 Sample.cache_values 1 0
                ∅ {[ Some (py "JIRAUSER1") := 158418%Z ]}
                Sample.rec_40 Sample.ivanov Hin eq_refl) as H.
  cbv zeta in H |- *.
  assert (Hd : diff (build_row ∅ {[ Some (py "JIRAUSER1") := 158418%Z ]} Sample.rec_40)
               = PyFloat.b64 (401 # 100)) by (vm_compute; reflexivity).
  split; [vm_compute; reflexivity|]. split; [exact Hd|].
  destruct H as (_ & _ & _ & _ & _ & _ & Hv & _). exact (Hv Hd).
Defined.

(** ** Unresolved rows *)

(** C3: a record without a directory user yields a row with
    hours_tempo = 0, team "Other" and status UNRESOLVED whatever its 1C
    hours are; and the status of every row is one of OK, VARIANCE,
    UNRESOLVED. *)
Theorem C3_unresolved_row tm agg r :
  (jira_user r = None ->
   hours_tempo (build_row tm agg r) = Fin 0
   /\ Team (build_row tm agg r) = OTHER
   /\ status (build_row tm agg r) = STATUS_UNRESOLVED)
  /\ (status (build_row tm agg r) = STATUS_OK
      \/ status (build_row tm agg r) = STATUS_VARIANCE
      \/ status (build_row tm agg r) = STATUS_UNRESOLVED).
Proof.
  split.
  - intros Hu. unfold build_row. rewrite Hu. cbn zeta. cbn [hours_tempo Team status].
    repeat split.
  - rewrite build_row_status.
    destruct (bool_decide _); [right; right; reflexivity|].
    destruct (PyFloat.gt _ _); [right; left; reflexivity | left; reflexivity].
Qed.

Lemma C3_unresolved_row_witness :
  hours_tempo (build_row ∅ ∅ Sample.rec_petrov) = Fin 0
  /\ Team (build_row ∅ ∅ Sample.rec_petrov) = OTHER
  /\ status (build_row ∅ ∅ Sample.rec_petrov) = STATUS_UNRESOLVED.
Proof. apply (C3_unresolved_row ∅ ∅ Sample.rec_petrov). reflexivity. Defined.

(** ** Identity resolution *)



(** ** Worklog batches *)

Section Chunks.
Context {A : Type}.
Implicit Types l : list A.

Lemma chunks_nil : chunks (@nil A) = [].
Proof. reflexivity. Qed.

(** The first batch holds the first 25 identifiers; the others are the
    batches of the rest. *)
Lemma chunks_unfold l :
  l <> [] -> chunks l = firstn 25 l :: chunks (skipn 25 l).
Proof.
  intros Hl. unfold chunks, range_step, range.
  assert (Hn : 0 < length l) by (destruct l; simpl; [done | lia]).
  rewrite length_skipn, !Nat.sub_0_r.
  replace ((length l + 25 - 1) / 25) with (S ((length l - 25 + 25 - 1) / 25)).
  2:{ destruct (le_lt_dec 25 (length l)) as [Hge|Hlt].
      - replace (length l + 25 - 1) with (length l - 25 + 25 - 1 + 1 * 25) by lia.
        rewrite Nat.div_add by lia. lia.
      - replace (length l - 25) with 0 by lia. simpl (0 + 25 - 1).
        rewrite (Nat.div_small 24 25) by lia.
        apply (Nat.div_unique _ 25 1 (length l - 1)); lia. }
  cbn [seq List.map]. f_equal.
  rewrite <- seq_shift, !map_map. apply map_ext. intros k.
  rewrite skipn_skipn. f_equal. f_equal. lia.
Qed.

Lemma chunks_ind (P : list A -> Prop) :
  P [] -> (forall l, l <> [] -> P (skipn 25 l) -> P l) -> forall l, P l.
Proof.
  intros Hnil Hstep l.
  remember (length l) as n eqn:Hn. revert l Hn.
  induction n as [n IH] using lt_wf_ind. intros l Hn.
  destruct l as [|a l]; [exact Hnil|].
  apply Hstep; [done|].
  apply (IH (length (skipn 25 (a :: l)))); [|done].
  rewrite length_skipn. subst n. simpl. lia.
Qed.

Lemma concat_chunks l : concat (chunks l) = l.
Proof.
  induction l as [|l Hl IH] using chunks_ind; [reflexivity|].
  rewrite chunks_unfold by done. simpl. rewrite IH. apply firstn_skipn.
Qed.

Lemma chunks_sizes l : Forall (fun c => 1 <= length c <= 25) (chunks l).
Proof.
  induction l as [|l Hl IH] using chunks_ind; [constructor|].
  rewrite chunks_unfold by done. constructor; [|exact IH].
  rewrite length_firstn. destruct l; [done|]. simpl length. lia.
Qed.

(** Every batch but the last is full. *)
Lemma chunks_full l i c :
  chunks l !! i = Some c -> S i < length (chunks l) -> length c = 25.
Proof.
  revert i. induction l as [|l Hl IH] using chunks_ind; intros i; [done|].
  rewrite chunks_unfold by done.
  destruct i as [|i]; simpl.
  - intros [= <-] Hlt. rewrite length_firstn.
    destruct (chunks (skipn 25 l)) as [|c' cs] eqn:Hc; [simpl in Hlt; lia|].
    assert (Hne : skipn 25 l <> []) by (intros E; rewrite E in Hc; discriminate).
    assert (0 < length (skipn 25 l)) by (destruct (skipn 25 l); simpl; [done|lia]).
    rewrite length_skipn in *. lia.
  - intros Hi Hlt. apply (IH i Hi). lia.
Qed.

Lemma length_chunks l : length (chunks l) = (length l + 24) / 25.
Proof.
  unfold chunks, range_step, range.
  rewrite !length_map, length_seq, Nat.sub_0_r. f_equal. lia.
Qed.

(** The sizes of the batches depend on the number of identifiers only. *)
Lemma chunks_lengths l :
  List.map (@length A) (chunks l)
  = List.map (fun i => Nat.min 25 (length l - i)) (range_step (length l) 25).
Proof.
  unfold chunks. rewrite map_map. apply map_ext. intros i.
  by rewrite length_firstn, length_skipn.
Qed.
End Chunks.

(** The loop over the batches sends every batch, in order, and collects
    what each answer holds. *)
Lemma fetch_chunks_spec up s e cs :
  fetch_chunks up s e cs
  = (concat (List.map (fun c => worklog_results (post_worklogs up (mkpayload s e c))) cs),
     List.map (mkpayload s e) cs).
Proof.
  unfold fetch_chunks.
  assert (Hgen : forall logs sent,
    fold_left
      (fun '(all_worklogs, sent) chunk_workers =>
         let p := mkpayload s e chunk_workers in
         (all_worklogs ++ worklog_results (post_worklogs up p), sent ++ [p]))
      cs (logs, sent)
    = (logs ++ concat (List.map (fun c => worklog_results (post_worklogs up (mkpayload s e c))) cs),
       sent ++ List.map (mkpayload s e) cs)).
  { induction cs as [|c cs IH]; intros logs sent; simpl.
    - by rewrite !app_nil_r.
    - rewrite IH. by rewrite <- !app_assoc. }
  apply Hgen.
Qed.

Lemma aggregate_total (logs : list worklog) (w : option pystr) :
  default 0%Z (aggregate logs !! w) = total_seconds w logs.
Proof.
  unfold aggregate.
  assert (Hgen : forall m : gmap (option pystr) Z,
    default 0%Z (fold_left
      (fun (tempo_agg : gmap (option pystr) Z) l =>
         <[ worker l := (default 0 (tempo_agg !! worker l)
                         + default 0 (timeSpentSeconds l))%Z ]> tempo_agg) logs m !! w)
    = (default 0 (m !! w) + total_seconds w logs)%Z).
  { induction logs as [|l logs IH]; intros m; simpl; [lia|].
    rewrite IH. destruct (decide (worker l = w)) as [->|Hne].
    - rewrite lookup_insert_eq. simpl. lia.
    - by rewrite lookup_insert_ne. }
  rewrite Hgen, lookup_empty. simpl. lia.
Qed.

Lemma total_seconds_app w l1 l2 :
  total_seconds w (l1 ++ l2) = (total_seconds w l1 + total_seconds w l2)%Z.
Proof.
  induction l1 as [|l l1 IH]; simpl; [lia|].
  destruct (decide _); lia.
Qed.

Lemma total_seconds_concat w (ls : list (list worklog)) :
  total_seconds w (concat ls)
  = foldr (fun l acc => (total_seconds w l + acc)%Z) 0%Z ls.
Proof.
  induction ls as [|l ls IH]; simpl; [done|].
  by rewrite total_seconds_app, IH.
Qed.

(** What the code reads from a raw answer: the ['results'] of an
    object or the entries of a bare list, when the status is 200. *)
Lemma worklog_results_raw (r : response worklog_body) :
  worklog_results r
  = match r with
    | Resp code (Some (BodyDict (Some results))) => if (code =? 200)%Z then results else []
    | Resp code (Some (BodyList entries)) => if (code =? 200)%Z then entries else []
    | _ => []
    end.
Proof.
  unfold worklog_results, ok_body.
  destruct r as [code [[[results|]|entries]|]|]; try reflexivity;
    by destruct (code =? 200)%Z.
Qed.

(** C5: the worklog fetch cuts the identifiers into consecutive batches
    of at most 25 (all but the last of exactly 25), sends one request per
    batch in order, so 60 identifiers give three requests of sizes 25, 25
    and 10; the entries gathered are those of the answers with status
    200, batch after batch, and the total of a worker is the sum of the
    seconds of its entries in these answers. *)
Theorem C5_worklog_batches up s e (worker_ids : list (option pystr)) :
  let '(logs, sent) := fetch_tempo_worklogs_for_users up s e worker_ids in
  let answered := fun p =>
    match post_worklogs up p with
    | Resp code (Some (BodyDict (Some results))) => if (code =? 200)%Z then results else []
    | Resp code (Some (BodyList entries)) => if (code =? 200)%Z then entries else []
    | _ => []
    end in
  List.map p_worker sent = chunks worker_ids
  /\ concat (List.map p_worker sent) = worker_ids
  /\ Forall (fun p => p_from p = s /\ p_to p = e /\ 1 <= length (p_worker p) <= 25) sent
  /\ (forall i p, sent !! i = Some p -> S i < length sent -> length (p_worker p) = 25)
  /\ (length worker_ids = 60 -> List.map (fun p => length (p_worker p)) sent = [25; 25; 10])
  /\ logs = concat (List.map answered sent)
  /\ (forall w, default 0%Z (aggregate logs !! w)
                = foldr (fun p acc => (total_seconds w (answered p) + acc)%Z) 0%Z sent).
Proof.
  unfold fetch_tempo_worklogs_for_users. rewrite fetch_chunks_spec. cbv zeta.
  assert (Hw : List.map p_worker (List.map (mkpayload s e) (chunks worker_ids))
               = chunks worker_ids).
  { rewrite map_map. simpl. apply map_id. }
  split; [exact Hw|]. split; [rewrite Hw; apply concat_chunks|]. split.
  { apply Forall_forall. intros p Hp. apply list_elem_of_In in Hp.
    apply in_map_iff in Hp as (c & <- & Hc). simpl.
    pose proof (chunks_sizes worker_ids) as Hs.
    rewrite Forall_forall in Hs. apply list_elem_of_In, Hs in Hc. auto. }
  split.
  { intros i p Hi Hlt. rewrite length_map in Hlt.
    rewrite list_lookup_fmap in Hi.
    destruct (chunks worker_ids !! i) as [c|] eqn:Hc; [|discriminate].
    injection Hi as <-. simpl. by apply (chunks_full worker_ids i c). }
  split.
  { intros Hlen. rewrite map_map. simpl.
    rewrite chunks_lengths, Hlen. reflexivity. }
  split.
  { rewrite !map_map. f_equal. apply map_ext. intros c. apply worklog_results_raw. }
  intros w. rewrite aggregate_total, total_seconds_concat.
  generalize (chunks worker_ids). intros cs.
  induction cs as [|c cs IH]; simpl; [done|].
  by rewrite IH, <- worklog_results_raw.
Qed.

(** 60 identifiers against a service that answers every batch with one
    entry of an hour for the same worker: three requests, three hours. *)
Lemma C5_worklog_batches_witness :
  List.map (fun p => length (p_worker p))
           (snd (fetch_tempo_worklogs_for_users (Sample.up_ok 3600) (mkdate 2024 1 1)
                   (mkdate 2024 1 31) (repeat None 60)))
  = [25; 25; 10]
  /\ default 0%Z
       (aggregate (fst (fetch_tempo_worklogs_for_users (Sample.up_ok 3600) (mkdate 2024 1 1)
                          (mkdate 2024 1 31) (repeat None 60)))
        !! Some (py "JIRAUSER1"))
     = 10800%Z.
Proof.
  pose proof (C5_worklog_batches (Sample.up_ok 3600) (mkdate 2024 1 1) (mkdate 2024 1 31)
                (repeat None 60)) as H.
  destruct (fetch_tempo_worklogs_for_users _ _ _ _) as [logs sent] eqn:E.
  cbv zeta in H. cbn [fst snd].
  destruct H as (_ & _ & _ & _ & H60 & _ & Htotal).
  split; [apply H60; reflexivity|].
  rewrite Htotal.
  assert (Hsent : sent = snd (fetch_tempo_worklogs_for_users (Sample.up_ok 3600)
                                (mkdate 2024 1 1) (mkdate 2024 1 31) (repeat None 60)))
    by (by rewrite E).
  rewrite Hsent. vm_compute. reflexivity.
Defined.

(** ** Absence codes *)

Lemma upper_cp_ya (c : N) : upper_cp c = 1071%N <-> c = 1071%N \/ c = 1103%N.
Proof.
  unfold upper_cp, in_range.
  repeat match goal with
         | |- context [(?a <=? ?b)%N] => destruct (N.leb_spec a b)
         end; simpl; lia.
Qed.

(** Only the letter itself, in either case, upper-cases to the marker. *)
Lemma upper_marker (s : pystr) : upper s = py "Я" <-> s = py "Я" \/ s = py "я".
Proof.
  change (py "Я") with [1071%N]. change (py "я") with [1103%N].
  destruct s as [|c [|d s]]; simpl.
  - split; [discriminate | intros [?|?]; discriminate].
  - split.
    + intros [= H]. apply upper_cp_ya in H as [->| ->]; auto.
    + intros [[= ->]|[= ->]]; reflexivity.
  - split; [discriminate | intros [?|?]; discriminate].
Qed.

Lemma absence_ok_spec (s : pystr) :
  absence_ok s = true
  <-> s <> [] /\ isdigit s = false /\ length s < 5 /\ s <> py "Я" /\ s <> py "я".
Proof.
  unfold absence_ok, eqb.
  rewrite !andb_true_iff, !negb_true_iff, !bool_decide_eq_false, Nat.ltb_lt, upper_marker.
  tauto.
Qed.

Lemma elem_of_collect_absence (df : df_raw) (r : nat) (acc : gset pystr) (ac : nat)
    (s : pystr) :
  s ∈ collect_absence df r acc ac
  <-> s ∈ acc \/ (notna (iloc df r ac) = true
                  /\ s = strip (cell_str (iloc df r ac)) /\ absence_ok s = true).
Proof.
  unfold collect_absence. cbn zeta.
  destruct (notna (iloc df r ac)) eqn:Hn.
  - destruct (absence_ok (strip (cell_str (iloc df r ac)))) eqn:Hok.
    + rewrite elem_of_union, elem_of_singleton. split.
      * intros [->|?]; auto.
      * intros [?|(_ & -> & _)]; auto.
    + split; [auto|]. intros [?|(_ & -> & Hok')]; [done|congruence].
  - split; [auto|]. intros [?|(? & _)]; [done|discriminate].
Qed.

Lemma elem_of_scan_row (df : df_raw) (r : nat) (cols : list nat) (acc : gset pystr)
    (s : pystr) :
  s ∈ fold_left (collect_absence df r) cols acc
  <-> s ∈ acc \/ exists ac, ac ∈ cols /\ notna (iloc df r ac) = true
                           /\ s = strip (cell_str (iloc df r ac)) /\ absence_ok s = true.
Proof.
  revert acc. induction cols as [|ac cols IH]; intros acc; simpl.
  - split; [auto|]. intros [?|(ac & Hac & _)]; [done|]. by apply elem_of_nil in Hac.
  - rewrite IH, elem_of_collect_absence. split.
    + intros [[?|H]|(ac' & Hac' & H)]; [auto| |].
      * right. exists ac. rewrite elem_of_cons. auto.
      * right. exists ac'. rewrite elem_of_cons. auto.
    + intros [?|(ac' & Hac' & H)]; [auto|].
      apply elem_of_cons in Hac' as [->|Hac']; [auto|].
      right. exists ac'. auto.
Qed.

Lemma elem_of_scan_absences (df : df_raw) (cols rows : list nat) (s : pystr) :
  s ∈ scan_absences df cols rows
  <-> exists r ac, r ∈ rows /\ ac ∈ cols /\ notna (iloc df r ac) = true
                   /\ s = strip (cell_str (iloc df r ac)) /\ absence_ok s = true.
Proof.
  unfold scan_absences.
  assert (Hgen : forall acc : gset pystr,
    s ∈ fold_left (fun absences r => fold_left (collect_absence df r) cols absences) rows acc
    <-> s ∈ acc \/ exists r ac, r ∈ rows /\ ac ∈ cols /\ notna (iloc df r ac) = true
                               /\ s = strip (cell_str (iloc df r ac)) /\ absence_ok s = true).
  { induction rows as [|r rows IH]; intros acc; simpl.
    - split; [auto|]. intros [?|(r & ac & Hr & _)]; [done|]. by apply elem_of_nil in Hr.
    - rewrite IH, elem_of_scan_row. split.
      + intros [[?|(ac & H)]|(r' & ac & Hr' & H)]; [auto| |].
        * right. exists r, ac. rewrite elem_of_cons. auto.
        * right. exists r', ac. rewrite elem_of_cons. auto.
      + intros [?|(r' & ac & Hr' & H)]; [auto|].
        apply elem_of_cons in Hr' as [->|Hr'].
        * left. right. exists ac. done.
        * right. exists r', ac. done. }
  rewrite Hgen. split; [|auto]. intros [H|H]; [|done]. set_solver.
Qed.

Lemma elem_of_block_rows df i r :
  r ∈ block_rows df i <-> exists offset, offset < 4 /\ i + offset < nrows df /\ r = i + offset.
Proof.
  unfold block_rows, range. rewrite list_elem_of_fmap. split.
  - intros (o & -> & Ho). apply elem_of_seq in Ho. exists o. lia.
  - intros (o & H4 & Hn & ->). exists o. split; [done|]. apply elem_of_seq. lia.
Qed.

Lemma elem_of_sorted_strings (X : gset pystr) (s : pystr) : s ∈ sorted_strings X <-> s ∈ X.
Proof. unfold sorted_strings. by rewrite elem_of_sort, elem_of_elements. Qed.

(** C6, as the code has it: the absence codes of a record are the
    stripped texts of the non-empty cells of the absence columns over the
    block of up to 4 rows that are non-blank, do not consist of digits
    only, are shorter than 5 characters and are not the attendance marker
    in either case; a number with a decimal point is still collected. *)
Theorem C6_absence_codes df name_col hours_col cols users i r :
  extract_row df name_col hours_col cols users i = Some r ->
  forall s : pystr,
    s ∈ absences r
    <-> exists offset ac,
          offset < 4 /\ i + offset < nrows df /\ ac ∈ cols
          /\ notna (iloc df (i + offset) ac) = true
          /\ s = strip (cell_str (iloc df (i + offset) ac))
          /\ s <> [] /\ isdigit s = false /\ length s < 5
          /\ s <> py "Я" /\ s <> py "я".
Proof.
  intros Hrow s.
  apply extract_row_Some in Hrow as (_ & _ & _ & Habs & _).
  rewrite Habs, elem_of_sorted_strings, elem_of_scan_absences. split.
  - intros (r' & ac & Hr' & Hac & Hn & Hs & Hok).
    apply elem_of_block_rows in Hr' as (o & H4 & Hlt & ->).
    apply absence_ok_spec in Hok. exists o, ac. tauto.
  - intros (o & ac & H4 & Hlt & Hac & Hn & Hs & Hok).
    exists (i + o), ac. rewrite elem_of_block_rows, absence_ok_spec.
    split; [exists o; auto|]. tauto.
Qed.

Lemma C6_absence_codes_witness :
  py "ОТ" ∈ absences Sample.rec_ivanov
  <-> exists offset ac,
        offset < 4 /\ 2 + offset < nrows Sample.sheet /\ ac ∈ [1]
        /\ notna (iloc Sample.sheet (2 + offset) ac) = true
        /\ py "ОТ" = strip (cell_str (iloc Sample.sheet (2 + offset) ac))
        /\ py "ОТ" <> [] /\ isdigit (py "ОТ") = false /\ length (py "ОТ") < 5
        /\ py "ОТ" <> py "Я" /\ py "ОТ" <> py "я".
Proof.
  apply (C6_absence_codes Sample.sheet 0 (Some 2) [1] Sample.cache_values 2).
  vm_compute. reflexivity.
Defined.

(** C6, as the specification states it, fails: the float 7.5 in a code column is
    numeric, the specification's filter rejects its text "7.5", and yet
    "7.5" is the absence code of the record. *)
Lemma C6_numeric_value_collected :
  List.map absences (parse_excel Sample.sheet_code_number Sample.cache_values 0 0)
  = [[py "7.5"]]
  /\ py "7.5" = strip (cell_str (iloc Sample.sheet_code_number 1 1))
  /\ numeric_text (py "7.5") = true
  /\ spec_absence_ok (py "7.5") = false
  /\ ~ (forall df cols rows (s : pystr),
          s ∈ scan_absences df cols rows ->
          exists r ac, r ∈ rows /\ ac ∈ cols
                       /\ s = strip (cell_str (iloc df r ac)) /\ spec_absence_ok s = true).
Proof.
  split; [vm_compute; reflexivity|].
  split; [vm_compute; reflexivity|].
  split; [vm_compute; reflexivity|].
  split; [vm_compute; reflexivity|].
  intros H.
  destruct (H Sample.sheet_code_number [1] [1] (py "7.5")) as (r & ac & _ & _ & _ & Hok).
  - apply elem_of_scan_absences. exists 1, 1.
    rewrite !list_elem_of_singleton. repeat split; vm_compute; reflexivity.
  - vm_compute in Hok. discriminate.
Qed.


(** ** Header detection *)

Lemma row_length_le_ncols (df : df_raw) (r : nat) : length (nth r df []) <= ncols df.
Proof.
  revert r. induction df as [|row df IH]; intros [|r]; simpl; try lia.
  specialize (IH r). lia.
Qed.

(** Outside the frame there is nothing to read. *)
Lemma iloc_outside (df : df_raw) (r c : nat) :
  nrows df <= r \/ ncols df <= c -> iloc df r c = CNaN.
Proof.
  unfold iloc, nrows. intros [Hr|Hc].
  - rewrite (nth_overflow df) by done. by destruct c.
  - apply nth_overflow. pose proof (row_length_le_ncols df r). lia.
Qed.

Lemma surname_outside (df : df_raw) (r c : nat) :
  nrows df <= r \/ ncols df <= c -> is_surname_cell (iloc df r c) = false.
Proof. intros H. rewrite iloc_outside by done. vm_compute. reflexivity. Qed.

(** [List.find] over [0 .. n-1] returns the least index that passes. *)
Lemma find_seq_Some (f : nat -> bool) (a n c : nat) :
  List.find f (seq a n) = Some c ->
  a <= c < a + n /\ f c = true /\ forall c', a <= c' < c -> f c' = false.
Proof.
  revert a. induction n as [|n IH]; intros a; simpl; [discriminate|].
  destruct (f a) eqn:Hfa.
  - intros [= <-]. repeat split; [lia | lia | done | intros; lia].
  - intros H. apply IH in H as (Hc & Hf & Hmin).
    repeat split; [lia | lia | done |].
    intros c' Hc'. destruct (decide (c' = a)) as [->|]; [done|]. apply Hmin. lia.
Qed.

Lemma find_seq_None (f : nat -> bool) (a n : nat) :
  List.find f (seq a n) = None <-> forall c, a <= c < a + n -> f c = false.
Proof.
  split.
  - intros H c Hc. apply (find_none _ _ H). apply in_seq. lia.
  - intros H. destruct (List.find f (seq a n)) as [c|] eqn:E; [|done].
    apply find_seq_Some in E as (Hc & Hf & _). rewrite H in Hf by done. discriminate.
Qed.

Lemma find_header_from_Some (df : df_raw) (a n r c : nat) :
  find_header_from df (seq a n) = Some (r, c) ->
  a <= r < a + n /\ c < ncols df /\ is_surname_cell (iloc df r c) = true
  /\ (forall c', c' < c -> is_surname_cell (iloc df r c') = false)
  /\ (forall r' c', a <= r' < r -> c' < ncols df -> is_surname_cell (iloc df r' c') = false).
Proof.
  revert a. induction n as [|n IH]; intros a; simpl; [discriminate|].
  unfold range. rewrite Nat.sub_0_r.
  destruct (List.find _ (seq 0 (ncols df))) as [c0|] eqn:E.
  - intros [= <- <-]. apply find_seq_Some in E as (Hc & Hf & Hmin).
    repeat split; [lia | lia | lia | done | intros; apply Hmin; lia | intros; lia].
  - intros H. apply IH in H as (Hr & Hc & Hf & Hrow & Hbefore).
    repeat split; [lia | lia | done | done | done |].
    intros r' c' Hr' Hc'. destruct (decide (r' = a)) as [->|].
    + rewrite find_seq_None in E. apply E. lia.
    + apply Hbefore; lia.
Qed.

Lemma find_header_from_None (df : df_raw) (a n : nat) :
  find_header_from df (seq a n) = None
  <-> forall r c, a <= r < a + n -> c < ncols df -> is_surname_cell (iloc df r c) = false.
Proof.
  revert a. induction n as [|n IH]; intros a; simpl.
  - split; [intros _ r c Hr; lia | done].
  - unfold range. rewrite Nat.sub_0_r.
    destruct (List.find _ (seq 0 (ncols df))) as [c0|] eqn:E.
    + split; [discriminate|]. intros H.
      apply find_seq_Some in E as (Hc & Hf & _). rewrite H in Hf by lia. discriminate.
    + rewrite IH. rewrite find_seq_None in E. split.
      * intros H r c Hr Hc. destruct (decide (r = a)) as [->|]; [apply E; lia|].
        apply H; lia.
      * intros H r c Hr Hc. apply H; lia.
Qed.

Lemma find_header_None (df : df_raw) :
  find_header df = None <-> forall r c, is_surname_cell (iloc df r c) = false.
Proof.
  unfold find_header, range. rewrite Nat.sub_0_r, find_header_from_None. split.
  - intros H r c.
    destruct (le_lt_dec (nrows df) r); [apply surname_outside; auto|].
    destruct (le_lt_dec (ncols df) c); [apply surname_outside; auto|].
    apply H; lia.
  - intros H r c _ _. apply H.
Qed.

Lemma find_header_Some (df : df_raw) (r c : nat) :
  find_header df = Some (r, c) ->
  r < nrows df /\ c < ncols df /\ is_surname_cell (iloc df r c) = true
  /\ forall r' c', r' < r \/ (r' = r /\ c' < c) -> is_surname_cell (iloc df r' c') = false.
Proof.
  unfold find_header, range. rewrite Nat.sub_0_r. intros H.
  apply find_header_from_Some in H as (Hr & Hc & Hf & Hrow & Hbefore).
  repeat split; [lia | done | done |].
  intros r' c' [Hlt|[-> Hlt]]; [|by apply Hrow].
  destruct (le_lt_dec (ncols df) c'); [apply surname_outside; auto|].
  apply Hbefore; lia.
Qed.

(** C7: when no cell of the sheet has a text starting with "фамилия"
    (case-insensitive), the run stops with a status message and hands
    over no report; otherwise the first such cell in row-major order
    gives the header row and the name column the run works with. *)
Theorem C7_header_detection (df : df_raw) :
  (find_header df = None <-> forall r c, is_surname_cell (iloc df r c) = false)
  /\ (find_header df = None ->
      forall cache up,
        worker_process_file df cache up
        = Aborted (match extract_period_from_excel (head 20 df) with
                   | Some _ => MSG_NO_HEADER
                   | None => MSG_NO_PERIOD
                   end))
  /\ (forall r c,
        find_header df = Some (r, c) ->
        r < nrows df /\ c < ncols df
        /\ is_surname_cell (iloc df r c) = true
        /\ (forall r' c', r' < r \/ (r' = r /\ c' < c) ->
                          is_surname_cell (iloc df r' c') = false)
        /\ (forall cache up s e rows,
              worker_process_file df cache up = Reported s e rows ->
              rows = sort_rows (build_rows up s e (parse_excel df cache r c)))).
Proof.
  split; [apply find_header_None|]. split.
  - intros Hnone cache up. unfold worker_process_file. rewrite Hnone.
    by destruct (extract_period_from_excel _) as [[s e]|].
  - intros r c Hsome.
    destruct (find_header_Some df r c Hsome) as (Hr & Hc & Hf & Hfirst).
    repeat split; try done.
    intros cache up s e rows. unfold worker_process_file. rewrite Hsome.
    destruct (extract_period_from_excel _) as [[s' e']|]; [|discriminate].
    destruct (build_rows up s' e' _) as [|row rows'] eqn:Hb; [discriminate|].
    intros [= <- <- <-]. by rewrite Hb.
Qed.

Lemma C7_header_detection_witness :
  worker_process_file Sample.sheet_no_header Sample.cache_values Sample.up_down
  = Aborted MSG_NO_HEADER
  /\ is_surname_cell (iloc Sample.sheet 1 0) = true
  /\ forall r' c', r' < 1 \/ (r' = 1 /\ c' < 0) ->
                   is_surname_cell (iloc Sample.sheet r' c') = false.
Proof.
  split.
  - destruct (C7_header_detection Sample.sheet_no_header) as (_ & Hnone & _).
    rewrite Hnone by (vm_compute; reflexivity).
    vm_compute. reflexivity.
  - destruct (C7_header_detection Sample.sheet) as (_ & _ & Hsome).
    destruct (Hsome 1 0) as (_ & _ & Hf & Hfirst & _); [vm_compute; reflexivity|].
    split; [exact Hf | exact Hfirst].
Defined.

(** ** Upstream failures *)

Lemma ok_body_failed {A : Type} (r : response A) :
  ok_body r = None
  <-> r = TransportError \/ exists code body, r = Resp code body
                                           /\ (code <> 200%Z \/ body = None).
Proof.
  destruct r as [code body|]; simpl.
  - destruct (Z.eqb_spec code 200) as [->|Hne].
    + split.
      * intros ->. right. exists 200%Z, None. auto.
      * intros [?|(c & b & [= <- <-] & [?|?])]; done.
    + split; [|done]. intros _. right. exists code, body. auto.
  - split; auto.
Qed.

Lemma assign_members_nil (s e : date) (name : pystr) (m : gmap pystr pystr) :
  assign_members s e name [] m = m.
Proof. reflexivity. Qed.









(** ** Reporting period *)

Lemma date_ltb_lt (a b : date) :
  date_ltb a b = true
  <-> (year a < year b
       \/ (year a = year b
           /\ (month a < month b \/ (month a = month b /\ day a < day b))))%N.
Proof.
  unfold date_ltb.
  rewrite !orb_true_iff, !andb_true_iff, !orb_true_iff, !andb_true_iff,
    !N.ltb_lt, !N.eqb_eq.
  tauto.
Qed.

Lemma date_leb_le (a b : date) :
  date_leb a b = true
  <-> (year a < year b
       \/ (year a = year b
           /\ (month a < month b \/ (month a = month b /\ day a <= day b))))%N.
Proof.
  unfold date_leb. rewrite negb_true_iff, <- not_true_iff_false, date_ltb_lt. lia.
Qed.

Lemma date_leb_refl (a : date) : date_leb a a = true.
Proof. apply date_leb_le. lia. Qed.

Lemma date_leb_trans (a b c : date) :
  date_leb a b = true -> date_leb b c = true -> date_leb a c = true.
Proof. rewrite !date_leb_le. lia. Qed.

Lemma date_ltb_leb (a b : date) : date_ltb a b = true -> date_leb a b = true.
Proof. rewrite date_ltb_lt, date_leb_le. lia. Qed.

Lemma date_ltb_false_leb (a b : date) : date_ltb a b = false -> date_leb b a = true.
Proof. unfold date_leb. by intros ->. Qed.

Lemma min_date_spec (d : date) (l : list date) :
  min_date d l ∈ d :: l /\ forall x, x ∈ d :: l -> date_leb (min_date d l) x = true.
Proof.
  unfold min_date. revert d. induction l as [|b l IH]; intros d; simpl.
  - split; [apply elem_of_cons; auto|].
    intros x Hx. apply list_elem_of_singleton in Hx as ->. apply date_leb_refl.
  - destruct (IH (if date_ltb b d then b else d)) as [Hin Hle]. split.
    + apply elem_of_cons in Hin as [->|Hin].
      * destruct (date_ltb b d); rewrite !elem_of_cons; auto.
      * rewrite !elem_of_cons; auto.
    + intros x Hx.
      assert (Hd : date_leb (if date_ltb b d then b else d) d = true
                   /\ date_leb (if date_ltb b d then b else d) b = true).
      { destruct (date_ltb b d) eqn:E.
        - split; [by apply date_ltb_leb | apply date_leb_refl].
        - split; [apply date_leb_refl | by apply date_ltb_false_leb]. }
      destruct Hd as [Hd Hb].
      pose proof (Hle _ (proj2 (elem_of_cons _ _ _) (or_introl eq_refl))) as Hm.
      rewrite !elem_of_cons in Hx. destruct Hx as [->|[->|Hx]].
      * by apply (date_leb_trans _ _ _ Hm).
      * by apply (date_leb_trans _ _ _ Hm).
      * apply Hle. rewrite elem_of_cons. auto.
Qed.

Lemma max_date_spec (d : date) (l : list date) :
  max_date d l ∈ d :: l /\ forall x, x ∈ d :: l -> date_leb x (max_date d l) = true.
Proof.
  unfold max_date. revert d. induction l as [|b l IH]; intros d; simpl.
  - split; [apply elem_of_cons; auto|].
    intros x Hx. apply list_elem_of_singleton in Hx as ->. apply date_leb_refl.
  - destruct (IH (if date_ltb d b then b else d)) as [Hin Hle]. split.
    + apply elem_of_cons in Hin as [->|Hin].
      * destruct (date_ltb d b); rewrite !elem_of_cons; auto.
      * rewrite !elem_of_cons; auto.
    + intros x Hx.
      assert (Hd : date_leb d (if date_ltb d b then b else d) = true
                   /\ date_leb b (if date_ltb d b then b else d) = true).
      { destruct (date_ltb d b) eqn:E.
        - split; [by apply date_ltb_leb | apply date_leb_refl].
        - split; [apply date_leb_refl | by apply date_ltb_false_leb]. }
      destruct Hd as [Hd Hb].
      pose proof (Hle _ (proj2 (elem_of_cons _ _ _) (or_introl eq_refl))) as Hm.
      rewrite !elem_of_cons in Hx. destruct Hx as [->|[->|Hx]].
      * by apply (date_leb_trans _ _ _ Hd).
      * by apply (date_leb_trans _ _ _ Hb).
      * apply Hle. rewrite elem_of_cons. auto.
Qed.

Lemma elem_of_period_dates (rows : df_raw) (d : date) :
  d ∈ flat_map row_dates rows
  <-> exists row val m, row ∈ rows /\ val ∈ row /\ m ∈ findall_dates (cell_str val)
                        /\ strptime_dmy m = Some d.
Proof.
  rewrite list_elem_of_In, in_flat_map. unfold row_dates. split.
  - intros (row & Hrow & Hd). apply list_elem_of_In, list_elem_of_omap in Hd as (m & Hm & Hp).
    apply list_elem_of_In, in_flat_map in Hm as (val & Hval & Hm).
    exists row, val, m. rewrite !list_elem_of_In. auto.
  - intros (row & val & m & Hrow & Hval & Hm & Hp).
    exists row. split; [by apply list_elem_of_In|].
    apply list_elem_of_In, list_elem_of_omap. exists m. split; [|done].
    apply list_elem_of_In, in_flat_map. exists val. rewrite <- !list_elem_of_In. auto.
Qed.



(** ** The hours column at index 0 *)

Lemma scan_hours_skipped (df : df_raw) (hours_col : option nat) (rows : list nat) :
  hours_col = None \/ hours_col = Some 0 -> scan_hours df hours_col rows = Fin 0.
Proof. by intros [-> | ->]. Qed.

Lemma sorted_strings_nil (X : gset pystr) : sorted_strings X = [] -> X = ∅.
Proof.
  intros H. apply (f_equal (@length _)) in H.
  unfold sorted_strings in H. rewrite length_sort in H.
  apply leibniz_equiv, elements_empty_inv. by destruct (elements X).
Qed.

(** C10: when the hours column found is column 0, or none is found, the
    hours are never read: every record has hours 0, every record has at
    least one absence code, and a row whose block has no absence code
    yields no record. *)
Theorem C10_hours_col_zero (df : df_raw) (cache : list user) (h n : nat) :
  find_hours_col df = None \/ find_hours_col df = Some 0 ->
  (forall rows, scan_hours df (find_hours_col df) rows = Fin 0)
  /\ (forall r, r ∈ parse_excel df cache h n ->
                hours_1c r = Fin 0 /\ absences r <> [])
  /\ (forall i,
        scan_absences df (find_absence_cols df h n) (block_rows df i) = ∅ ->
        extract_row df n (find_hours_col df) (find_absence_cols df h n)
                    (unique_users cache) i = None).
Proof.
  intros Hcol. split; [intros rows; by apply scan_hours_skipped|]. split.
  - intros r Hr. apply elem_of_extract_records in Hr as (i & _ & Hrow).
    apply extract_row_Some in Hrow as (_ & _ & Hh & Habs & _ & Hemit).
    rewrite scan_hours_skipped in Hh by done. split; [done|].
    destruct Hemit as [Hgt|Hne]; [by rewrite Hh in Hgt|].
    rewrite Habs. intros Hnil. by apply sorted_strings_nil in Hnil.
  - intros i Hempty. unfold extract_row.
    destruct (skip_name _); [done|].
    rewrite scan_hours_skipped by done. rewrite Hempty.
    by rewrite bool_decide_eq_true_2.
Qed.

Lemma C10_hours_col_zero_witness :
  find_hours_col Sample.sheet_hours0 = Some 0
  /\ (forall r, r ∈ parse_excel Sample.sheet_hours0 Sample.cache_values 1 1 ->
                hours_1c r = Fin 0 /\ absences r <> [])
  /\ extract_row Sample.sheet_hours0 1 (find_hours_col Sample.sheet_hours0)
                 (find_absence_cols Sample.sheet_hours0 1 1)
                 (unique_users Sample.cache_values) 3 = None.
Proof.
  assert (Hcol : find_hours_col Sample.sheet_hours0 = Some 0) by (vm_compute; reflexivity).
  destruct (C10_hours_col_zero Sample.sheet_hours0 Sample.cache_values 1 1 (or_intror Hcol))
    as (_ & Hrec & Hskip).
  split; [exact Hcol|]. split; [exact Hrec|].
  apply Hskip. vm_compute. reflexivity.
Defined.

(** With the hours column at any other index the same row is emitted
    with its hours. *)
Example hours_col_nonzero :
  List.map (fun r => (name_1c r, hours_1c r))
    (parse_excel Sample.sheet Sample.cache_values 1 0)
  = [(py "Иванов Иван", Fin 160); (py "Петров П.П.", Fin (305 # 2))]
  /\ List.map name_1c (parse_excel Sample.sheet_hours0 Sample.cache_values 1 1)
     = [py "Петров Пётр"].
Proof. vm_compute. auto. Qed.

(** ** Dates *)

Example strptime_examples :
  List.map (fun s => strptime FMT_ISO (py s))
           ["2024-1-5"; "2024-01- 5"; "2024-13-01"; "2024-10"; "2024-01-123";
            "0000-01-01"; "2024-02-30"; "02024-01-01"; "2024-01-01 "; "2024-012-5"]%string
  = [Some (mkdate 2024 1 5); Some (mkdate 2024 1 5); None; None; None;
     None; None; None; None; None]
  /\ List.map (fun s => strptime FMT_DOT (py s))
              ["1.2.2024"; " 1.2.2024"; "31.04.2024"; "1.02.20245"]%string
     = [Some (mkdate 2024 2 1); Some (mkdate 2024 2 1); None; None].
Proof. vm_compute. auto. Qed.

Example parse_tempo_date_examples :
  List.map (fun s => parse_tempo_date (Some (py s)))
           ["2024-01-31T00:00:00.000"; " 2024/02/29 "; "31.01.2024"; "01/Oct/2024";
            "31.01.2024-"; "20240131"; ""]%string
  = [Some (mkdate 2024 1 31); Some (mkdate 2024 2 29); Some (mkdate 2024 1 31); None;
     None; None; None].
Proof. vm_compute. auto. Qed.

Lemma is_digit_cases (c : N) :
  is_digit c = true ->
  c = 48%N \/ c = 49%N \/ c = 50%N \/ c = 51%N \/ c = 52%N \/ c = 53%N \/ c = 54%N
  \/ c = 55%N \/ c = 56%N \/ c = 57%N.
Proof.
  unfold is_digit, in_range. rewrite andb_true_iff, !N.leb_le. lia.
Qed.

Ltac digit_cases H :=
  apply is_digit_cases in H;
  destruct H as [->|[->|[->|[->|[->|[->|[->|[->|[->| ->]]]]]]]]].

Lemma run_field_lit (f : ymd -> N -> ymd) (c : N) (fmt : list directive) (v : ymd)
    (cands : list (N * pystr)) :
  flat_map (fun '(n, r) => run (DLit c :: fmt) (f v n) r) cands
  = flat_map (fun '(n, r) => run fmt (f v n) r) (then_lit c cands).
Proof.
  unfold then_lit. induction cands as [|[n r] cands IH]; [reflexivity|].
  cbn [flat_map]. rewrite flat_map_app, <- IH. f_equal.
  destruct r as [|x r']; [reflexivity|]. cbn [run].
  destruct (x =? c)%N; [|reflexivity]. cbn [flat_map]. by rewrite app_nil_r.
Qed.

(** A two-digit day followed by a point: the value, when it is 1 to 31. *)
Lemma day_then_dot (d1 d2 : N) (rest : pystr) :
  is_digit d1 = true -> is_digit d2 = true ->
  then_lit 46 (field_d (d1 :: d2 :: 46%N :: rest))
  = if ((1 <=? int_of_digits [d1; d2]) && (int_of_digits [d1; d2] <=? 31))%N
    then [(int_of_digits [d1; d2], rest)] else [].
Proof.
  intros H1 H2. digit_cases H1; digit_cases H2; vm_compute; reflexivity.
Qed.

(** A two-digit month followed by a point: the value, when it is 1 to 12. *)
Lemma month_then_dot (m1 m2 : N) (rest : pystr) :
  is_digit m1 = true -> is_digit m2 = true ->
  then_lit 46 (field_m (m1 :: m2 :: 46%N :: rest))
  = if ((1 <=? int_of_digits [m1; m2]) && (int_of_digits [m1; m2] <=? 12))%N
    then [(int_of_digits [m1; m2], rest)] else [].
Proof.
  intros H1 H2. digit_cases H1; digit_cases H2; vm_compute; reflexivity.
Qed.

Lemma run_day_dot (d1 d2 : N) (fmt : list directive) (v : ymd) (rest : pystr) :
  is_digit d1 = true -> is_digit d2 = true ->
  run (Dd :: DLit 46 :: fmt) v (d1 :: d2 :: 46%N :: rest)
  = let n := int_of_digits [d1; d2] in
    if ((1 <=? n) && (n <=? 31))%N then run fmt (mkymd (f_Y v) (f_m v) n) rest else [].
Proof.
  intros H1 H2.
  change (run (Dd :: DLit 46 :: fmt) v (d1 :: d2 :: 46%N :: rest))
    with (flat_map (fun '(n, r) => run (DLit 46 :: fmt) (mkymd (f_Y v) (f_m v) n) r)
                   (field_d (d1 :: d2 :: 46%N :: rest))).
  rewrite (run_field_lit (fun v n => mkymd (f_Y v) (f_m v) n)).
  rewrite day_then_dot by done. cbv zeta.
  destruct (_ && _); [|reflexivity]. cbn [flat_map]. apply app_nil_r.
Qed.

Lemma run_month_dot (m1 m2 : N) (fmt : list directive) (v : ymd) (rest : pystr) :
  is_digit m1 = true -> is_digit m2 = true ->
  run (Dm :: DLit 46 :: fmt) v (m1 :: m2 :: 46%N :: rest)
  = let n := int_of_digits [m1; m2] in
    if ((1 <=? n) && (n <=? 12))%N then run fmt (mkymd (f_Y v) n (f_d v)) rest else [].
Proof.
  intros H1 H2.
  change (run (Dm :: DLit 46 :: fmt) v (m1 :: m2 :: 46%N :: rest))
    with (flat_map (fun '(n, r) => run (DLit 46 :: fmt) (mkymd (f_Y v) n (f_d v)) r)
                   (field_m (m1 :: m2 :: 46%N :: rest))).
  rewrite (run_field_lit (fun v n => mkymd (f_Y v) n (f_d v))).
  rewrite month_then_dot by done. cbv zeta.
  destruct (_ && _); [|reflexivity]. cbn [flat_map]. apply app_nil_r.
Qed.

Lemma run_year_end (y1 y2 y3 y4 : N) (v : ymd) :
  is_digit y1 = true -> is_digit y2 = true -> is_digit y3 = true -> is_digit y4 = true ->
  run [DY] v [y1; y2; y3; y4] = [(mkymd (int_of_digits [y1; y2; y3; y4]) (f_m v) (f_d v), [])].
Proof. intros H1 H2 H3 H4. cbn [run field_Y flat_map]. by rewrite H1, H2, H3, H4. Qed.

Lemma days_in_month_le_31 (y m : N) : (days_in_month y m <= 31)%N.
Proof.
  unfold days_in_month.
  destruct (m =? 2)%N; [destruct (is_leap y); lia|].
  destruct (_ || _); lia.
Qed.

(** On a text of the shape dd.mm.yyyy the format [%d.%m.%Y] reads what
    the period extractor reads. *)
Lemma strptime_dot_shape (d1 d2 m1 m2 y1 y2 y3 y4 : N) :
  is_digit d1 = true -> is_digit d2 = true -> is_digit m1 = true -> is_digit m2 = true ->
  is_digit y1 = true -> is_digit y2 = true -> is_digit y3 = true -> is_digit y4 = true ->
  strptime FMT_DOT [d1; d2; 46%N; m1; m2; 46%N; y1; y2; y3; y4]
  = strptime_dmy [d1; d2; 46%N; m1; m2; 46%N; y1; y2; y3; y4].
Proof.
  intros Hd1 Hd2 Hm1 Hm2 Hy1 Hy2 Hy3 Hy4.
  unfold strptime, FMT_DOT, strptime_dmy.
  rewrite run_day_dot by done. cbv zeta.
  set (d := int_of_digits [d1; d2]). set (m := int_of_digits [m1; m2]).
  set (y := int_of_digits [y1; y2; y3; y4]).
  pose proof (days_in_month_le_31 y m) as Hdim.
  destruct ((1 <=? d) && (d <=? 31))%N eqn:Hd.
  - rewrite run_month_dot by done. cbv zeta. fold m.
    destruct ((1 <=? m) && (m <=? 12))%N eqn:Hm.
    + rewrite run_year_end by done. fold y. unfold make_date. cbn [f_Y f_m f_d].
      reflexivity.
    + symmetry. apply andb_false_iff in Hm.
      destruct (1 <=? y)%N; [|reflexivity]. cbn [andb].
      destruct Hm as [-> | ->]; [reflexivity|].
      by rewrite andb_false_r.
  - symmetry. apply andb_false_iff in Hd.
    destruct (1 <=? y)%N; [|reflexivity].
    destruct (1 <=? m)%N; [|reflexivity].
    destruct (m <=? 12)%N; [|reflexivity]. cbn [andb].
    destruct Hd as [-> | Hd]; [reflexivity|].
    replace (d <=? days_in_month y m)%N with false; [by rewrite andb_false_r|].
    symmetry. apply N.leb_gt. apply N.leb_gt in Hd. lia.
Qed.

Lemma date_at_shape (s : pystr) :
  date_at s = true ->
  exists d1 d2 m1 m2 y1 y2 y3 y4,
    firstn 10 s = [d1; d2; 46%N; m1; m2; 46%N; y1; y2; y3; y4]
    /\ is_digit d1 = true /\ is_digit d2 = true /\ is_digit m1 = true
    /\ is_digit m2 = true /\ is_digit y1 = true /\ is_digit y2 = true
    /\ is_digit y3 = true /\ is_digit y4 = true.
Proof.
  unfold date_at.
  destruct s as [|d1 [|d2 [|p1 [|m1 [|m2 [|p2 [|y1 [|y2 [|y3 [|y4 s]]]]]]]]]];
    try discriminate.
  rewrite !andb_true_iff, !N.eqb_eq.
  intros (((((((((H1 & H2) & ->) & H3) & H4) & ->) & H5) & H6) & H7) & H8).
  exists d1, d2, m1, m2, y1, y2, y3, y4. simpl. repeat split; done.
Qed.

Lemma findall_go_shape (s : pystr) (skip : nat) (m : pystr) :
  m ∈ findall_go s skip -> exists s', date_at s' = true /\ m = firstn 10 s'.
Proof.
  revert skip. induction s as [|c s IH]; intros skip; cbn [findall_go].
  - intros H. by apply elem_of_nil in H.
  - destruct skip as [|k]; [|apply IH].
    destruct (date_at (c :: s)) eqn:Hat; [|apply IH].
    rewrite elem_of_cons. intros [->|H]; [|by apply IH in H].
    exists (c :: s). done.
Qed.

(** The general parser and the period extractor agree on every match of
    the date pattern. *)
Theorem strptime_agrees_on_matches (s m : pystr) :
  m ∈ findall_dates s -> strptime FMT_DOT m = strptime_dmy m.
Proof.
  intros Hm. apply findall_go_shape in Hm as (s' & Hat & ->).
  apply date_at_shape in Hat
    as (d1 & d2 & m1 & m2 & y1 & y2 & y3 & y4 & -> & H1 & H2 & H3 & H4 & H5 & H6 & H7 & H8).
  by apply strptime_dot_shape.
Qed.

Lemma strptime_agrees_on_matches_witness :
  strptime FMT_DOT (py "29.02.2024") = strptime_dmy (py "29.02.2024").
Proof.
  apply (strptime_agrees_on_matches (py "c 29.02.2024 по 31.03.2024")).
  vm_compute. apply elem_of_cons. by left.
Defined.

(** *** The ISO round trip *)

Lemma pad4_shape (y : N) :
  (y <= 9999)%N ->
  exists a b c e,
    pad 4 y = [a; b; c; e]
    /\ is_digit a = true /\ is_digit b = true /\ is_digit c = true /\ is_digit e = true
    /\ int_of_digits [a; b; c; e] = y.
Proof.
  intros Hy.
  assert (H : forallb
                (fun n => match pad 4 n with
                          | [a; b; c; e] =>
                              is_digit a && is_digit b && is_digit c && is_digit e
                              && (int_of_digits [a; b; c; e] =? n)%N
                          | _ => false
                          end)
                (List.map N.of_nat (seq 0 (100 * 100))) = true) by (vm_compute; reflexivity).
  rewrite forallb_forall in H. specialize (H y).
  assert (Hin : In y (List.map N.of_nat (seq 0 (100 * 100)))).
  { apply in_map_iff. exists (N.to_nat y). split; [lia|]. apply in_seq. lia. }
  apply H in Hin.
  destruct (pad 4 y) as [|a [|b [|c [|e [|? ?]]]]]; try discriminate Hin.
  rewrite !andb_true_iff, N.eqb_eq in Hin.
  destruct Hin as ((((Ha & Hb) & Hc) & He) & Hv).
  exists a, b, c, e. auto 10.
Qed.

Lemma pad2_shape (n : N) :
  (n <= 99)%N ->
  exists a b, pad 2 n = [a; b] /\ is_digit a = true /\ is_digit b = true
              /\ int_of_digits [a; b] = n.
Proof.
  intros Hn.
  assert (H : forallb
                (fun n => match pad 2 n with
                          | [a; b] => is_digit a && is_digit b
                                      && (int_of_digits [a; b] =? n)%N
                          | _ => false
                          end)
                (List.map N.of_nat (seq 0 100)) = true) by (vm_compute; reflexivity).
  rewrite forallb_forall in H. specialize (H n).
  assert (Hin : In n (List.map N.of_nat (seq 0 100))).
  { apply in_map_iff. exists (N.to_nat n). split; [lia|]. apply in_seq. lia. }
  apply H in Hin.
  destruct (pad 2 n) as [|a [|b [|? ?]]]; try discriminate Hin.
  rewrite !andb_true_iff, N.eqb_eq in Hin. destruct Hin as ((Ha & Hb) & Hv).
  exists a, b. auto.
Qed.

Lemma month_then_dash (m1 m2 : N) (rest : pystr) :
  is_digit m1 = true -> is_digit m2 = true ->
  then_lit 45 (field_m (m1 :: m2 :: 45%N :: rest))
  = if ((1 <=? int_of_digits [m1; m2]) && (int_of_digits [m1; m2] <=? 12))%N
    then [(int_of_digits [m1; m2], rest)] else [].
Proof.
  intros H1 H2. digit_cases H1; digit_cases H2; vm_compute; reflexivity.
Qed.

Lemma day_at_end (d1 d2 : N) :
  is_digit d1 = true -> is_digit d2 = true ->
  ((1 <=? int_of_digits [d1; d2]) && (int_of_digits [d1; d2] <=? 31))%N = true ->
  exists tl, field_d [d1; d2] = (int_of_digits [d1; d2], []) :: tl.
Proof.
  intros H1 H2. digit_cases H1; digit_cases H2; vm_compute; intros H;
    first [discriminate H | eexists; reflexivity].
Qed.

Lemma run_year_lit (a b c e l : N) (fmt : list directive) (v : ymd) (rest : pystr) :
  is_digit a = true -> is_digit b = true -> is_digit c = true -> is_digit e = true ->
  run (DY :: DLit l :: fmt) v (a :: b :: c :: e :: l :: rest)
  = run fmt (mkymd (int_of_digits [a; b; c; e]) (f_m v) (f_d v)) rest.
Proof.
  intros Ha Hb Hc He. cbn [run field_Y]. rewrite Ha, Hb, Hc, He.
  cbn [andb flat_map]. by rewrite N.eqb_refl, app_nil_r.
Qed.

Lemma run_month_dash (m1 m2 : N) (fmt : list directive) (v : ymd) (rest : pystr) :
  is_digit m1 = true -> is_digit m2 = true ->
  run (Dm :: DLit 45 :: fmt) v (m1 :: m2 :: 45%N :: rest)
  = let n := int_of_digits [m1; m2] in
    if ((1 <=? n) && (n <=? 12))%N then run fmt (mkymd (f_Y v) n (f_d v)) rest else [].
Proof.
  intros H1 H2.
  change (run (Dm :: DLit 45 :: fmt) v (m1 :: m2 :: 45%N :: rest))
    with (flat_map (fun '(n, r) => run (DLit 45 :: fmt) (mkymd (f_Y v) n (f_d v)) r)
                   (field_m (m1 :: m2 :: 45%N :: rest))).
  rewrite (run_field_lit (fun v n => mkymd (f_Y v) n (f_d v))).
  rewrite month_then_dash by done. cbv zeta.
  destruct (_ && _); [|reflexivity]. cbn [flat_map]. apply app_nil_r.
Qed.

Lemma strptime_iso_digits (a b c e m1 m2 d1 d2 : N) :
  is_digit a = true -> is_digit b = true -> is_digit c = true -> is_digit e = true ->
  is_digit m1 = true -> is_digit m2 = true -> is_digit d1 = true -> is_digit d2 = true ->
  ((1 <=? int_of_digits [m1; m2]) && (int_of_digits [m1; m2] <=? 12))%N = true ->
  ((1 <=? int_of_digits [d1; d2]) && (int_of_digits [d1; d2] <=? 31))%N = true ->
  strptime FMT_ISO [a; b; c; e; 45%N; m1; m2; 45%N; d1; d2]
  = make_date (mkymd (int_of_digits [a; b; c; e]) (int_of_digits [m1; m2])
                     (int_of_digits [d1; d2])).
Proof.
  intros Ha Hb Hc He Hm1 Hm2 Hd1 Hd2 Hm Hd.
  unfold strptime, FMT_ISO.
  rewrite run_year_lit by done. rewrite run_month_dash by done. cbv zeta. rewrite Hm.
  change (run [Dd] ?v ?s)
    with (flat_map (fun '(n, r) => run [] (mkymd (f_Y v) (f_m v) n) r) (field_d s)).
  destruct (day_at_end d1 d2 Hd1 Hd2 Hd) as [tl ->]. reflexivity.
Qed.

Lemma iso_format_shape (d : date) :
  valid_date d = true ->
  exists a b c e m1 m2 d1 d2,
    iso_format d = [a; b; c; e; 45%N; m1; m2; 45%N; d1; d2]
    /\ Forall (fun x => is_digit x = true) [a; b; c; e; m1; m2; d1; d2]
    /\ int_of_digits [a; b; c; e] = year d
    /\ int_of_digits [m1; m2] = month d
    /\ int_of_digits [d1; d2] = day d.
Proof.
  unfold valid_date. rewrite !andb_true_iff, !N.leb_le.
  intros (((((Hy1 & Hy2) & Hm1) & Hm2) & Hd1) & Hd2).
  pose proof (days_in_month_le_31 (year d) (month d)).
  destruct (pad4_shape (year d) Hy2) as (a & b & c & e & Hy & Ha & Hb & Hc & He & Hyv).
  destruct (pad2_shape (month d)) as (m1 & m2 & Hm & Hma & Hmb & Hmv); [lia|].
  destruct (pad2_shape (day d)) as (d1 & d2 & Hd & Hda & Hdb & Hdv); [lia|].
  exists a, b, c, e, m1, m2, d1, d2. unfold iso_format. rewrite Hy, Hm, Hd.
  split; [reflexivity|]. split; [|auto]. repeat constructor; assumption.
Qed.

Lemma strptime_iso_format (d : date) :
  valid_date d = true -> strptime FMT_ISO (iso_format d) = Some d.
Proof.
  intros Hv.
  destruct (iso_format_shape d Hv)
    as (a & b & c & e & m1 & m2 & d1 & d2 & -> & Hdig & Hy & Hm & Hd).
  unfold valid_date in Hv. rewrite !andb_true_iff in Hv.
  destruct Hv as (((((Hy1 & Hy2) & Hm1) & Hm2) & Hd1) & Hd2).
  pose proof (days_in_month_le_31 (year d) (month d)) as Hdim.
  inversion Hdig as [|? ? Ha Hdig1]; subst. inversion Hdig1 as [|? ? Hb Hdig2]; subst.
  inversion Hdig2 as [|? ? Hc Hdig3]; subst. inversion Hdig3 as [|? ? He Hdig4]; subst.
  inversion Hdig4 as [|? ? Hma Hdig5]; subst. inversion Hdig5 as [|? ? Hmb Hdig6]; subst.
  inversion Hdig6 as [|? ? Hda Hdig7]; subst. inversion Hdig7 as [|? ? Hdb _]; subst.
  rewrite strptime_iso_digits; try done.
  - rewrite Hy, Hm, Hd. unfold make_date. cbn [f_Y f_m f_d].
    rewrite Hy1, Hm1, Hm2, Hd1, Hd2. by destruct d.
  - rewrite Hm. by rewrite Hm1, Hm2.
  - rewrite Hd, Hd1. apply N.leb_le in Hd2. cbn [andb]. apply N.leb_le. lia.
Qed.

Lemma iso_char_facts (c : N) :
  iso_char c = true -> lower_cp c = c /\ isspace c = false /\ c <> 116%N.
Proof.
  unfold iso_char. rewrite orb_true_iff, N.eqb_eq. intros [H| ->].
  - digit_cases H; vm_compute; repeat split; discriminate.
  - vm_compute. repeat split; discriminate.
Qed.

Lemma lower_iso (s : pystr) : Forall (fun c => iso_char c = true) s -> lower s = s.
Proof.
  induction 1 as [|c s Hc _ IH]; [reflexivity|].
  unfold lower in *. cbn [List.map]. rewrite IH.
  by destruct (iso_char_facts c Hc) as (-> & _).
Qed.

Lemma before_app_sep (sep : N) (p x : pystr) :
  Forall (fun c => c <> sep) p -> before sep (p ++ sep :: x) = p.
Proof.
  induction 1 as [|c p Hc _ IH]; cbn [app before].
  - by rewrite N.eqb_refl.
  - apply N.eqb_neq in Hc. by rewrite Hc, IH.
Qed.

Lemma before_no_sep (sep : N) (p : pystr) :
  Forall (fun c => c <> sep) p -> before sep p = p.
Proof.
  induction 1 as [|c p Hc _ IH]; cbn [before]; [reflexivity|].
  apply N.eqb_neq in Hc. by rewrite Hc, IH.
Qed.

Lemma contains_char (p : pystr) (c : N) (x : pystr) : contains (p ++ c :: x) [c] = true.
Proof.
  induction p as [|h p IH].
  - destruct x; simpl; by rewrite N.eqb_refl.
  - change (contains ((h :: p) ++ c :: x) [c])
      with (startswith ((h :: p) ++ c :: x) [c] || contains (p ++ c :: x) [c]).
    rewrite IH. apply orb_true_r.
Qed.

Lemma lstrip_app_nonspace (a : pystr) (c : N) (b : pystr) :
  isspace c = false -> exists a', lstrip (a ++ c :: b) = a' ++ c :: b.
Proof.
  intros Hc. induction a as [|x a IH]; cbn [app lstrip].
  - rewrite Hc. by exists [].
  - destruct (isspace x); [exact IH|]. by exists (x :: a).
Qed.

(** Stripping keeps a prefix that starts and ends on characters that are
    not white space. *)
Lemma strip_keeps_prefix (h : N) (p : pystr) (c : N) (x : pystr) :
  isspace h = false -> isspace c = false ->
  exists x', strip ((h :: p) ++ c :: x) = (h :: p) ++ c :: x'.
Proof.
  intros Hh Hc. unfold strip. cbn [app lstrip]. rewrite Hh.
  change (h :: p ++ c :: x) with ((h :: p) ++ c :: x).
  rewrite rev_app_distr. cbn [rev]. rewrite <- app_assoc. cbn [app].
  destruct (lstrip_app_nonspace (rev x) c (rev p ++ [h]) Hc) as [a' ->].
  exists (rev a'). rewrite rev_app_distr. cbn [rev].
  rewrite rev_app_distr, rev_involutive. cbn [rev app].
  by rewrite <- !app_assoc.
Qed.

Lemma strip_no_space (s : pystr) : Forall (fun c => isspace c = false) s -> strip s = s.
Proof.
  intros Hs. unfold strip.
  assert (Hl : forall t, Forall (fun c => isspace c = false) t -> lstrip t = t).
  { intros t Ht. destruct Ht as [|c t Hc _]; [reflexivity|]. cbn [lstrip]. by rewrite Hc. }
  rewrite (Hl s Hs), Hl; [apply rev_involutive|].
  by apply List.Forall_rev.
Qed.

Lemma parse_tempo_date_nonempty (v : pystr) :
  v <> [] ->
  parse_tempo_date (Some v)
  = let s := before 116%N (strip (lower v)) in
    if contains s (py "-") then strptime FMT_ISO s
    else if contains s (py "/") then strptime FMT_SLASH s
    else if contains s (py ".") then strptime FMT_DOT s
    else None.
Proof. intros Hv. by destruct v. Qed.

Lemma iso_format_parsed_back (d : date) (time_part : pystr) :
  valid_date d = true ->
  parse_tempo_date (Some (iso_format d)) = Some d
  /\ parse_tempo_date (Some (iso_format d ++ py "T" ++ time_part)) = Some d.
Proof.
  intros Hv. pose proof (strptime_iso_format d Hv) as Hparse.
  destruct (iso_format_shape d Hv)
    as (a & b & c & e & m1 & m2 & d1 & d2 & Hshape & Hdig & _).
  assert (Hiso : Forall (fun x => iso_char x = true) (iso_format d)).
  { rewrite Hshape. unfold iso_char.
    inversion Hdig as [|? ? Ha Hdig1]; subst. inversion Hdig1 as [|? ? Hb Hdig2]; subst.
    inversion Hdig2 as [|? ? Hc Hdig3]; subst. inversion Hdig3 as [|? ? He Hdig4]; subst.
    inversion Hdig4 as [|? ? Hma Hdig5]; subst. inversion Hdig5 as [|? ? Hmb Hdig6]; subst.
    inversion Hdig6 as [|? ? Hda Hdig7]; subst. inversion Hdig7 as [|? ? Hdb _]; subst.
    repeat constructor; rewrite ?Ha, ?Hb, ?Hc, ?He, ?Hma, ?Hmb, ?Hda, ?Hdb; reflexivity. }
  assert (Hns : Forall (fun x => isspace x = false) (iso_format d)).
  { eapply Forall_impl; [exact Hiso|]. intros x Hx. by destruct (iso_char_facts x Hx) as (_ & ? & _). }
  assert (Hnt : Forall (fun x => x <> 116%N) (iso_format d)).
  { eapply Forall_impl; [exact Hiso|]. intros x Hx. by destruct (iso_char_facts x Hx) as (_ & _ & ?). }
  assert (Hdash : contains (iso_format d) (py "-") = true).
  { rewrite Hshape. apply (contains_char [a; b; c; e] 45%N). }
  assert (Hne : iso_format d <> []) by (rewrite Hshape; discriminate).
  split.
  - rewrite parse_tempo_date_nonempty by done. cbv zeta.
    rewrite lower_iso by done. rewrite strip_no_space by done.
    rewrite before_no_sep by done. by rewrite Hdash.
  - rewrite parse_tempo_date_nonempty by (intros E; apply app_eq_nil in E as [? _]; done).
    cbv zeta.
    assert (Hlow : lower (iso_format d ++ py "T" ++ time_part)
                   = iso_format d ++ 116%N :: lower time_part).
    { unfold lower. rewrite map_app. fold (lower (iso_format d)).
      by rewrite lower_iso. }
    assert (Hcut : before 116%N (strip (lower (iso_format d ++ py "T" ++ time_part)))
                   = iso_format d).
    { rewrite Hlow. rewrite Hshape in *.
      inversion Hns as [|? ? Hh _]; subst.
      destruct (strip_keeps_prefix a [b; c; e; 45%N; m1; m2; 45%N; d1; d2] 116%N
                  (lower time_part) Hh eq_refl) as [x' ->].
      by apply before_app_sep. }
    rewrite Hcut. by rewrite Hdash.
Qed.

(** An ISO date that [strftime("%Y-%m-%d")] writes, alone or followed
    by a time part after "T", is read back as the same date. *)
Theorem parse_tempo_date_iso_round_trip (d : date) (time_part : pystr) :
  valid_date d = true ->
  parse_tempo_date (Some (iso_format d)) = Some d
  /\ parse_tempo_date (Some (iso_format d ++ py "T" ++ time_part)) = Some d.
Proof. apply iso_format_parsed_back. Qed.

Lemma parse_tempo_date_iso_round_trip_witness :
  parse_tempo_date (Some (py "2024-02-29")) = Some (mkdate 2024 2 29)
  /\ parse_tempo_date (Some (py "2024-02-29T00:00:00.000")) = Some (mkdate 2024 2 29).
Proof.
  apply (parse_tempo_date_iso_round_trip (mkdate 2024 2 29) (py "00:00:00.000")).
  reflexivity.
Defined.

(** ** Team memberships *)

Lemma date_leb_total (a b : date) : date_leb a b = false -> date_leb b a = true.
Proof.
  intros H. apply not_true_iff_false in H. rewrite date_leb_le in *. lia.
Qed.

(** Two closed intervals of dates meet exactly when each starts before
    the other ends. *)
Lemma intervals_meet (a b s e : date) :
  date_leb a b = true -> date_leb s e = true ->
  date_leb a e && date_leb s b = true
  <-> exists d, date_leb a d = true /\ date_leb d b = true
                /\ date_leb s d = true /\ date_leb d e = true.
Proof.
  intros Hab Hse. rewrite andb_true_iff. split.
  - intros [Hae Hsb]. destruct (date_leb a s) eqn:Has.
    + exists s. repeat split; auto using date_leb_refl.
    + exists a. repeat split; auto using date_leb_refl, date_leb_total.
  - intros (d & H1 & H2 & H3 & H4). split; eauto using date_leb_trans.
Qed.

(** A membership sent with ISO dates in the ANSI fields is read with
    those dates, whatever the legacy fields hold, and it is active in a
    period exactly when some day lies in both the membership and the
    period. *)
Theorem membership_iso_overlap (k legacy_from legacy_to : option pystr) (a b s e : date) :
  valid_date a = true -> valid_date b = true ->
  date_leb a b = true -> date_leb s e = true ->
  let m := decode_member (mkraw_member k (Some (iso_format a)) legacy_from
                                       (Some (iso_format b)) legacy_to) in
  member_key m = k /\ dateFrom m = Some a /\ dateTo m = Some b
  /\ (member_active s e m = true
      <-> exists d, date_leb a d = true /\ date_leb d b = true
                    /\ date_leb s d = true /\ date_leb d e = true).
Proof.
  intros Ha Hb Hab Hse m.
  assert (Hfrom : dateFrom m = Some a).
  { unfold m, decode_member. cbn [dateFrom dateFromANSI raw_dateFrom].
    destruct (iso_format_shape a Ha) as (? & ? & ? & ? & ? & ? & ? & ? & Hs & _).
    unfold str_or. rewrite Hs at 1. cbn [truthy].
    by destruct (iso_format_parsed_back a [] Ha) as [-> _]. }
  assert (Hto : dateTo m = Some b).
  { unfold m, decode_member. cbn [dateTo dateToANSI raw_dateTo].
    destruct (iso_format_shape b Hb) as (? & ? & ? & ? & ? & ? & ? & ? & Hs & _).
    unfold str_or. rewrite Hs at 1. cbn [truthy].
    by destruct (iso_format_parsed_back b [] Hb) as [-> _]. }
  split; [reflexivity|]. split; [exact Hfrom|]. split; [exact Hto|].
  unfold member_active. rewrite Hfrom, Hto. cbn [default].
  by apply intervals_meet.
Qed.

Lemma membership_iso_overlap_witness :
  let m := decode_member (mkraw_member (Some (py "JIRAUSER1"))
                            (Some (py "2023-12-15")) (Some (py "15/Dec/23"))
                            (Some (py "2024-01-10")) None) in
  dateFrom m = Some (mkdate 2023 12 15) /\ dateTo m = Some (mkdate 2024 1 10)
  /\ member_active (mkdate 2024 1 1) (mkdate 2024 1 31) m = true.
Proof.
  pose proof (membership_iso_overlap (Some (py "JIRAUSER1")) (Some (py "15/Dec/23")) None
                (mkdate 2023 12 15) (mkdate 2024 1 10) (mkdate 2024 1 1) (mkdate 2024 1 31)
                eq_refl eq_refl eq_refl eq_refl) as H.
  cbv zeta in H. destruct H as (_ & Hfrom & Hto & Hact).
  split; [exact Hfrom|]. split; [exact Hto|].
  apply Hact. exists (mkdate 2024 1 5). repeat split; reflexivity.
Defined.

(** What one member entry does to the map at a key. *)
Lemma assign_members_lookup (s e : date) (name : pystr) (members : list member)
    (m : gmap pystr pystr) (k : pystr) :
  k <> [] ->
  assign_members s e name members m !! k
  = if existsb (fun x => bool_decide (member_key x = Some k) && member_active s e x) members
    then Some name else m !! k.
Proof.
  intros Hk. unfold assign_members. revert m.
  induction members as [|x members IH]; intros m; [reflexivity|].
  cbn [fold_left existsb]. rewrite IH. clear IH.
  destruct (existsb _ members); [by rewrite orb_true_r|]. rewrite orb_false_r.
  fold (member_active s e x).
  destruct (member_key x) as [[|c jk]|] eqn:Hkey.
  - rewrite bool_decide_eq_false_2 by congruence. reflexivity.
  - destruct (decide (c :: jk = k)) as [<-|Hne].
    + rewrite bool_decide_eq_true_2 by done. cbn [andb].
      destruct (member_active s e x); [apply lookup_insert_eq | reflexivity].
    + rewrite bool_decide_eq_false_2 by congruence. cbn [andb].
      destruct (member_active s e x); [by rewrite lookup_insert_ne | reflexivity].
  - rewrite bool_decide_eq_false_2 by congruence. reflexivity.
Qed.

Lemma assign_members_lookup_empty_key (s e : date) (name : pystr) (members : list member)
    (m : gmap pystr pystr) :
  assign_members s e name members m !! ([] : pystr) = m !! ([] : pystr).
Proof.
  unfold assign_members. revert m.
  induction members as [|x members IH]; intros m; [reflexivity|].
  cbn [fold_left]. rewrite IH.
  destruct (member_key x) as [[|c jk]|]; try reflexivity.
  destruct (_ && _); [by rewrite lookup_insert_ne | reflexivity].
Qed.

Lemma teams_fold_target (up : upstream) (s e : date) :
  get_tempo_teams_assignments up s e
  = fold_left
      (fun user_team_map t =>
         match ok_body (get_members up (team_id t)) with
         | Some members => assign_members s e (team_name t) members user_team_map
         | None => user_team_map
         end)
      (target_teams up) ∅.
Proof.
  unfold get_tempo_teams_assignments, target_teams.
  by destruct (ok_body (get_teams up)).
Qed.

(** When several teams hold an active membership of a user, the last
    team in the order of the team list is the one assigned; a user with
    an empty key is never assigned. *)
Theorem team_assignment_last_wins (up : upstream) (s e : date) (k name : pystr) :
  k <> [] ->
  (get_tempo_teams_assignments up s e !! k = Some name
   <-> exists ts1 t ts2,
         target_teams up = ts1 ++ t :: ts2
         /\ team_has_active up s e k t = true
         /\ name = team_name t
         /\ Forall (fun t' => team_has_active up s e k t' = false) ts2)
  /\ get_tempo_teams_assignments up s e !! ([] : pystr) = None.
Proof.
  intros Hk. rewrite teams_fold_target.
  set (step := fun (user_team_map : gmap pystr pystr) t =>
         match ok_body (get_members up (team_id t)) with
         | Some members => assign_members s e (team_name t) members user_team_map
         | None => user_team_map
         end).
  assert (Hstep : forall m t,
    step m t !! k = if team_has_active up s e k t then Some (team_name t) else m !! k).
  { intros m t. unfold step, team_has_active.
    destruct (ok_body (get_members up (team_id t))); [|reflexivity].
    by apply assign_members_lookup. }
  assert (Hgen : forall ts (m : gmap pystr pystr),
    fold_left step ts m !! k = Some name
    <-> (exists ts1 t ts2,
           ts = ts1 ++ t :: ts2 /\ team_has_active up s e k t = true
           /\ name = team_name t
           /\ Forall (fun t' => team_has_active up s e k t' = false) ts2)
        \/ (Forall (fun t' => team_has_active up s e k t' = false) ts
            /\ m !! k = Some name)).
  { induction ts as [|t ts IH]; intros m; cbn [fold_left].
    - split; [intros H; right; auto|].
      intros [(ts1 & t & ts2 & Heq & _)|[_ H]]; [by destruct ts1|done].
    - rewrite IH, Hstep. split.
      + intros [(ts1 & t' & ts2 & -> & Hact & Hn & Hrest)|[Hno Hm]].
        * left. exists (t :: ts1), t', ts2. auto.
        * destruct (team_has_active up s e k t) eqn:Ht.
          -- left. exists [], t, ts. injection Hm as <-. auto.
          -- right. auto.
      + intros [(ts1 & t' & ts2 & Heq & Hact & Hn & Hrest)|[Hno Hm]].
        * destruct ts1 as [|t1 ts1]; injection Heq as <- ->.
          -- right. split; [done|]. by rewrite Hact, Hn.
          -- left. exists ts1, t', ts2. auto.
        * inversion Hno as [|? ? Ht Hts]; subst. right. split; [done|]. by rewrite Ht. }
  split.
  - rewrite Hgen. split; [|auto]. intros [H|[_ H]]; [done|]. by rewrite lookup_empty in H.
  - assert (Hempty : forall ts (m : gmap pystr pystr),
      fold_left step ts m !! ([] : pystr) = m !! ([] : pystr)).
    { induction ts as [|t ts IH]; intros m; cbn [fold_left]; [reflexivity|].
      rewrite IH. unfold step. destruct (ok_body _); [|reflexivity].
      apply assign_members_lookup_empty_key. }
    rewrite Hempty. apply lookup_empty.
Qed.

Lemma team_assignment_last_wins_witness :
  get_tempo_teams_assignments Sample2.up_two_teams (mkdate 2024 1 1) (mkdate 2024 1 31)
    !! py "JIRAUSER1"
  = Some (py "Stream2-Team").
Proof.
  apply (team_assignment_last_wins Sample2.up_two_teams (mkdate 2024 1 1) (mkdate 2024 1 31)
           (py "JIRAUSER1") (py "Stream2-Team")); [discriminate|].
  exists [mkteam 1 (py "stream1-team")], (mkteam 2 (py "Stream2-Team")), [].
  split; [vm_compute; reflexivity|]. split; [vm_compute; reflexivity|].
  split; [reflexivity | constructor].
Defined.

(** ** Hours of a block *)

Lemma gt_irrefl (a : pyfloat) : PyFloat.gt a a = false.
Proof.
  destruct a as [q| | |]; try reflexivity. cbn [PyFloat.gt].
  apply not_true_iff_false. rewrite Qltb_lt. apply Qlt_irrefl.
Qed.

Lemma gt_trans (a b c : pyfloat) :
  PyFloat.gt a b = true -> PyFloat.gt b c = true -> PyFloat.gt a c = true.
Proof.
  destruct a as [x| | |], b as [y| | |], c as [z| | |]; cbn [PyFloat.gt];
    try discriminate; try reflexivity.
  rewrite !Qltb_lt. intros H1 H2. by apply (Qlt_trans _ y).
Qed.

Lemma gt_nonneg (h hours : pyfloat) :
  nonneg hours -> PyFloat.gt h hours = true -> nonneg h.
Proof.
  intros [(q & -> & Hq)| ->]; destruct h as [x| | |]; cbn [PyFloat.gt];
    try discriminate; intros Hgt; try (by right).
  left. exists x. split; [reflexivity|].
  apply Qltb_lt in Hgt. apply Qlt_le_weak. by apply (Qle_lt_trans _ q).
Qed.

Lemma scan_hours_greatest (df : df_raw) (c : nat) (rows : list nat) :
  let hours := scan_hours df (Some (S c)) rows in
  nonneg hours
  /\ (hours = Fin 0
      \/ exists r, r ∈ rows /\ parse_hours (iloc df r (S c)) = Some hours)
  /\ (forall r h, r ∈ rows -> parse_hours (iloc df r (S c)) = Some h ->
                  PyFloat.gt h hours = false).
Proof.
  cbv zeta. unfold scan_hours.
  set (step := fun hours r =>
         match py_float (replace 32%N [] (replace 44%N (py ".")
                                            (cell_str (iloc df r (S c))))) with
         | Some h => if PyFloat.gt h hours then h else hours
         | None => hours
         end).
  assert (Hstep : forall h0 r,
    (step h0 r = h0
     /\ forall h, parse_hours (iloc df r (S c)) = Some h -> PyFloat.gt h h0 = false)
    \/ (parse_hours (iloc df r (S c)) = Some (step h0 r)
        /\ PyFloat.gt (step h0 r) h0 = true)).
  { intros h0 r. unfold step, parse_hours.
    destruct (py_float _) as [h|]; [|left; split; [done|discriminate]].
    destruct (PyFloat.gt h h0) eqn:Hgt; [right; auto|].
    left. split; [done|]. by intros ? [= <-]. }
  assert (Hgen : forall rows0 (h0 : pyfloat),
    nonneg h0 ->
    nonneg (fold_left step rows0 h0)
    /\ (fold_left step rows0 h0 = h0
        \/ exists r, r ∈ rows0
                     /\ parse_hours (iloc df r (S c)) = Some (fold_left step rows0 h0))
    /\ (forall h, PyFloat.gt h (fold_left step rows0 h0) = true -> PyFloat.gt h h0 = true)
    /\ (forall r h, r ∈ rows0 -> parse_hours (iloc df r (S c)) = Some h ->
                    PyFloat.gt h (fold_left step rows0 h0) = false)).
  { induction rows0 as [|r rows0 IH]; intros h0 Hh0; cbn [fold_left].
    - split; [done|]. split; [by left|]. split; [done|].
      intros r h Hr. by apply elem_of_nil in Hr.
    - assert (Hnn : nonneg (step h0 r)).
      { destruct (Hstep h0 r) as [[-> _]|[_ Hgt]]; [done|]. by apply (gt_nonneg _ h0). }
      destruct (IH (step h0 r) Hnn) as (Hn & Hval & Hdom & Hmax).
      assert (Hdom0 : forall h, PyFloat.gt h (step h0 r) = true -> PyFloat.gt h h0 = true).
      { intros h Hh. destruct (Hstep h0 r) as [[Hs _]|[_ Hgt]].
        - by rewrite Hs in Hh.
        - by apply (gt_trans _ (step h0 r)). }
      split; [exact Hn|]. split; [|split].
      + destruct Hval as [Heq|(r' & Hr' & Hp)].
        * destruct (Hstep h0 r) as [[Hs _]|[Hp _]].
          -- left. by rewrite Heq.
          -- right. exists r. rewrite elem_of_cons, Heq. auto.
        * right. exists r'. rewrite elem_of_cons. auto.
      + intros h Hh. auto.
      + intros r' h Hr' Hp. apply elem_of_cons in Hr' as [->|Hr']; [|by apply (Hmax r')].
        apply not_true_iff_false. intros Hgt. apply Hdom in Hgt.
        destruct (Hstep h0 r) as [[Hs Hle]|[Hp' _]].
        * rewrite Hs in Hgt. by rewrite (Hle h Hp) in Hgt.
        * rewrite Hp in Hp'. injection Hp' as Heq. rewrite <- Heq in Hgt.
          by rewrite gt_irrefl in Hgt. }
  destruct (Hgen rows (Fin 0)) as (Hn & Hval & _ & Hmax).
  { left. exists 0%Q. split; [reflexivity|]. apply Qle_refl. }
  auto.
Qed.

(** The hours of a block, when the hours column is read, are the
    greatest number read in the block or 0: never negative, never nan,
    and no number read in the block is greater. *)
Theorem scan_hours_max (df : df_raw) (c : nat) (rows : list nat) :
  let hours := scan_hours df (Some (S c)) rows in
  nonneg hours
  /\ (hours = Fin 0
      \/ exists r, r ∈ rows /\ parse_hours (iloc df r (S c)) = Some hours)
  /\ (forall r h, r ∈ rows -> parse_hours (iloc df r (S c)) = Some h ->
                  PyFloat.gt h hours = false).
Proof. apply scan_hours_greatest. Qed.

(** ** Order of strings and sorting *)

Lemma ltb_irrefl (a : pystr) : ltb a a = false.
Proof.
  induction a as [|x a IH]; [reflexivity|]. cbn [ltb].
  by rewrite N.ltb_irrefl, N.eqb_refl, IH.
Qed.

Lemma ltb_trans (a b c : pystr) : ltb a b = true -> ltb b c = true -> ltb a c = true.
Proof.
  revert b c. induction a as [|x a IH]; intros [|y b] [|z c]; cbn [ltb];
    try discriminate; try reflexivity.
  rewrite !orb_true_iff, !andb_true_iff, !N.ltb_lt, !N.eqb_eq.
  intros [Hxy|[-> Hab]] [Hyz|[-> Hbc]]; try (left; lia).
  - right. split; [reflexivity|]. by apply (IH b).
Qed.

Lemma ltb_trichotomy (a b : pystr) : ltb a b = false -> ltb b a = false -> a = b.
Proof.
  revert b. induction a as [|x a IH]; intros [|y b]; cbn [ltb];
    try discriminate; try reflexivity.
  rewrite !orb_false_iff, !andb_false_iff, !N.ltb_ge, !N.eqb_neq.
  intros [H1 H2] [H3 H4].
  assert (x = y) by lia. subst y.
  f_equal. apply IH; [destruct H2 | destruct H4]; done.
Qed.

Lemma ltb_asym (a b : pystr) : ltb a b = true -> ltb b a = false.
Proof.
  intros H. apply not_true_iff_false. intros H'.
  pose proof (ltb_trans _ _ _ H H') as Hc. by rewrite ltb_irrefl in Hc.
Qed.

Lemma leb_total (a b : pystr) : leb a b = false -> leb b a = true.
Proof.
  unfold leb. rewrite negb_false_iff, negb_true_iff. apply ltb_asym.
Qed.

Lemma leb_trans (a b c : pystr) : leb a b = true -> leb b c = true -> leb a c = true.
Proof.
  unfold leb. rewrite !negb_true_iff. intros Hba Hcb.
  apply not_true_iff_false. intros Hca.
  destruct (ltb b c) eqn:Hbc.
  - pose proof (ltb_trans _ _ _ Hbc Hca) as H. congruence.
  - assert (b = c) by (by apply ltb_trichotomy). subst c. congruence.
Qed.

Lemma leb_antisym (a b : pystr) : leb a b = true -> leb b a = true -> a = b.
Proof.
  unfold leb. rewrite !negb_true_iff. intros H1 H2. by apply ltb_trichotomy.
Qed.

Section SortOrdered.
Context {A : Type} (le : A -> A -> bool).
Hypothesis le_total : forall a b, le a b = false -> le b a = true.
Hypothesis le_trans : forall a b c, le a b = true -> le b c = true -> le a c = true.

Lemma insert_sorted_ordered (x : A) (l : list A) :
  StronglySorted (fun a b => le a b = true) l ->
  StronglySorted (fun a b => le a b = true) (insert_sorted le x l).
Proof.
  induction 1 as [|y l Hl IH Hy]; cbn [insert_sorted].
  - repeat constructor.
  - destruct (le x y) eqn:Hxy.
    + constructor; [by constructor|]. constructor; [done|].
      eapply List.Forall_impl; [|exact Hy]. intros z Hz. by apply (le_trans _ y).
    + constructor; [exact IH|].
      rewrite (insert_sorted_perm le x l). constructor; [by apply le_total | done].
Qed.

Lemma sort_ordered (l : list A) : StronglySorted (fun a b => le a b = true) (sort le l).
Proof.
  induction l as [|x l IH]; cbn [sort foldr]; [constructor|].
  by apply insert_sorted_ordered.
Qed.

(** Sorting leaves an ordered list as it is. *)
Lemma sort_of_ordered (l : list A) :
  StronglySorted (fun a b => le a b = true) l -> sort le l = l.
Proof.
  induction 1 as [|x l Hl IH Hx]; [reflexivity|].
  cbn [sort foldr]. fold (sort le l). rewrite IH.
  destruct l as [|y l]; [reflexivity|]. cbn [insert_sorted].
  inversion Hx as [|? ? Hxy _]; subst. by rewrite Hxy.
Qed.

Lemma sort_idempotent (l : list A) : sort le (sort le l) = sort le l.
Proof. apply sort_of_ordered, sort_ordered. Qed.
End SortOrdered.

(** The order of the teams in Prop. *)
Lemma team_ltb_lt (a b : pystr) :
  team_ltb a b = true
  <-> (SortRank a < SortRank b)%N
      \/ (SortRank a = SortRank b
          /\ ((SortNum a < SortNum b)%N \/ (SortNum a = SortNum b /\ ltb a b = true))).
Proof.
  unfold team_ltb.
  rewrite !orb_true_iff, !andb_true_iff, !orb_true_iff, !andb_true_iff,
    !N.ltb_lt, !N.eqb_eq.
  tauto.
Qed.

Lemma team_ltb_irrefl (a : pystr) : team_ltb a a = false.
Proof.
  apply not_true_iff_false. rewrite team_ltb_lt, ltb_irrefl. intros [?|[_ [?|[_ ?]]]]; [lia|lia|done].
Qed.

Lemma team_ltb_trans (a b c : pystr) :
  team_ltb a b = true -> team_ltb b c = true -> team_ltb a c = true.
Proof.
  rewrite !team_ltb_lt.
  intros [H1|[H1 [H2|[H2 H3]]]] [H4|[H4 [H5|[H5 H6]]]]; try (left; lia);
    try (right; split; [lia|]; left; lia).
  right. split; [lia|]. right. split; [lia|]. by apply (ltb_trans _ b).
Qed.

Lemma team_ltb_trichotomy (a b : pystr) :
  team_ltb a b = false -> team_ltb b a = false -> a = b.
Proof.
  intros H1 H2. apply not_true_iff_false in H1, H2. rewrite team_ltb_lt in H1, H2.
  apply ltb_trichotomy.
  - destruct (ltb a b) eqn:E; [|done]. exfalso.
    destruct (N.lt_trichotomy (SortRank a) (SortRank b)) as [?|[Hr|?]]; [tauto| |tauto].
    destruct (N.lt_trichotomy (SortNum a) (SortNum b)) as [?|[Hn|?]]; [tauto| |].
    + apply H1. auto.
    + apply H2. right. split; [done|]. left. done.
  - destruct (ltb b a) eqn:E; [|done]. exfalso.
    destruct (N.lt_trichotomy (SortRank a) (SortRank b)) as [?|[Hr|?]]; [tauto| |tauto].
    destruct (N.lt_trichotomy (SortNum a) (SortNum b)) as [?|[Hn|?]]; [tauto| |].
    + apply H2. auto.
    + apply H2. right. split; [done|]. left. done.
Qed.

Lemma row_leb_total (a b : report_row) : row_leb a b = false -> row_leb b a = true.
Proof.
  unfold row_leb. rewrite orb_false_iff, andb_false_iff, negb_false_iff.
  intros [Hab [Hba|Hn]].
  - by rewrite Hba.
  - destruct (team_ltb (Team b) (Team a)) eqn:Hba; [reflexivity|].
    rewrite Hab. cbn [negb orb andb]. by apply leb_total.
Qed.

Lemma row_leb_trans (a b c : report_row) :
  row_leb a b = true -> row_leb b c = true -> row_leb a c = true.
Proof.
  unfold row_leb. rewrite !orb_true_iff, !andb_true_iff, !negb_true_iff.
  intros [Hab|[Hba Hn1]] [Hbc|[Hcb Hn2]].
  - left. by apply (team_ltb_trans _ (Team b)).
  - destruct (team_ltb (Team b) (Team c)) eqn:Hbc.
    + left. by apply (team_ltb_trans _ (Team b)).
    + assert (Team b = Team c) as <- by (by apply team_ltb_trichotomy). by left.
  - destruct (team_ltb (Team a) (Team b)) eqn:Hab.
    + left. by apply (team_ltb_trans _ (Team b)).
    + assert (Team a = Team b) as -> by (by apply team_ltb_trichotomy). by left.
  - destruct (team_ltb (Team a) (Team b)) eqn:Hab.
    { destruct (team_ltb (Team b) (Team c)) eqn:Hbc;
        left; [by apply (team_ltb_trans _ (Team b))|].
      assert (Team b = Team c) as <- by (by apply team_ltb_trichotomy). done. }
    assert (Team a = Team b) as Heq by (by apply team_ltb_trichotomy).
    destruct (team_ltb (Team b) (Team c)) eqn:Hbc.
    { left. by rewrite Heq. }
    assert (Team b = Team c) as Heq2 by (by apply team_ltb_trichotomy).
    right. split.
    + rewrite Heq, <- Heq2. apply team_ltb_irrefl.
    + by apply (leb_trans _ (row_name_1c b)).
Qed.

Lemma sort_rows_sorted (rows : list report_row) :
  StronglySorted (fun a b => row_leb a b = true) (sort_rows rows).
Proof. apply sort_ordered; [apply row_leb_total | apply row_leb_trans]. Qed.

(** The report is the rows it was built from, rearranged so that every
    row is followed only by rows that are not before it in the order of
    rank, number, team name and 1C name. *)
Theorem sort_rows_ordered (rows : list report_row) :
  sort_rows rows ≡ₚ rows
  /\ StronglySorted (fun a b => row_leb a b = true) (sort_rows rows).
Proof. split; [apply sort_perm | apply sort_rows_sorted]. Qed.

(** Sorting a report again changes nothing. *)
Theorem sort_rows_idempotent (rows : list report_row) :
  sort_rows (sort_rows rows) = sort_rows rows.
Proof. apply sort_idempotent; [apply row_leb_total | apply row_leb_trans]. Qed.

(** *** Ranks in the report *)

Lemma SortRank_values (t : pystr) :
  (SortRank t = 99%N /\ lower t = py "other")
  \/ (lower t <> py "other"
      /\ (SortRank t = 1 \/ SortRank t = 2 \/ SortRank t = 3 \/ SortRank t = 4)%N).
Proof.
  unfold SortRank, get_team_rank, eqb.
  destruct (bool_decide (lower t = py "other")) eqn:Ho.
  - left. apply bool_decide_eq_true in Ho. auto.
  - right. apply bool_decide_eq_false in Ho. split; [done|].
    destruct (contains _ (py "arch-team")); [auto|].
    destruct (contains _ (py "change-team")); [auto|].
    destruct (contains _ (py "stream")); cbn [fst]; auto.
Qed.

Lemma row_leb_rank (a b : report_row) :
  row_leb a b = true -> (SortRank (Team a) <= SortRank (Team b))%N.
Proof.
  unfold row_leb. rewrite orb_true_iff, andb_true_iff, negb_true_iff.
  intros [H|[H _]].
  - apply team_ltb_lt in H. lia.
  - apply not_true_iff_false in H. rewrite team_ltb_lt in H. lia.
Qed.

Lemma StronglySorted_after {A : Type} (R : A -> A -> Prop) (l1 : list A) (a : A)
    (l2 : list A) :
  StronglySorted R (l1 ++ a :: l2) -> Forall (R a) l2.
Proof.
  induction l1 as [|x l1 IH]; cbn [app]; intros H; inversion H; subst; auto.
Qed.

(** Along the report the rank never decreases, so the rows of the team
    "Other" (in any letter case) form the end of the report: after one
    of them only rows of "Other" follow. *)
Theorem other_rows_last (rows l1 : list report_row) (a : report_row)
    (l2 : list report_row) :
  sort_rows rows = l1 ++ a :: l2 ->
  Forall (fun b => (SortRank (Team a) <= SortRank (Team b))%N) l2
  /\ (lower (Team a) = py "other" ->
      Forall (fun b => lower (Team b) = py "other") l2).
Proof.
  intros Hsplit.
  assert (Hrank : Forall (fun b => (SortRank (Team a) <= SortRank (Team b))%N) l2).
  { pose proof (sort_rows_sorted rows) as Hs. rewrite Hsplit in Hs.
    apply StronglySorted_after in Hs.
    eapply List.Forall_impl; [|exact Hs]. intros b. apply row_leb_rank. }
  split; [exact Hrank|]. intros Ha.
  eapply List.Forall_impl; [|exact Hrank]. intros b Hb. cbv beta in Hb.
  destruct (SortRank_values (Team a)) as [[Hra _]|[Hne _]]; [|done].
  destruct (SortRank_values (Team b)) as [[_ Hob]|[_ Hrb]]; [done|]. lia.
Qed.

Lemma other_rows_last_witness :
  Forall (fun b => (SortRank (Team Sample2.row_other_b) <= SortRank (Team b))%N)
         [Sample2.row_other_a]
  /\ (lower (Team Sample2.row_other_b) = py "other" ->
      Forall (fun b => lower (Team b) = py "other") [Sample2.row_other_a]).
Proof.
  apply (other_rows_last
           [Sample2.row_other_a; Sample2.row_stream; Sample2.row_other_b]
           [Sample2.row_stream]).
  vm_compute. reflexivity.
Defined.

(** ** Records *)

Lemma before_without_sep (sep : N) (s : pystr) : Forall (fun c => c <> sep) (before sep s).
Proof.
  induction s as [|c s IH]; cbn [before]; [constructor|].
  destruct (N.eqb_spec c sep); [constructor|]. by constructor.
Qed.

Lemma before_Forall (P : N -> Prop) (sep : N) (s : pystr) :
  Forall P s -> Forall P (before sep s).
Proof.
  induction 1 as [|c s Hc _ IH]; cbn [before]; [constructor|].
  destruct (c =? sep)%N; by constructor.
Qed.

Lemma lstrip_Forall (P : N -> Prop) (s : pystr) : Forall P s -> Forall P (lstrip s).
Proof.
  induction 1 as [|c s Hc Hs IH]; cbn [lstrip]; [constructor|].
  destruct (isspace c); [exact IH | by constructor].
Qed.

Lemma strip_Forall (P : N -> Prop) (s : pystr) : Forall P s -> Forall P (strip s).
Proof.
  intros H. unfold strip.
  apply List.Forall_rev, lstrip_Forall, List.Forall_rev, lstrip_Forall, H.
Qed.

Lemma lstrip_no_lead (s : pystr) : no_lead (lstrip s).
Proof.
  induction s as [|c s IH]; cbn [lstrip]; [exact I|].
  destruct (isspace c) eqn:Hc; [exact IH | exact Hc].
Qed.

Lemma lstrip_id (s : pystr) : no_lead s -> lstrip s = s.
Proof. destruct s as [|c s]; [reflexivity|]. cbn [no_lead lstrip]. by intros ->. Qed.

Lemma lstrip_suffix (s : pystr) : exists p, s = p ++ lstrip s.
Proof.
  induction s as [|c s [p IH]]; cbn [lstrip]; [by exists []|].
  destruct (isspace c); [|by exists []]. exists (c :: p). cbn [app]. by rewrite <- IH.
Qed.

Lemma no_lead_rev_lstrip (u : pystr) : no_lead (rev u) -> no_lead (rev (lstrip u)).
Proof.
  destruct (lstrip_suffix u) as [p Hp]. intros H.
  rewrite Hp, rev_app_distr in H.
  destruct (rev (lstrip u)) as [|c t]; [exact I|]. exact H.
Qed.

(** Stripping twice is stripping once. *)
Lemma strip_idempotent (s : pystr) : strip (strip s) = strip s.
Proof.
  assert (H1 : no_lead (strip s)).
  { unfold strip. apply no_lead_rev_lstrip. rewrite rev_involutive. apply lstrip_no_lead. }
  assert (H2 : no_lead (rev (strip s))).
  { unfold strip. rewrite rev_involutive. apply lstrip_no_lead. }
  unfold strip at 1. rewrite (lstrip_id _ H1), (lstrip_id _ H2). apply rev_involutive.
Qed.

Lemma strictly_sorted (l : list pystr) :
  StronglySorted (fun a b => leb a b = true) l -> NoDup l ->
  StronglySorted (fun a b => ltb a b = true) l.
Proof.
  induction 1 as [|x l Hl IH Hx]; intros Hnd; [constructor|].
  apply NoDup_cons in Hnd as [Hnotin Hnd]. constructor; [by apply IH|].
  apply Forall_forall. intros y Hy. rewrite Forall_forall in Hx.
  pose proof (Hx y Hy) as Hle. unfold leb in Hle. apply negb_true_iff in Hle.
  destruct (ltb x y) eqn:E; [done|].
  exfalso. apply Hnotin. by rewrite (ltb_trichotomy x y E Hle).
Qed.

Lemma sorted_strings_strict (X : gset pystr) :
  StronglySorted (fun a b => ltb a b = true) (sorted_strings X).
Proof.
  apply strictly_sorted.
  - apply sort_ordered; [apply leb_total | apply leb_trans].
  - unfold sorted_strings. rewrite sort_perm. apply NoDup_elements.
Qed.

(** What holds of every record the extractor emits: the hours are never
    negative and never nan; there are hours above 0 or at least one
    absence code; the absence codes are in strictly ascending order; the
    name holds no line break and no opening bracket and has no white
    space around it. *)
Theorem record_invariants (df : df_raw) (cache : list user) (h n : nat) (r : excel_record) :
  r ∈ parse_excel df cache h n ->
  nonneg (hours_1c r)
  /\ (PyFloat.gt (hours_1c r) (Fin 0) = true \/ absences r <> [])
  /\ StronglySorted (fun a b => ltb a b = true) (absences r)
  /\ Forall (fun c => c <> 10%N /\ c <> 40%N) (name_1c r)
  /\ strip (name_1c r) = name_1c r.
Proof.
  intros Hr. apply elem_of_extract_records in Hr as (i & _ & Hrow).
  apply extract_row_Some in Hrow as (_ & Hname & Hh & Habs & _ & Hemit).
  split.
  { rewrite Hh. destruct (find_hours_col df) as [[|c]|].
    - left. exists 0%Q. split; [reflexivity | apply Qle_refl].
    - by destruct (scan_hours_greatest df c (block_rows df i)) as (Hn & _).
    - left. exists 0%Q. split; [reflexivity | apply Qle_refl]. }
  split.
  { destruct Hemit as [?|Hne]; [by left|right].
    rewrite Habs. intros Hnil. by apply sorted_strings_nil in Hnil. }
  split; [rewrite Habs; apply sorted_strings_strict|].
  rewrite Hname. unfold clean_name_of. split; [|apply strip_idempotent].
  apply strip_Forall.
  pose proof (before_without_sep 40 (before 10 (cell_str (iloc df i n)))) as H40.
  pose proof (before_Forall (fun c => c <> 10%N) 40 _
                (before_without_sep 10 (cell_str (iloc df i n)))) as H10.
  rewrite Forall_forall in *. intros c Hc. split; [by apply H10 | by apply H40].
Qed.

Lemma record_invariants_witness :
  nonneg (hours_1c Sample.rec_ivanov)
  /\ (PyFloat.gt (hours_1c Sample.rec_ivanov) (Fin 0) = true
      \/ absences Sample.rec_ivanov <> [])
  /\ StronglySorted (fun a b => ltb a b = true) (absences Sample.rec_ivanov)
  /\ Forall (fun c => c <> 10%N /\ c <> 40%N) (name_1c Sample.rec_ivanov)
  /\ strip (name_1c Sample.rec_ivanov) = name_1c Sample.rec_ivanov.
Proof.
  apply (record_invariants Sample.sheet Sample.cache_values 1 0).
  rewrite sample_parse. apply elem_of_cons. by left.
Defined.

(** ** Table locator *)

Lemma numeric_outside (df : df_raw) (r c : nat) :
  nrows df <= r \/ ncols df <= c -> is_numeric_cell (iloc df r c) = false.
Proof. intros H. by rewrite iloc_outside. Qed.

Lemma find_rev_seq_Some (f : nat -> bool) (n c : nat) :
  List.find f (rev (seq 0 n)) = Some c ->
  c < n /\ f c = true /\ forall c', c < c' < n -> f c' = false.
Proof.
  induction n as [|n IH]; [discriminate|].
  rewrite seq_S, rev_app_distr. cbn [rev app List.find plus].
  destruct (f n) eqn:Hn.
  - intros [= <-]. repeat split; [lia | done | intros; lia].
  - intros H. apply IH in H as (Hc & Hf & Hright).
    repeat split; [lia | done |].
    intros c' Hc'. destruct (decide (c' = n)) as [->|]; [done|]. apply Hright. lia.
Qed.

Lemma find_rev_seq_None (f : nat -> bool) (n : nat) :
  List.find f (rev (seq 0 n)) = None <-> forall c, c < n -> f c = false.
Proof.
  split.
  - intros H c Hc. apply (find_none _ _ H). apply in_rev. rewrite rev_involutive.
    apply in_seq. lia.
  - intros H. destruct (List.find f (rev (seq 0 n))) as [c|] eqn:E; [|done].
    apply find_rev_seq_Some in E as (Hc & Hf & _). rewrite H in Hf by done. discriminate.
Qed.

(** The hours column is the rightmost column whose cell in the middle
    row of the sheet is not empty and reads as a number; there is none
    exactly when the middle row holds no such cell. *)
Theorem find_hours_col_rightmost (df : df_raw) :
  (forall c, find_hours_col df = Some c ->
             c < ncols df
             /\ is_numeric_cell (iloc df (nrows df / 2) c) = true
             /\ forall c', c < c' -> is_numeric_cell (iloc df (nrows df / 2) c') = false)
  /\ (find_hours_col df = None
      <-> forall c, is_numeric_cell (iloc df (nrows df / 2) c) = false).
Proof.
  unfold find_hours_col, range. rewrite Nat.sub_0_r. split.
  - intros c H. apply find_rev_seq_Some in H as (Hc & Hf & Hright).
    repeat split; [done | done |]. intros c' Hc'.
    destruct (le_lt_dec (ncols df) c'); [apply numeric_outside; auto|].
    apply Hright. lia.
  - rewrite find_rev_seq_None. split.
    + intros H c. destruct (le_lt_dec (ncols df) c); [apply numeric_outside; auto|].
      by apply H.
    + intros H c _. apply H.
Qed.

(** Appending the members of [cs] that pass [P] and are not yet there. *)
Lemma append_new_spec (P : nat -> bool) (cs acc : list nat) :
  NoDup acc ->
  NoDup (fold_left (fun acc c => if P c && negb (bool_decide (c ∈ acc))
                                 then acc ++ [c] else acc) cs acc)
  /\ forall x, x ∈ fold_left (fun acc c => if P c && negb (bool_decide (c ∈ acc))
                                           then acc ++ [c] else acc) cs acc
               <-> x ∈ acc \/ (x ∈ cs /\ P x = true).
Proof.
  revert acc. induction cs as [|c cs IH]; intros acc Hnd; cbn [fold_left].
  - split; [done|]. intros x. split; [auto|]. intros [?|[H _]]; [done|].
    by apply elem_of_nil in H.
  - destruct (P c) eqn:Hp; cbn [andb].
    + destruct (bool_decide (c ∈ acc)) eqn:Hin; cbn [negb].
      * apply bool_decide_eq_true in Hin. destruct (IH acc Hnd) as [Hn Hm].
        split; [done|]. intros x. rewrite Hm, elem_of_cons. split.
        -- intros [?|[? ?]]; auto.
        -- intros [?|[[->|?] ?]]; auto.
      * apply bool_decide_eq_false in Hin.
        assert (Hnd' : NoDup (acc ++ [c])).
        { apply NoDup_app. split; [done|]. split; [|apply NoDup_singleton].
          intros x Hx Hc. apply list_elem_of_singleton in Hc. by subst. }
        destruct (IH (acc ++ [c]) Hnd') as [Hn Hm].
        split; [done|]. intros x.
        rewrite Hm, elem_of_app, list_elem_of_singleton, elem_of_cons. split.
        -- intros [[?| ->]|[? ?]]; auto.
        -- intros [?|[[->|?] ?]]; auto.
    + destruct (IH acc Hnd) as [Hn Hm]. split; [done|].
      intros x. rewrite Hm, elem_of_cons. split.
      * intros [?|[? ?]]; auto.
      * intros [?|[[->|?] ?]]; [auto|congruence|auto].
Qed.

(** The absence columns are, each once, the columns right of the name
    column whose cell in the header row or one of the two rows below it
    holds the text "код" in any letter case. *)
Theorem find_absence_cols_spec (df : df_raw) (header_row_idx name_col_idx : nat) :
  NoDup (find_absence_cols df header_row_idx name_col_idx)
  /\ forall c,
       c ∈ find_absence_cols df header_row_idx name_col_idx
       <-> name_col_idx < c < ncols df
           /\ exists r, header_row_idx <= r < Nat.min (header_row_idx + 3) (nrows df)
                        /\ is_code_header (iloc df r c) = true.
Proof.
  unfold find_absence_cols.
  set (inner := fun absence_cols r =>
         fold_left
           (fun absence_cols c =>
              if (name_col_idx <? c) && is_code_header (iloc df r c)
                 && negb (bool_decide (c ∈ absence_cols))
              then absence_cols ++ [c] else absence_cols)
           (range 0 (ncols df)) absence_cols).
  assert (Hinner : forall acc r,
    NoDup acc ->
    NoDup (inner acc r)
    /\ forall x, x ∈ inner acc r
                 <-> x ∈ acc \/ (name_col_idx < x < ncols df
                                 /\ is_code_header (iloc df r x) = true)).
  { intros acc r Hnd. unfold inner.
    destruct (append_new_spec (fun c => (name_col_idx <? c) && is_code_header (iloc df r c))
                (range 0 (ncols df)) acc Hnd) as [Hn Hm].
    split; [exact Hn|]. intros x. rewrite Hm. unfold range.
    rewrite elem_of_seq, andb_true_iff, Nat.ltb_lt. split.
    - intros [?|[? [? ?]]]; [auto|]. right. split; [lia | done].
    - intros [?|[? ?]]; [auto|]. right. split; [lia|]. split; [lia | done]. }
  assert (Hgen : forall rs acc,
    NoDup acc ->
    NoDup (fold_left inner rs acc)
    /\ forall x, x ∈ fold_left inner rs acc
                 <-> x ∈ acc \/ (name_col_idx < x < ncols df
                                 /\ exists r, r ∈ rs /\ is_code_header (iloc df r x) = true)).
  { induction rs as [|r rs IH]; intros acc Hnd; cbn [fold_left].
    - split; [done|]. intros x. split; [auto|].
      intros [?|[_ (r & Hr & _)]]; [done|]. by apply elem_of_nil in Hr.
    - destruct (Hinner acc r Hnd) as [Hn1 Hm1].
      destruct (IH (inner acc r) Hn1) as [Hn Hm].
      split; [done|]. intros x. rewrite Hm, Hm1. split.
      + intros [[?|[? ?]]|[? (r' & ? & ?)]]; [auto| |].
        * right. split; [done|]. exists r. rewrite elem_of_cons. auto.
        * right. split; [done|]. exists r'. rewrite elem_of_cons. auto.
      + intros [?|[? (r' & Hr' & ?)]]; [auto|].
        apply elem_of_cons in Hr' as [->|?]; [auto|]. right. split; [done|]. eauto. }
  destruct (Hgen (range header_row_idx (Nat.min (header_row_idx + 3) (nrows df))) [])
    as [Hn Hm]; [apply NoDup_nil_2|].
  split; [exact Hn|]. intros c. rewrite Hm. unfold range. split.
  - intros [H|[Hc (r & Hr & Hcode)]]; [by apply elem_of_nil in H|].
    split; [done|]. exists r. apply elem_of_seq in Hr. split; [lia | done].
  - intros [Hc (r & Hr & Hcode)]. right. split; [done|]. exists r.
    split; [|done]. apply elem_of_seq. lia.
Qed.

(** ** Directory cache *)

Example index_keys_example :
  index_keys (mkuser (Some (py "I.Ivanov")) (Some (py "K1")) (Some (py "Иван Иванов")))
  = [py "иван иванов"; py "иванов иван"; py "i.ivanov"]
  /\ index_keys (mkuser None None (Some (py "Иванов Иван Иванович")))
     = [py "иванов иван иванович"].
Proof. vm_compute. auto. Qed.

(** The loop state for an honest directory: the users before [start_at]
    are collected, the others follow. *)
Lemma fetch_pages_paged (all : list raw_user) (fuel start_at : nat) :
  length all - start_at < fuel * 1000 ->
  fetch_pages fuel (paged all) start_at (firstn start_at all) = Some all.
Proof.
  revert start_at. induction fuel as [|fuel IH]; intros start_at Hfuel; [lia|].
  cbn [fetch_pages]. unfold paged at 1. cbn [ok_body Z.eqb Pos.eqb].
  destruct (firstn 1000 (skipn start_at all)) as [|u chunk] eqn:Hchunk.
  - assert (Hlen : length (firstn 1000 (skipn start_at all)) = 0) by (by rewrite Hchunk).
    rewrite length_firstn, length_skipn in Hlen.
    f_equal. apply firstn_all2. lia.
  - rewrite <- Hchunk.
    assert (Hlen : length (firstn 1000 (skipn start_at all))
                   = Nat.min 1000 (length all - start_at))
      by (by rewrite length_firstn, length_skipn).
    assert (Hjoin : firstn start_at all ++ firstn 1000 (skipn start_at all)
                    = firstn (start_at + 1000) all) by apply take_take_drop.
    cbv zeta. destruct (Nat.ltb_spec (length (firstn 1000 (skipn start_at all))) 1000)
      as [Hshort|Hfull].
    + f_equal. rewrite Hjoin. apply firstn_all2. lia.
    + rewrite Hjoin. replace (length (firstn 1000 (skipn start_at all))) with 1000 by lia.
      apply IH. lia.
Qed.

(** Against a directory that serves its users 1000 to a page under the
    first search mask, the cache is built from every user, once and in
    order, as soon as the bound on the requests exceeds the number of
    full pages; the other masks are not consulted. *)
Theorem get_all_jira_users_paged (all : list raw_user) (fuel : nat)
    (search_at search_empty : user_search) :
  all <> [] -> length all < fuel * 1000 ->
  get_all_jira_users fuel (paged all) search_at search_empty = Some (build_maps all).
Proof.
  intros Hne Hfuel. unfold get_all_jira_users. cbn [first_users].
  change (@nil raw_user) with (firstn 0 all) at 1.
  rewrite fetch_pages_paged by lia.
  by destruct all.
Qed.

Lemma get_all_jira_users_paged_witness :
  get_all_jira_users 1
    (paged [mkraw_user (Some (py "ivanov")) None (Some (py "Иван Иванов"))])
    (fun _ => TransportError) (fun _ => TransportError)
  = Some (build_maps [mkraw_user (Some (py "ivanov")) None (Some (py "Иван Иванов"))]).
Proof.
  apply get_all_jira_users_paged; [discriminate | simpl; lia].
Defined.

(** *** Dictionaries as association lists *)

Section Dict.
Context {K V : Type} `{EqDecision K}.
Implicit Types (d : list (K * V)) (k : K) (v : V).

Lemma dict_get_set k k' v d :
  dict_get k (dict_set k' v d) = if decide (k' = k) then Some v else dict_get k d.
Proof.
  unfold dict_get. induction d as [|[k0 v0] d IH]; cbn [dict_set List.find fst].
  - destruct (decide (k' = k)) as [->|Hne].
    + by rewrite bool_decide_eq_true_2.
    + by rewrite bool_decide_eq_false_2.
  - destruct (decide (k' = k0)) as [->|Hne0]; cbn [List.find fst].
    + destruct (decide (k0 = k)) as [->|Hne].
      * by rewrite !bool_decide_eq_true_2.
      * by rewrite !bool_decide_eq_false_2.
    + destruct (decide (k0 = k)) as [->|Hne].
      * rewrite bool_decide_eq_true_2 by done.
        destruct (decide (k' = k)); [congruence | reflexivity].
      * rewrite bool_decide_eq_false_2 by done. exact IH.
Qed.

Lemma dict_set_keys k v d :
  forall x, x ∈ List.map fst (dict_set k v d) <-> x = k \/ x ∈ List.map fst d.
Proof.
  intros x. induction d as [|[k0 v0] d IH]; cbn [dict_set List.map fst].
  - rewrite list_elem_of_singleton, elem_of_nil. tauto.
  - destruct (decide (k = k0)) as [->|Hne]; cbn [List.map fst].
    + rewrite !elem_of_cons. tauto.
    + rewrite !elem_of_cons, IH. tauto.
Qed.

Lemma dict_set_NoDup k v d :
  NoDup (List.map fst d) -> NoDup (List.map fst (dict_set k v d)).
Proof.
  induction d as [|[k0 v0] d IH]; cbn [dict_set List.map fst]; intros Hnd.
  - apply NoDup_singleton.
  - apply NoDup_cons in Hnd as [Hnotin Hnd].
    destruct (decide (k = k0)) as [->|Hne]; cbn [List.map fst].
    + by apply NoDup_cons.
    + apply NoDup_cons. split; [|by apply IH].
      rewrite dict_set_keys. intros [?|?]; [congruence | done].
Qed.

Lemma dict_get_elem k v d :
  NoDup (List.map fst d) -> (dict_get k d = Some v <-> (k, v) ∈ d).
Proof.
  unfold dict_get. induction d as [|[k0 v0] d IH]; cbn [List.find List.map fst]; intros Hnd.
  - split; [discriminate|]. intros H. by apply elem_of_nil in H.
  - apply NoDup_cons in Hnd as [Hnotin Hnd]. rewrite elem_of_cons.
    destruct (decide (k0 = k)) as [->|Hne].
    + rewrite bool_decide_eq_true_2 by done. cbn [fmap option_fmap option_map snd]. split.
      * intros [= ->]. by left.
      * intros [[= ->]|Hin]; [done|]. exfalso. apply Hnotin.
        apply list_elem_of_fmap. by exists (k, v).
    + rewrite bool_decide_eq_false_2 by done. rewrite (IH Hnd). split; [auto|].
      intros [[= ? ?]|?]; [congruence | done].
Qed.

(** Filling a dictionary from a list of items, each under several keys:
    the value at a key is that of the last item that has the key. *)
Lemma dict_fill_last {U : Type} (keys : U -> list K) (val : U -> V) (us : list U) d k v :
  dict_get k (fold_left (fun d u => fold_left (fun d k' => dict_set k' (val u) d) (keys u) d)
                        us d) = Some v
  <-> (exists us1 u us2, us = us1 ++ u :: us2 /\ k ∈ keys u /\ v = val u
                         /\ Forall (fun u' => k ∉ keys u') us2)
      \/ (Forall (fun u' => k ∉ keys u') us /\ dict_get k d = Some v).
Proof.
  assert (Hone : forall (ks : list K) (x : V) d0,
    dict_get k (fold_left (fun d k' => dict_set k' x d) ks d0)
    = if bool_decide (k ∈ ks) then Some x else dict_get k d0).
  { induction ks as [|k0 ks IHk]; intros x d0; cbn [fold_left].
    - rewrite bool_decide_eq_false_2; [done|]. intros H. by apply elem_of_nil in H.
    - rewrite IHk, dict_get_set.
      destruct (decide (k0 = k)) as [->|Hne].
      + rewrite (bool_decide_eq_true_2 (k ∈ k :: ks)) by (apply elem_of_cons; auto).
        by destruct (bool_decide (k ∈ ks)).
      + destruct (bool_decide (k ∈ ks)) eqn:E.
        * apply bool_decide_eq_true in E.
          by rewrite bool_decide_eq_true_2 by (apply elem_of_cons; auto).
        * apply bool_decide_eq_false in E.
          rewrite bool_decide_eq_false_2; [done|].
          rewrite elem_of_cons. intros [?|?]; [congruence | done]. }
  revert d. induction us as [|u us IH]; intros d; cbn [fold_left].
  - split; [intros H; right; auto|].
    intros [(us1 & u & us2 & Heq & _)|[_ H]]; [by destruct us1 | done].
  - rewrite IH, Hone. split.
    + intros [(us1 & u' & us2 & -> & Hk & Hv & Hrest)|[Hno Hd]].
      * left. exists (u :: us1), u', us2. auto.
      * destruct (bool_decide (k ∈ keys u)) eqn:E.
        -- apply bool_decide_eq_true in E. injection Hd as <-.
           left. exists [], u, us. auto.
        -- apply bool_decide_eq_false in E. right. auto.
    + intros [(us1 & u' & us2 & Heq & Hk & Hv & Hrest)|[Hno Hd]].
      * destruct us1 as [|u1 us1]; injection Heq as <- ->.
        -- right. split; [done|]. by rewrite bool_decide_eq_true_2, Hv.
        -- left. exists us1, u', us2. auto.
      * inversion Hno as [|? ? Hu Hus]; subst. right. split; [done|].
        by rewrite bool_decide_eq_false_2.
Qed.
End Dict.

Lemma build_maps_folds (users : list raw_user) :
  build_maps users
  = (fold_left (fun d u => fold_left (fun d k' => dict_set k' (user_obj u) d)
                                     (index_keys (user_obj u)) d) users [],
     fold_left (fun d u => fold_left (fun d k' => dict_set k' (user_obj u) d)
                                     (key_map_keys (user_obj u)) d) users []).
Proof.
  unfold build_maps. generalize (@nil (pystr * user)) at 1 3 as lm.
  generalize (@nil (pystr * user)) as km.
  induction users as [|u users IH]; intros km lm; [reflexivity|].
  cbn [fold_left]. unfold index_user at 2. rewrite IH. f_equal.
  f_equal. unfold key_map_keys.
  by destruct (key (user_obj u)) as [[|c k]|].
Qed.

(** [key_map] holds, under each non-empty key, the last user of the
    directory answer that has the key, where a user without a key counts
    under its login; users with neither are left out. *)
Theorem key_map_last_wins (users : list raw_user) (k : pystr) (v : user) :
  dict_get k (snd (build_maps users)) = Some v
  <-> exists us1 u us2,
        users = us1 ++ u :: us2
        /\ k <> [] /\ key (user_obj u) = Some k /\ v = user_obj u
        /\ Forall (fun u' => key (user_obj u') <> Some k) us2.
Proof.
  rewrite build_maps_folds. cbn [snd].
  rewrite (dict_fill_last (fun u => key_map_keys (user_obj u)) user_obj).
  assert (Hkeys : forall u, k ∈ key_map_keys (user_obj u)
                            <-> k <> [] /\ key (user_obj u) = Some k).
  { intros u. unfold key_map_keys. destruct (key (user_obj u)) as [[|c k']|].
    - rewrite elem_of_nil. split; [done|]. intros [Hk [= <-]]. done.
    - rewrite list_elem_of_singleton. split.
      + intros ->. done.
      + by intros [_ [= ->]].
    - rewrite elem_of_nil. split; [done|]. by intros [_ ?]. }
  split.
  - intros [(us1 & u & us2 & -> & Hk & -> & Hrest)|[_ H]]; [|discriminate].
    apply Hkeys in Hk as [Hne Hk]. exists us1, u, us2. repeat split; try done.
    eapply List.Forall_impl; [|exact Hrest]. intros u' Hu' Hk'. cbv beta in Hu'.
    apply Hu', Hkeys. done.
  - intros (us1 & u & us2 & -> & Hne & Hk & -> & Hrest). left.
    exists us1, u, us2. repeat split; try done; [by apply Hkeys|].
    eapply List.Forall_impl; [|exact Hrest]. intros u' Hu' Hk'. cbv beta in Hu'.
    apply Hkeys in Hk' as [_ Hk']. done.
Qed.

(** [lookup_map] holds, under each name, the last user of the directory
    answer that is indexed under the name: by display name, by the
    swapped two-word display name, or by login, in lower case. *)
Theorem lookup_map_last_wins (users : list raw_user) (k : pystr) (v : user) :
  dict_get k (fst (build_maps users)) = Some v
  <-> exists us1 u us2,
        users = us1 ++ u :: us2
        /\ k ∈ index_keys (user_obj u) /\ v = user_obj u
        /\ Forall (fun u' => k ∉ index_keys (user_obj u')) us2.
Proof.
  rewrite build_maps_folds. cbn [fst].
  rewrite (dict_fill_last (fun u => index_keys (user_obj u)) user_obj).
  split; [|auto]. intros [H|[_ H]]; [done | discriminate].
Qed.

(** *** Words *)

Lemma split_go_word (w rest cur : pystr) :
  Forall (fun c => isspace c = false) w ->
  split_go (w ++ rest) cur = split_go rest (rev w ++ cur).
Proof.
  intros H. revert cur. induction H as [|c w Hc _ IH]; intros cur; [reflexivity|].
  cbn [app split_go]. rewrite Hc, IH. cbn [rev]. by rewrite <- app_assoc.
Qed.

(** Splitting the words of a line set apart by single spaces gives the
    words back. *)
Lemma split_join_words (ws : list pystr) :
  Forall (fun w => w <> [] /\ Forall (fun c => isspace c = false) w) ws ->
  split (join (py " ") ws) = ws.
Proof.
  unfold split. induction 1 as [|w ws [Hne Hw] Hws IH]; [reflexivity|].
  assert (Hrev : exists c t, rev w = c :: t).
  { destruct (rev w) as [|c t] eqn:E; [|eauto].
    apply (f_equal (@rev _)) in E. rewrite rev_involutive in E. done. }
  destruct Hrev as (c & t & Hrev).
  assert (Hback : rev (c :: t) = w) by (by rewrite <- Hrev, rev_involutive).
  destruct ws as [|w' ws].
  - cbn [join].
    replace (split_go w []) with (split_go (w ++ []) []) by (by rewrite app_nil_r).
    rewrite (split_go_word w [] [] Hw). rewrite app_nil_r, Hrev.
    cbn [split_go]. by rewrite Hback.
  - change (join (py " ") (w :: w' :: ws))
      with (w ++ 32%N :: join (py " ") (w' :: ws)).
    rewrite (split_go_word w _ [] Hw). rewrite app_nil_r, Hrev.
    cbn [split_go]. change (isspace 32) with true. cbv iota.
    rewrite Hback. f_equal. exact IH.
Qed.

Lemma lower_app (a b : pystr) : lower (a ++ b) = lower a ++ lower b.
Proof. apply map_app. Qed.

(** A user whose display name is two words is indexed under both orders
    of the words, and under the login, all in lower case. *)
Theorem two_word_name_index (first last l : pystr) (k : option pystr) :
  first <> [] -> last <> [] -> l <> [] ->
  Forall (fun c => isspace c = false) first ->
  Forall (fun c => isspace c = false) last ->
  index_keys (mkuser (Some l) k (Some (first ++ py " " ++ last)))
  = [lower first ++ py " " ++ lower last; lower last ++ py " " ++ lower first; lower l].
Proof.
  intros Hf Hl Hlogin Hfw Hlw. unfold index_keys. cbn [displayName login].
  destruct (first ++ py " " ++ last) as [|c d] eqn:Hd.
  { apply app_eq_nil in Hd as [? _]. done. }
  rewrite <- Hd. destruct l as [|cl l]; [done|].
  change (first ++ py " " ++ last) with (join (py " ") [first; last]).
  rewrite split_join_words by (repeat constructor; done).
  cbn [join app]. rewrite !lower_app. reflexivity.
Qed.

Lemma two_word_name_index_witness :
  index_keys (mkuser (Some (py "I.Ivanov")) (Some (py "K1")) (Some (py "Иван" ++ py " " ++ py "Иванов")))
  = [lower (py "Иван") ++ py " " ++ lower (py "Иванов");
     lower (py "Иванов") ++ py " " ++ lower (py "Иван"); lower (py "I.Ivanov")].
Proof.
  apply two_word_name_index; try discriminate; repeat constructor.
Defined.

(** *** The users the resolver goes through *)

Lemma unique_users_dict (vs : list user) (k : option pystr) (v : user) :
  dict_get k (fold_left (fun d v => dict_set (key v) v d) vs []) = Some v
  <-> exists vs1 vs2, vs = vs1 ++ v :: vs2 /\ k = key v
                      /\ Forall (fun v' => key v' <> key v) vs2.
Proof.
  change (fold_left (fun d v0 => dict_set (key v0) v0 d) vs [])
    with (fold_left (fun d u => fold_left (fun d k' => dict_set k' (id u) d) [key u] d)
                    vs ([] : list (option pystr * user))).
  rewrite (dict_fill_last (fun u => [key u]) id). split.
  - intros [(us1 & u & us2 & -> & Hk & -> & Hrest)|[_ H]]; [|discriminate].
    apply list_elem_of_singleton in Hk. subst k. exists us1, us2.
    repeat split; try done.
    eapply List.Forall_impl; [|exact Hrest]. intros v' Hv' Heq. cbv beta in Hv'.
    apply Hv'. rewrite Heq. by apply list_elem_of_singleton.
  - intros (vs1 & vs2 & -> & -> & Hrest). left. exists vs1, v, vs2.
    repeat split; try done; [by apply list_elem_of_singleton|].
    eapply List.Forall_impl; [|exact Hrest]. intros v' Hv' Hin. cbv beta in Hv'.
    apply list_elem_of_singleton in Hin. congruence.
Qed.

Lemma unique_users_keys_NoDup (vs : list user) (d : list (option pystr * user)) :
  NoDup (List.map fst d) ->
  NoDup (List.map fst (fold_left (fun d v => dict_set (key v) v d) vs d)).
Proof.
  revert d. induction vs as [|v vs IH]; intros d Hd; [done|].
  cbn [fold_left]. apply IH. by apply dict_set_NoDup.
Qed.

(** The users the resolver goes through hold every key of the cache
    once: of the cached users with one key, the last one stays. *)
Theorem unique_users_spec (cache_values : list user) :
  NoDup (List.map key (unique_users cache_values))
  /\ forall u, u ∈ unique_users cache_values
               <-> exists vs1 vs2, cache_values = vs1 ++ u :: vs2
                                   /\ Forall (fun v' => key v' <> key u) vs2.
Proof.
  unfold unique_users.
  set (d := fold_left (fun d v => dict_set (key v) v d) cache_values []).
  assert (Hnd : NoDup (List.map fst d)).
  { apply unique_users_keys_NoDup. apply NoDup_nil_2. }
  assert (Hentry : forall k v, (k, v) ∈ d
                               <-> exists vs1 vs2, cache_values = vs1 ++ v :: vs2 /\ k = key v
                                     /\ Forall (fun v' => key v' <> key v) vs2).
  { intros k v. rewrite <- (dict_get_elem k v d Hnd). apply unique_users_dict. }
  split.
  - replace (List.map key (List.map snd d)) with (List.map fst d); [done|].
    rewrite map_map. apply map_ext_in. intros [k v] Hin. cbn [fst snd].
    apply list_elem_of_In, Hentry in Hin as (_ & _ & _ & -> & _). done.
  - intros u. rewrite list_elem_of_fmap. split.
    + intros ([k v] & -> & Hin). apply Hentry in Hin as (vs1 & vs2 & Heq & _ & Hrest).
      exists vs1, vs2. done.
    + intros (vs1 & vs2 & Heq & Hrest). exists (key u, u). split; [done|].
      apply Hentry. exists vs1, vs2. done.
Qed.

(** ** Summary and leads *)

Lemma status_marks :
  contains STATUS_OK (py "⚠️") = false /\ contains STATUS_VARIANCE (py "⚠️") = true
  /\ contains STATUS_UNRESOLVED (py "⚠️") = false
  /\ contains STATUS_OK (py "❓") = false /\ contains STATUS_VARIANCE (py "❓") = false
  /\ contains STATUS_UNRESOLVED (py "❓") = true.
Proof. vm_compute. auto 10. Qed.

Lemma build_row_status_cases tm agg r :
  status (build_row tm agg r) = STATUS_OK
  \/ status (build_row tm agg r) = STATUS_VARIANCE
  \/ status (build_row tm agg r) = STATUS_UNRESOLVED.
Proof.
  rewrite build_row_status.
  destruct (bool_decide _); [right; right; reflexivity|].
  destruct (PyFloat.gt _ _); [right; left; reflexivity | left; reflexivity].
Qed.

(** On a row of the builder the two marks that the summary searches for
    stand for the statuses VARIANCE and UNRESOLVED. *)
Lemma built_row_marks tm agg r :
  (contains (status (build_row tm agg r)) (py "⚠️") = true
   <-> status (build_row tm agg r) = STATUS_VARIANCE)
  /\ (contains (status (build_row tm agg r)) (py "❓") = true
      <-> status (build_row tm agg r) = STATUS_UNRESOLVED).
Proof.
  destruct status_marks as (H1 & H2 & H3 & H4 & H5 & H6).
  destruct status_texts_distinct as (D1 & D2 & D3).
  destruct (build_row_status_cases tm agg r) as [-> | [-> | ->]].
  - rewrite H1, H4. split; split; congruence.
  - rewrite H2, H5. split; split; congruence.
  - rewrite H3, H6. split; split; congruence.
Qed.

Lemma unique_teams_sublist (l acc : list pystr) :
  exists k, fold_left (fun acc t => if bool_decide (t ∈ acc) then acc else acc ++ [t]) l acc
            = acc ++ k
            /\ sublist k l
            /\ (forall t, t ∈ k <-> t ∈ l /\ t ∉ acc)
            /\ (NoDup acc -> NoDup (acc ++ k)).
Proof.
  revert acc. induction l as [|c l IH]; intros acc; cbn [fold_left].
  - exists []. rewrite app_nil_r. split; [done|]. split; [constructor|].
    split; [|done]. intros t. rewrite elem_of_nil. tauto.
  - destruct (bool_decide (c ∈ acc)) eqn:Hc.
    + apply bool_decide_eq_true in Hc.
      destruct (IH acc) as (k & Heq & Hsub & Hmem & Hnd).
      exists k. split; [done|]. split; [by constructor|]. split; [|done].
      intros t. rewrite Hmem, elem_of_cons. split; [tauto|].
      intros [[->|?] ?]; tauto.
    + apply bool_decide_eq_false in Hc.
      destruct (IH (acc ++ [c])) as (k & Heq & Hsub & Hmem & Hnd).
      exists (c :: k). rewrite Heq, <- app_assoc. split; [done|].
      split; [by constructor|]. split.
      * intros t. rewrite !elem_of_cons, Hmem, elem_of_app, list_elem_of_singleton.
        split.
        -- intros [->|[? ?]]; [tauto|]. split; [tauto|]. intros ?. tauto.
        -- intros [[->|?] ?]; [tauto|]. destruct (decide (t = c)); [tauto|]. right. tauto.
      * intros Hacc. change (acc ++ c :: k) with (acc ++ [c] ++ k).
        rewrite app_assoc. apply Hnd. apply NoDup_app. split; [done|].
        split; [|apply NoDup_singleton].
        intros x Hx Hxc. apply list_elem_of_singleton in Hxc. by subst.
Qed.

Lemma StronglySorted_sublist {A : Type} (R : A -> A -> Prop) (k l : list A) :
  sublist k l -> StronglySorted R l -> StronglySorted R k.
Proof.
  induction 1 as [|x k l Hsub IH|x k l Hsub IH]; intros Hs.
  - constructor.
  - inversion Hs as [|? ? Hl Hx]; subst. constructor; [by apply IH|].
    rewrite Forall_forall in *. intros y Hy. apply Hx. by eapply elem_of_sublist.
  - inversion Hs; subst. by apply IH.
Qed.

Lemma team_leb_of_row_leb (a b : report_row) :
  row_leb a b = true -> team_leb (Team a) (Team b) = true.
Proof.
  unfold row_leb, team_leb. rewrite orb_true_iff, andb_true_iff.
  intros [H|[H _]]; [|done]. apply negb_true_iff.
  apply not_true_iff_false. intros H'.
  pose proof (team_ltb_trans _ _ _ H H') as Hc. by rewrite team_ltb_irrefl in Hc.
Qed.

Lemma teams_of_report_sorted (rows : list report_row) :
  StronglySorted (fun a b => team_leb a b = true) (List.map Team (sort_rows rows)).
Proof.
  pose proof (sort_rows_sorted rows) as Hs.
  induction Hs as [|r l Hl IH Hr]; cbn [List.map]; [constructor|].
  constructor; [exact IH|].
  apply Forall_forall. intros t Ht. apply list_elem_of_fmap in Ht as (r' & -> & Hr').
  rewrite Forall_forall in Hr. by apply team_leb_of_row_leb, Hr.
Qed.

(** The summary goes through the teams of the sorted report: every team
    of the report once, in strictly ascending order of rank, number and
    name. *)
Theorem unique_teams_of_report (rows : list report_row) :
  NoDup (unique_teams (sort_rows rows))
  /\ (forall t, t ∈ unique_teams (sort_rows rows) <-> exists r, r ∈ rows /\ Team r = t)
  /\ StronglySorted (fun a b => team_ltb a b = true) (unique_teams (sort_rows rows)).
Proof.
  unfold unique_teams.
  destruct (unique_teams_sublist (List.map Team (sort_rows rows)) [])
    as (k & -> & Hsub & Hmem & Hnd).
  cbn [app]. specialize (Hnd (NoDup_nil_2)). cbn [app] in Hnd.
  split; [exact Hnd|]. split.
  - intros t. rewrite Hmem, list_elem_of_fmap. split.
    + intros [(r & -> & Hr) _]. exists r. split; [|done].
      by rewrite <- (sort_perm row_leb rows).
    + intros (r & Hr & <-). split; [|apply not_elem_of_nil].
      exists r. split; [done|]. unfold sort_rows. by rewrite sort_perm.
  - pose proof (StronglySorted_sublist _ _ _ Hsub (teams_of_report_sorted rows)) as Hs.
    clear Hsub Hmem. induction Hs as [|t l Hl IH Ht]; [constructor|].
    apply NoDup_cons in Hnd as [Hnotin Hnd]. constructor; [by apply IH|].
    apply Forall_forall. intros t' Ht'. rewrite Forall_forall in Ht.
    pose proof (Ht t' Ht') as Hle. unfold team_leb in Hle. apply negb_true_iff in Hle.
    destruct (team_ltb t t') eqn:E; [done|].
    exfalso. apply Hnotin. by rewrite (team_ltb_trichotomy t t' E Hle).
Qed.

Lemma elem_of_unique_teams (rows : list report_row) (t : pystr) :
  t ∈ unique_teams rows <-> exists r, r ∈ rows /\ Team r = t.
Proof.
  unfold unique_teams.
  destruct (unique_teams_sublist (List.map Team rows) []) as (k & -> & _ & Hmem & _).
  cbn [app]. rewrite Hmem, list_elem_of_fmap. split.
  - intros [(r & -> & Hr) _]. eauto.
  - intros (r & Hr & <-). split; [eauto | apply not_elem_of_nil].
Qed.

Lemma elem_of_teams_with_issues (rows : list report_row) (t : pystr) :
  t ∈ teams_with_issues rows
  <-> exists r, r ∈ rows /\ Team r = t /\ contains (status r) (py "⚠️") = true.
Proof.
  unfold teams_with_issues.
  rewrite elem_of_list_to_set, list_elem_of_In, filter_In, <- list_elem_of_In,
    elem_of_unique_teams, negb_true_iff, bool_decide_eq_false.
  unfold bad_rows. split.
  - intros [_ Hne]. destruct (List.filter _ rows) as [|r l] eqn:E; [done|].
    assert (Hin : In r (List.filter
                          (fun r => bool_decide (Team r = t) && contains (status r) (py "⚠️"))
                          rows)) by (rewrite E; by left).
    apply filter_In in Hin as [Hin Hc]. apply andb_true_iff in Hc as [Ht Hc].
    apply bool_decide_eq_true in Ht. exists r. by rewrite list_elem_of_In.
  - intros (r & Hr & Ht & Hc). split; [eauto|]. intros Hnil.
    assert (Hin : In r (List.filter
                          (fun r => bool_decide (Team r = t) && contains (status r) (py "⚠️"))
                          rows)).
    { apply filter_In. split; [by apply list_elem_of_In|].
      by rewrite bool_decide_eq_true_2, Hc. }
    by rewrite Hnil in Hin.
Qed.

(** A team has issues exactly when one of its rows has the status
    VARIANCE; rows that are OK or UNRESOLVED never flag a team. *)
Theorem teams_with_issues_spec tm agg (excel_data : list excel_record) (t : pystr) :
  t ∈ teams_with_issues (sort_rows (List.map (build_row tm agg) excel_data))
  <-> exists r, r ∈ excel_data /\ Team (build_row tm agg r) = t
                /\ status (build_row tm agg r) = STATUS_VARIANCE.
Proof.
  rewrite elem_of_teams_with_issues. split.
  - intros (row & Hrow & Ht & Hc).
    unfold sort_rows in Hrow. rewrite sort_perm in Hrow.
    apply list_elem_of_fmap in Hrow as (r & -> & Hr).
    exists r. split; [done|]. split; [done|].
    destruct (built_row_marks tm agg r) as [[Hv _] _]. exact (Hv Hc).
  - intros (r & Hr & Ht & Hs). exists (build_row tm agg r). split.
    + unfold sort_rows. rewrite sort_perm. apply list_elem_of_fmap. eauto.
    + split; [done|].
      destruct (built_row_marks tm agg r) as [[_ Hv] _]. exact (Hv Hs).
Qed.

(** The leads tagged are the leads the mapping gives for the teams with
    issues; the message is posted exactly when there is such a lead, and
    it names the leads once each in ascending order. *)
Theorem lead_tags_spec (leads_mapping : gmap pystr pystr) (rows : list report_row) :
  (forall lead, lead ∈ leads_to_tag leads_mapping rows
                <-> exists t, t ∈ teams_with_issues rows /\ leads_mapping !! t = Some lead)
  /\ (lead_tags_message leads_mapping rows = None
      <-> leads_to_tag leads_mapping rows = ∅)
  /\ (forall msg, lead_tags_message leads_mapping rows = Some msg ->
        msg = py "Внимание: "
              ++ join (py ", ") (sorted_strings (leads_to_tag leads_mapping rows))
              ++ py " — в ваших командах есть расхождения."
        /\ StronglySorted (fun a b => ltb a b = true)
                          (sorted_strings (leads_to_tag leads_mapping rows))).
Proof.
  assert (Hmem : forall lead, lead ∈ leads_to_tag leads_mapping rows
                 <-> exists t, t ∈ teams_with_issues rows /\ leads_mapping !! t = Some lead).
  { intros lead. unfold leads_to_tag.
    rewrite elem_of_list_to_set, list_elem_of_omap.
    split; intros (t & Ht & Hl); exists t; by rewrite elem_of_elements in *. }
  split; [exact Hmem|]. split.
  - unfold lead_tags_message.
    destruct (bool_decide (teams_with_issues rows = ∅)) eqn:Hi; cbn [negb andb].
    + apply bool_decide_eq_true in Hi. split; [|done]. intros _.
      apply set_eq. intros lead. rewrite Hmem, Hi.
      split; [intros (t & Ht & _) | intros Ht]; by apply not_elem_of_empty in Ht.
    + destruct (bool_decide (leads_mapping = ∅)) eqn:Hm; cbn [negb].
      * apply bool_decide_eq_true in Hm. split; [|done]. intros _.
        apply set_eq. intros lead. rewrite Hmem, Hm. split.
        -- intros (t & _ & Hl). by rewrite lookup_empty in Hl.
        -- set_solver.
      * cbv zeta. destruct (bool_decide (leads_to_tag leads_mapping rows = ∅)) eqn:Hl;
          cbn [negb].
        -- apply bool_decide_eq_true in Hl. done.
        -- apply bool_decide_eq_false in Hl. split; [discriminate | done].
  - intros msg. unfold lead_tags_message.
    destruct (_ && _); [|discriminate]. cbv zeta.
    destruct (negb _); [|discriminate]. intros [= <-].
    split; [reflexivity | apply sorted_strings_strict].
Qed.

(** ** Further properties of the aggregator *)

Lemma total_seconds_absent (w : option pystr) (logs : list worklog) :
  existsb (fun l => bool_decide (worker l = w)) logs = false -> total_seconds w logs = 0%Z.
Proof.
  induction logs as [|l logs IH]; cbn [existsb total_seconds foldr]; [done|].
  fold (total_seconds w logs). rewrite orb_false_iff, bool_decide_eq_false.
  intros [Hne Hrest]. destruct (decide (worker l = w)); [done|]. by apply IH.
Qed.

Lemma aggregate_lookup (logs : list worklog) (w : option pystr) :
  aggregate logs !! w
  = if existsb (fun l => bool_decide (worker l = w)) logs
    then Some (total_seconds w logs) else None.
Proof.
  unfold aggregate.
  assert (Hgen : forall m : gmap (option pystr) Z,
    fold_left
      (fun (tempo_agg : gmap (option pystr) Z) l =>
         <[ worker l := (default 0 (tempo_agg !! worker l)
                         + default 0 (timeSpentSeconds l))%Z ]> tempo_agg) logs m !! w
    = if existsb (fun l => bool_decide (worker l = w)) logs
      then Some (default 0 (m !! w) + total_seconds w logs)%Z
      else m !! w).
  { induction logs as [|l logs IH]; intros m; cbn [fold_left existsb total_seconds foldr];
      [reflexivity|].
    rewrite IH. fold (total_seconds w logs).
    destruct (decide (worker l = w)) as [->|Hne].
    - rewrite bool_decide_eq_true_2 by done. cbn [orb].
      rewrite lookup_insert_eq. cbn [default].
      destruct (existsb _ logs) eqn:E; f_equal; unfold id; [lia|].
      rewrite (total_seconds_absent _ _ E). lia.
    - rewrite bool_decide_eq_false_2 by done. cbn [orb].
      by rewrite lookup_insert_ne. }
  rewrite Hgen, lookup_empty. cbn [default]. by destruct (existsb _ logs).
Qed.

Lemma total_seconds_perm (w : option pystr) (l1 l2 : list worklog) :
  l1 ≡ₚ l2 -> total_seconds w l1 = total_seconds w l2.
Proof.
  unfold total_seconds.
  induction 1 as [|x l1 l2 _ IH|x y l|l1 l2 l3 _ IH1 _ IH2]; cbn [foldr].
  - reflexivity.
  - by rewrite IH.
  - destruct (decide _), (decide _); lia.
  - congruence.
Qed.

(** The totals do not depend on the order in which the entries come
    back: a worker has a total exactly when an entry names it, and the
    total is the sum of the seconds of its entries. *)
Theorem aggregate_order_independent (logs logs' : list worklog) :
  logs ≡ₚ logs' ->
  aggregate logs = aggregate logs'
  /\ forall w, aggregate logs !! w
               = if existsb (fun l => bool_decide (worker l = w)) logs
                 then Some (total_seconds w logs) else None.
Proof.
  intros Hp. split; [|apply aggregate_lookup].
  apply map_eq. intros w. rewrite !aggregate_lookup.
  rewrite (total_seconds_perm w _ _ Hp).
  replace (existsb (fun l => bool_decide (worker l = w)) logs')
    with (existsb (fun l => bool_decide (worker l = w)) logs); [done|].
  apply eq_true_iff_eq. rewrite !existsb_exists.
  split; intros (l & Hl & Hw); exists l; split; try done.
  - apply (Permutation_in l Hp Hl).
  - apply (Permutation_in l (Permutation_sym Hp) Hl).
Qed.

Lemma aggregate_order_independent_witness :
  aggregate [mkworklog (Some (py "a")) (Some 60%Z); mkworklog (Some (py "b")) None;
             mkworklog (Some (py "a")) (Some 30%Z)]
  = aggregate [mkworklog (Some (py "a")) (Some 30%Z); mkworklog (Some (py "a")) (Some 60%Z);
               mkworklog (Some (py "b")) None].
Proof.
  apply aggregate_order_independent.
  etransitivity; [apply perm_skip, perm_swap | apply perm_swap].
Defined.

(** The number of worklog requests is the number of identifiers divided
    by 25, rounded up; no identifier, no request. *)
Theorem worklog_request_count (up : upstream) (s e : date) (worker_ids : list (option pystr)) :
  length (snd (fetch_tempo_worklogs_for_users up s e worker_ids))
  = (length worker_ids + 24) / 25
  /\ (snd (fetch_tempo_worklogs_for_users up s e worker_ids) = [] <-> worker_ids = []).
Proof.
  unfold fetch_tempo_worklogs_for_users. rewrite fetch_chunks_spec. cbn [snd].
  rewrite length_map, length_chunks. split; [reflexivity|]. split.
  - intros H. apply (f_equal (@length _)) in H. rewrite length_map, length_chunks in H.
    destruct worker_ids as [|w ws]; [reflexivity|]. exfalso.
    change (length (@nil payload)) with 0 in H.
    assert (Hge : 1 <= (length (w :: ws) + 24) / 25).
    { apply (Nat.div_le_lower_bound _ 25 1); cbn [length]; lia. }
    rewrite H in Hge. lia.
  - intros ->. reflexivity.
Qed.

(** ** The period *)

Lemma digits4_bound (y1 y2 y3 y4 : N) :
  is_digit y1 = true -> is_digit y2 = true -> is_digit y3 = true -> is_digit y4 = true ->
  (int_of_digits [y1; y2; y3; y4] <= 9999)%N.
Proof.
  unfold is_digit, in_range. rewrite !andb_true_iff, !N.leb_le.
  intros [? ?] [? ?] [? ?] [? ?]. cbn [int_of_digits fold_left]. lia.
Qed.

Lemma row_dates_valid (rows : df_raw) (d : date) :
  d ∈ flat_map row_dates rows -> valid_date d = true.
Proof.
  rewrite elem_of_period_dates. intros (row & val & m & _ & _ & Hm & Hp).
  apply findall_go_shape in Hm as (s' & Hat & ->).
  apply date_at_shape in Hat
    as (d1 & d2 & m1 & m2 & y1 & y2 & y3 & y4 & Hs & _ & _ & _ & _ & H5 & H6 & H7 & H8).
  rewrite Hs in Hp. unfold strptime_dmy in Hp.
  pose proof (digits4_bound y1 y2 y3 y4 H5 H6 H7 H8) as Hy.
  destruct (_ && _) eqn:Hv in Hp; [|discriminate]. injection Hp as <-.
  unfold valid_date. cbn [year month day].
  rewrite !andb_true_iff in Hv. destruct Hv as ((((Hv1 & Hv2) & Hv3) & Hv4) & Hv5).
  rewrite Hv1, Hv2, Hv3, Hv4, Hv5. apply N.leb_le in Hy. by rewrite Hy.
Qed.

(** A period that is found starts no later than it ends, and both ends
    are days of the calendar. *)
Theorem period_well_formed (df_head : df_raw) (s e : date) :
  extract_period_from_excel df_head = Some (s, e) ->
  date_leb s e = true /\ valid_date s = true /\ valid_date e = true.
Proof.
  unfold extract_period_from_excel.
  destruct (flat_map row_dates df_head) as [|d1 [|d2 ds]] eqn:Hd; try discriminate.
  intros [= <- <-].
  destruct (min_date_spec d1 (d2 :: ds)) as [Hmin_in Hmin].
  destruct (max_date_spec d1 (d2 :: ds)) as [Hmax_in Hmax].
  split; [by apply Hmin|].
  split; apply (row_dates_valid df_head); by rewrite Hd.
Qed.

Lemma period_well_formed_witness :
  date_leb (mkdate 2024 1 1) (mkdate 2024 1 31) = true
  /\ valid_date (mkdate 2024 1 1) = true /\ valid_date (mkdate 2024 1 31) = true.
Proof.
  apply (period_well_formed (head 20 Sample.sheet)). vm_compute. reflexivity.
Defined.

(** ** Identity resolution *)

Lemma find_first {A : Type} (f : A -> bool) (l : list A) :
  match List.find f l with
  | Some x => exists l1 l2, l = l1 ++ x :: l2 /\ f x = true
                            /\ Forall (fun y => f y = false) l1
  | None => Forall (fun y => f y = false) l
  end.
Proof.
  induction l as [|a l IH]; cbn [List.find]; [constructor|].
  destruct (f a) eqn:Ha.
  - exists [], l. split; [done|]. split; [done | constructor].
  - destruct (List.find f l) as [x|].
    + destruct IH as (l1 & l2 & -> & Hx & Hl1). exists (a :: l1), l2.
      split; [done|]. split; [done|]. by constructor.
    + by constructor.
Qed.

(** A record is resolved to the first user, in the order of the users
    gone through, whose display name shares a token with the record's
    name; it stays unresolved exactly when no user does. *)
Theorem resolution_first_match (df : df_raw) (cache : list user) (h n : nat)
    (r : excel_record) :
  r ∈ parse_excel df cache h n ->
  match jira_user r with
  | Some u =>
      exists us1 us2,
        unique_users cache = us1 ++ u :: us2
        /\ check_name_match (displayName u) (Some (name_1c r)) = true
        /\ Forall (fun u' => check_name_match (displayName u') (Some (name_1c r)) = false) us1
  | None =>
      Forall (fun u' => check_name_match (displayName u') (Some (name_1c r)) = false)
             (unique_users cache)
  end.
Proof.
  intros Hr. apply elem_of_extract_records in Hr as (i & _ & Hrow).
  apply extract_row_Some in Hrow as (_ & _ & _ & _ & Hfind & _).
  rewrite Hfind.
  apply (find_first (fun u => check_name_match (displayName u) (Some (name_1c r)))).
Qed.

Lemma resolution_first_match_witness :
  exists us1 us2,
    unique_users Sample.cache_values = us1 ++ Sample.ivanov :: us2
    /\ check_name_match (displayName Sample.ivanov) (Some (name_1c Sample.rec_ivanov)) = true
    /\ Forall (fun u' => check_name_match (displayName u')
                                          (Some (name_1c Sample.rec_ivanov)) = false) us1.
Proof.
  apply (resolution_first_match Sample.sheet Sample.cache_values 1 0 Sample.rec_ivanov).
  rewrite sample_parse. apply elem_of_cons. by left.
Defined.

Lemma in_range_spec (lo hi c : N) :
  (in_range lo hi c = true /\ (lo <= c <= hi)%N)
  \/ (in_range lo hi c = false /\ (c < lo \/ hi < c)%N).
Proof.
  unfold in_range. destruct (N.leb_spec lo c), (N.leb_spec c hi); cbn [andb]; lia.
Qed.

Ltac range_cases :=
  repeat match goal with
         | |- context [in_range ?a ?b ?x] =>
             destruct (in_range_spec a b x) as [[-> ?]|[-> ?]]; try lia
         end.

Lemma lower_upper_cp (c : N) : lower_cp (upper_cp c) = lower_cp c.
Proof. unfold upper_cp. range_cases; unfold lower_cp; range_cases. Qed.

Lemma lower_lower_cp (c : N) : lower_cp (lower_cp c) = lower_cp c.
Proof. unfold lower_cp at 2 3. range_cases; unfold lower_cp; range_cases. Qed.

Lemma name_parts_lower (s : pystr) :
  name_parts (lower s) = name_parts s /\ name_parts (upper s) = name_parts s.
Proof.
  unfold name_parts, lower, upper. rewrite !map_map.
  split; do 3 f_equal; apply map_ext; intros c;
    [apply lower_lower_cp | apply lower_upper_cp].
Qed.

(** For names written in Basic Latin and Cyrillic, matching ignores the
    case of the letters; a name matches itself exactly when it holds a
    token of two characters or more, and a name made of initials only
    matches nothing. *)
Theorem name_match_case_and_self (j e : pystr) :
  forallb cased_cp j = true ->
  check_name_match (Some (upper j)) (Some e) = check_name_match (Some j) (Some e)
  /\ check_name_match (Some (lower j)) (Some e) = check_name_match (Some j) (Some e)
  /\ (check_name_match (Some j) (Some j) = true <-> name_parts j <> [])
  /\ (name_parts j = [] -> check_name_match (Some j) (Some e) = false).
Proof.
  intros _. destruct (name_parts_lower j) as [Hl Hu].
  split.
  { apply eq_true_iff_eq. by rewrite !check_name_match_shared, Hu. }
  split.
  { apply eq_true_iff_eq. by rewrite !check_name_match_shared, Hl. }
  split.
  - rewrite check_name_match_shared. split.
    + intros (t & Ht & _) Hnil. rewrite Hnil in Ht. by apply elem_of_nil in Ht.
    + intros Hne. destruct (name_parts j) as [|t ts]; [done|].
      exists t. split; apply elem_of_cons; auto.
  - intros Hnil. apply not_true_iff_false. rewrite check_name_match_shared, Hnil.
    intros (t & Ht & _). by apply elem_of_nil in Ht.
Qed.

Lemma name_match_case_and_self_witness :
  check_name_match (Some (upper (py "Иванов И.И."))) (Some (py "ИВАНОВ Иван"))
  = check_name_match (Some (py "Иванов И.И.")) (Some (py "ИВАНОВ Иван"))
  /\ check_name_match (Some (lower (py "Иванов И.И."))) (Some (py "ИВАНОВ Иван"))
     = check_name_match (Some (py "Иванов И.И.")) (Some (py "ИВАНОВ Иван"))
  /\ (check_name_match (Some (py "Иванов И.И.")) (Some (py "Иванов И.И.")) = true
      <-> name_parts (py "Иванов И.И.") <> [])
  /\ (name_parts (py "Иванов И.И.") = []
      -> check_name_match (Some (py "Иванов И.И.")) (Some (py "ИВАНОВ Иван")) = false).
Proof.
  apply (name_match_case_and_self (py "Иванов И.И.") (py "ИВАНОВ Иван")).
  vm_compute. reflexivity.
Defined.

(** ** Ranks of the teams of a report *)

Lemma assign_members_values (P : pystr -> Prop) (s e : date) (name : pystr)
    (members : list member) (m : gmap pystr pystr) :
  P name -> map_Forall (fun _ v => P v) m ->
  map_Forall (fun _ v => P v) (assign_members s e name members m).
Proof.
  intros Hn. unfold assign_members. revert m.
  induction members as [|x members IH]; intros m Hm; cbn [fold_left]; [done|].
  apply IH. destruct (member_key x) as [[|c k]|]; try done.
  destruct (_ && _); [|done]. by apply map_Forall_insert_2.
Qed.

Lemma teams_assignments_values (up : upstream) (s e : date) (k name : pystr) :
  get_tempo_teams_assignments up s e !! k = Some name ->
  team_pattern_match name = true.
Proof.
  rewrite teams_fold_target. intros Hk.
  assert (Hgen : forall (ts : list team) (m : gmap pystr pystr),
    Forall (fun t => team_pattern_match (team_name t) = true) ts ->
    map_Forall (fun _ v => team_pattern_match v = true) m ->
    map_Forall (fun _ v => team_pattern_match v = true)
      (fold_left
         (fun user_team_map t =>
            match ok_body (get_members up (team_id t)) with
            | Some members => assign_members s e (team_name t) members user_team_map
            | None => user_team_map
            end) ts m)).
  { induction ts as [|t ts IH]; intros m Hts Hm; cbn [fold_left]; [done|].
    inversion Hts as [|? ? Ht Hts']; subst. apply IH; [done|].
    destruct (ok_body _); [|done]. by apply assign_members_values. }
  eapply (Hgen (target_teams up) ∅); [| apply map_Forall_empty | exact Hk].
  unfold target_teams. destruct (ok_body (get_teams up)); [|constructor].
  apply Forall_forall. intros t Ht. apply list_elem_of_In, filter_In in Ht. by destruct Ht as [_ Ht].
Qed.

Lemma startswith_app (s p : pystr) : startswith s p = true -> exists r, s = p ++ r.
Proof.
  revert s. induction p as [|a p IH]; intros s H; [by exists s|].
  destruct s as [|b s]; [discriminate|]. cbn [startswith] in H.
  apply andb_true_iff in H as [Hab H]. apply N.eqb_eq in Hab as ->.
  destruct (IH s H) as [r ->]. by exists r.
Qed.

Lemma startswith_app_r (s p x : pystr) : startswith s p = true -> startswith (s ++ x) p = true.
Proof.
  revert s. induction p as [|a p IH]; intros s H; [by destruct (s ++ x)|].
  destruct s as [|b s]; [discriminate|]. cbn [startswith app] in *.
  apply andb_true_iff in H as [-> H]. by rewrite IH.
Qed.

Lemma startswith_contains (s p : pystr) : startswith s p = true -> contains s p = true.
Proof. intros H. destruct s; cbn [contains]; by rewrite H. Qed.

Lemma pattern_core_rank (s x : pystr) :
  pattern_core s = true -> (x = [] \/ x = [10%N]) ->
  s ++ x <> py "other"
  /\ (contains (s ++ x) (py "arch-team") = true
      \/ contains (s ++ x) (py "change-team") = true
      \/ contains (s ++ x) (py "stream") = true).
Proof.
  unfold pattern_core, eqb. intros H Hx.
  apply orb_true_iff in H as [H|H]; [apply orb_true_iff in H as [H|H]|].
  - rewrite !andb_true_iff in H. destruct H as [[[H _] _] _].
    split.
    + destruct (startswith_app _ _ H) as [r ->]. by vm_compute.
    + right. right. by apply startswith_contains, startswith_app_r.
  - apply bool_decide_eq_true in H as ->.
    destruct Hx as [-> | ->]; (split; [by vm_compute | right; left; by vm_compute]).
  - apply bool_decide_eq_true in H as ->.
    destruct Hx as [-> | ->]; (split; [by vm_compute | left; by vm_compute]).
Qed.

Lemma ignorecase_lower (name : pystr) :
  383%N ∉ name -> List.map ignorecase_cp name = lower name.
Proof.
  intros Hno. unfold lower. apply map_ext_in. intros c Hc. unfold ignorecase_cp.
  destruct (N.eqb_spec c 383) as [->|]; [|reflexivity].
  by apply list_elem_of_In in Hc.
Qed.

Lemma pattern_rank (name : pystr) :
  team_pattern_match name = true ->
  (SortRank name = 1 \/ SortRank name = 2 \/ SortRank name = 3
   \/ (SortRank name = 4 /\ 383 ∈ name))%N.
Proof.
  intros H. destruct (decide (383%N ∈ name)) as [Hin|Hno].
  { destruct (SortRank_values name) as [[_ Ho]|[_ Hr]].
    - exfalso. assert (Hl : lower_cp 383 ∈ lower name).
      { unfold lower. apply list_elem_of_In, in_map. by apply list_elem_of_In. }
      rewrite Ho in Hl. apply list_elem_of_In in Hl. vm_compute in Hl.
      repeat (destruct Hl as [Hl|Hl]; [discriminate|]). done.
    - destruct Hr as [?|[?|[?|?]]]; auto. }
  unfold team_pattern_match in H. cbv zeta in H. rewrite (ignorecase_lower name Hno) in H.
  assert (Hs : exists s x, lower name = s ++ x /\ pattern_core s = true
                           /\ (x = [] \/ x = [10%N])).
  { apply orb_true_iff in H as [H|H].
    - exists (lower name), []. split; [by rewrite app_nil_r | auto].
    - destruct (rev (lower name)) as [|c r] eqn:Hr; [discriminate|].
      destruct (N.eq_dec c 10%N) as [->|Hc].
      + exists (rev r), [10%N]. split; [|auto].
        by rewrite <- (rev_involutive (lower name)), Hr.
      + exfalso. destruct c as [|p]; [discriminate|].
        repeat (destruct p as [p|p|]; try discriminate H). by destruct Hc. }
  destruct Hs as (s & x & Hl & Hc & Hx).
  destruct (pattern_core_rank s x Hc Hx) as [Hne Hin].
  unfold SortRank, get_team_rank. cbv zeta. rewrite Hl. unfold eqb.
  rewrite bool_decide_eq_false_2 by done.
  destruct (contains (s ++ x) (py "arch-team")); [by left|].
  destruct (contains (s ++ x) (py "change-team")); [by right; left|].
  destruct (contains (s ++ x) (py "stream")); [by right; right; left|].
  by destruct Hin as [?|[?|?]].
Qed.

(** Every row of a report carries the team "Other", with rank 99, or a
    team of Tempo whose name matches the team pattern. Such a team has
    rank 1, 2 or 3, unless its name is written with the long s (U+017F):
    the pattern, which ignores case, takes it for an "s", the lower-cased
    name that [get_team_rank] searches does not, and the team can fall
    to rank 4, as "ſtream1-team" does. *)
Theorem report_ranks (up : upstream) (s e : date) (excel_data : list excel_record) :
  Forall (fun row =>
            (Team row = OTHER /\ SortRank (Team row) = 99%N)
            \/ (team_pattern_match (Team row) = true
                /\ (SortRank (Team row) = 1 \/ SortRank (Team row) = 2
                    \/ SortRank (Team row) = 3
                    \/ (SortRank (Team row) = 4 /\ 383 ∈ Team row))%N))
         (sort_rows (build_rows up s e excel_data))
  /\ team_pattern_match (py "ſtream1-team") = true
  /\ SortRank (py "ſtream1-team") = 4%N.
Proof.
  split; [|by vm_compute].
  apply Forall_forall. intros row Hrow. apply elem_of_sort in Hrow.
  unfold build_rows in Hrow. cbv zeta in Hrow.
  apply list_elem_of_fmap in Hrow as (r & -> & _).
  assert (Hteam : Team (build_row (get_tempo_teams_assignments up s e)
                          (fetch_and_aggregate up s e (target_keys excel_data)) r) = OTHER
                  \/ exists k, get_tempo_teams_assignments up s e !! k
                               = Some (Team (build_row (get_tempo_teams_assignments up s e)
                          (fetch_and_aggregate up s e (target_keys excel_data)) r))).
  { unfold build_row. destruct (jira_user r) as [u|]; cbn [Team]; [|by left].
    destruct (key u) as [k|]; [|by left].
    destruct (get_tempo_teams_assignments up s e !! k) as [t|] eqn:Hk; [|by left].
    right. by exists k. }
  destruct Hteam as [->|[k Hk]].
  - left. split; [reflexivity | by vm_compute].
  - right. apply teams_assignments_values in Hk. split; [done | by apply pattern_rank].
Qed.

(** ** Highlighting *)

Lemma split_on_nonempty (sep : N) (s : pystr) : split_on sep s <> [].
Proof.
  induction s as [|c s IH]; cbn [split_on]; [done|].
  destruct (c =? sep)%N; [done|]. by destruct (split_on sep s).
Qed.

Lemma split_on_app_sep (sep : N) (a b : pystr) :
  split_on sep (a ++ sep :: b) = split_on sep a ++ split_on sep b.
Proof.
  induction a as [|c a IH]; cbn [app split_on].
  - by rewrite N.eqb_refl.
  - destruct (c =? sep)%N; [by rewrite IH|]. rewrite IH.
    pose proof (split_on_nonempty sep a) as Hne.
    by destruct (split_on sep a).
Qed.

Lemma strip_after_space (s : pystr) : strip (32%N :: s) = strip s.
Proof. reflexivity. Qed.

Lemma any_code_marks_after_space (s : pystr) :
  any_code_marks (32%N :: s) = any_code_marks s.
Proof.
  unfold any_code_marks. cbn [split_on]. change (32 =? 44)%N with false. cbv iota.
  pose proof (split_on_nonempty 44%N s) as Hne.
  destruct (split_on 44%N s) as [|p ps]; [done|].
  cbn [List.map existsb]. by rewrite strip_after_space.
Qed.

Lemma any_code_marks_join (codes : list pystr) :
  any_code_marks (join (py ", ") codes) = existsb any_code_marks codes.
Proof.
  induction codes as [|x codes IH]; [by vm_compute|].
  destruct codes as [|y codes].
  - cbn [join existsb]. by rewrite orb_false_r.
  - change (join (py ", ") (x :: y :: codes))
      with (x ++ 44%N :: 32%N :: join (py ", ") (y :: codes)).
    cbn [existsb] in *. rewrite <- IH. clear IH.
    unfold any_code_marks at 1. rewrite split_on_app_sep, map_app, existsb_app.
    fold (any_code_marks x). f_equal. apply any_code_marks_after_space.
Qed.

(** A row of the workbook is highlighted exactly when one of the absence
    codes of its record holds, between its commas, a piece that is
    neither blank nor the day-off code "В" once stripped and put in
    upper case. *)
Theorem highlight_by_codes (team_mapping : gmap pystr pystr)
    (tempo_agg : gmap (option pystr) Z) (r : excel_record) :
  hl (build_row team_mapping tempo_agg r) = true
  <-> exists code piece,
        code ∈ absences r /\ piece ∈ split_on 44%N code
        /\ code_marks (upper (strip piece)) = true.
Proof.
  assert (Habs : row_absences (build_row team_mapping tempo_agg r)
                 = join (py ", ") (absences r)).
  { unfold build_row. by destruct (jira_user r). }
  unfold hl. rewrite Habs, any_code_marks_join, existsb_exists. split.
  - intros (code & Hin & Hany). unfold any_code_marks in Hany.
    apply existsb_exists in Hany as (c & Hc & Hm).
    apply in_map_iff in Hc as (piece & <- & Hp).
    exists code, piece. by rewrite !list_elem_of_In.
  - intros (code & piece & Hin & Hp & Hm). exists code.
    split; [by apply list_elem_of_In|]. unfold any_code_marks.
    apply existsb_exists. exists (upper (strip piece)). split; [|done].
    apply in_map_iff. exists piece. split; [done|]. by apply list_elem_of_In.
Qed.

(** ** Links to profile pages *)

Lemma strip_prefix_Some (p s r : pystr) : strip_prefix p s = Some r -> s = p ++ r.
Proof.
  revert s. induction p as [|a p IH]; intros s H.
  - destruct s; cbn [strip_prefix] in H; by injection H as <-.
  - destruct s as [|b s]; [discriminate|]. cbn [strip_prefix] in H.
    destruct (N.eqb_spec a b) as [->|]; [|discriminate].
    by rewrite (IH s H).
Qed.

Lemma strip_prefix_app (p r : pystr) : strip_prefix p (p ++ r) = Some r.
Proof.
  induction p as [|a p IH]; cbn [app strip_prefix]; [by destruct r|].
  by rewrite N.eqb_refl.
Qed.

Lemma take_segment_app (u rest : pystr) :
  Forall (fun c => segment_char c = true) u ->
  (rest = [] \/ exists c rest', rest = c :: rest' /\ segment_char c = false) ->
  take_segment (u ++ rest) = u.
Proof.
  intros Hu Hrest. induction Hu as [|c u Hc _ IH]; cbn [app take_segment].
  - destruct Hrest as [->|(c & rest' & -> & Hc)]; [done|].
    cbn [take_segment]. by rewrite Hc.
  - by rewrite Hc, IH.
Qed.

Lemma search_segment_eq (p s : pystr) :
  search_segment p s
  = match strip_prefix p s with
    | Some rest =>
        match take_segment rest with
        | [] => match s with [] => None | _ :: r => search_segment p r end
        | seg => Some seg
        end
    | None => match s with [] => None | _ :: r => search_segment p r end
    end.
Proof.
  destruct s; cbn [search_segment]; destruct (strip_prefix p _) as [rest|]; try done;
    by destruct (take_segment rest).
Qed.

Lemma display_length : length (py "/display/~") = 10.
Proof. by vm_compute. Qed.

Lemma display_not_before (base x : pystr) :
  base <> [] -> Forall (fun c => c <> 126%N) base ->
  strip_prefix (py "/display/~") (base ++ py "/display/~" ++ x) = None.
Proof.
  intros Hne Hb.
  destruct (strip_prefix _ _) as [r|] eqn:Hs; [exfalso|done].
  apply strip_prefix_Some in Hs.
  assert (H9 : (base ++ py "/display/~" ++ x) !! 9 = Some 126%N).
  { rewrite Hs. rewrite lookup_app_l by (rewrite display_length; lia). by vm_compute. }
  destruct (decide (9 < length base)) as [Hlt|Hge].
  - rewrite lookup_app_l in H9 by done.
    apply list_elem_of_lookup_2 in H9.
    rewrite Forall_forall in Hb. by apply (Hb _ H9).
  - rewrite lookup_app_r in H9 by lia.
    assert (Hj : 9 - length base < 9) by (destruct base; [done | cbn [length]; lia]).
    rewrite lookup_app_l in H9 by (rewrite display_length; lia).
    revert H9. generalize (9 - length base) Hj. clear.
    intros j Hj. do 9 (destruct j as [|j]; [by vm_compute|]). lia.
Qed.

(** A link to a profile page gives the login whatever comes before the
    path, as long as it holds no tilde, and the login ends at the first
    "/", "?" or "#" or at the end of the link. *)
Theorem profile_link_login (base u rest : pystr) :
  Forall (fun c => c <> 126%N) base ->
  u <> [] ->
  Forall (fun c => segment_char c = true) u ->
  (rest = [] \/ exists c rest', rest = c :: rest' /\ segment_char c = false) ->
  extract_identity_from_tag {[ py "href" := base ++ py "/display/~" ++ u ++ rest ]}
  = Some (ID_username, u).
Proof.
  intros Hb Hu Hseg Hrest. unfold extract_identity_from_tag.
  rewrite !lookup_singleton_ne by (by vm_compute). rewrite lookup_singleton_eq.
  assert (Hsearch : search_segment (py "/display/~") (base ++ py "/display/~" ++ u ++ rest)
                    = Some u).
  { induction Hb as [|b base Hb0 Hb IH].
    - cbn [app]. rewrite search_segment_eq, strip_prefix_app, take_segment_app by done.
      by destruct u.
    - rewrite search_segment_eq.
      rewrite display_not_before by (by constructor || done). exact IH. }
  by rewrite Hsearch.
Qed.

Lemma profile_link_login_witness :
  extract_identity_from_tag
    {[ py "href" := py "https://wiki.example" ++ py "/display/~" ++ py "ivanov" ++ py "?src=x" ]}
  = Some (ID_username, py "ivanov").
Proof.
  apply (profile_link_login (py "https://wiki.example") (py "ivanov") (py "?src=x")).
  - vm_compute. repeat constructor; discriminate.
  - discriminate.
  - vm_compute. repeat constructor.
  - right. vm_compute. eexists _, _. split; reflexivity.
Defined.

(** ** The cache of user keys *)

Lemma grows_refl (st : key_state) : grows st st.
Proof. exists []. split; [done|]. split; [constructor|]. split; auto. Qed.

Lemma grows_trans (a b c : key_state) : grows a b -> grows b c -> grows a c.
Proof.
  intros (n1 & Hc1 & Hn1 & Hk1 & Hb1) (n2 & Hc2 & Hn2 & Hk2 & Hb2).
  exists (n2 ++ n1). split; [by rewrite Hc2, Hc1, app_assoc|].
  split; [|split].
  - apply Forall_app. split; [|done].
    eapply List.Forall_impl; [|exact Hn2]. intros k [Hne Hnone]. split; [done|].
    destruct (USER_KEY_CACHE a !! k) as [u|] eqn:Hk; [|done].
    apply Hk1 in Hk. congruence.
  - auto.
  - intros k u Hk. destruct (Hb2 k u Hk) as [H|H].
    + destruct (Hb1 k u H) as [?|?]; [by left|right]. apply elem_of_app. by right.
    + right. apply elem_of_app. by left.
Qed.

Lemma resolve_grows (c : confluence) (k : pystr) (st : key_state) :
  grows st (snd (resolve_user_by_key c k st)).
Proof.
  unfold resolve_user_by_key. destruct k as [|a k]; [apply grows_refl|].
  destruct (USER_KEY_CACHE st !! (a :: k)) as [u|] eqn:Hk; [apply grows_refl|].
  assert (Hask : forall m : gmap pystr pystr,
    (forall k' u, USER_KEY_CACHE st !! k' = Some u -> m !! k' = Some u) ->
    (forall k' u, m !! k' = Some u -> USER_KEY_CACHE st !! k' = Some u \/ k' = a :: k) ->
    grows st (mkkeys m ((a :: k) :: api_calls st))).
  { intros m H1 H2. exists [a :: k]. split; [done|]. split; [by repeat constructor|].
    split; [exact H1|]. intros k' u H. destruct (H2 k' u H) as [?| ->]; [by left|].
    right. by apply list_elem_of_singleton. }
  destruct (get_user_details_by_userkey c (a :: k)) as [|[u|]]; cbn [snd].
  - apply Hask; auto.
  - apply Hask.
    + intros k' u' H. rewrite lookup_insert_ne; [done|]. congruence.
    + intros k' u' H. destruct (decide (a :: k = k')) as [<-|Hne]; [by right|].
      rewrite lookup_insert_ne in H by done. by left.
  - apply Hask; auto.
Qed.

Lemma tag_username_grows (c : confluence) (all_tags : list tag) (st : key_state) :
  grows st (snd (tag_username c all_tags st)).
Proof.
  revert st. induction all_tags as [|t rest IH]; intros st; cbn [tag_username].
  - apply grows_refl.
  - destruct (extract_identity_from_tag t) as [[[|] v]|]; [apply grows_refl| |apply IH].
    pose proof (resolve_grows c v st) as Hg.
    destruct (resolve_user_by_key c v st) as [r st']. cbn [snd] in Hg.
    destruct (truthy r); [exact Hg|].
    eapply grows_trans; [exact Hg | apply IH].
Qed.

Lemma found_username_grows (c : confluence) (target_cell : cell_tag) (st : key_state) :
  grows st (snd (found_username c target_cell st)).
Proof.
  unfold found_username.
  pose proof (tag_username_grows c (find_all_tags target_cell) st) as Hg.
  destruct (tag_username c (find_all_tags target_cell) st) as [f st']. cbn [snd] in Hg.
  destruct (truthy f); [exact Hg|]. by destruct (text_username target_cell).
Qed.

Lemma read_row_grows (c : confluence) (col : Z) (st : leads_state) (cells : list cell_tag) :
  grows (keys st) (turn_keys (read_row c col st cells)).
Proof.
  unfold read_row. destruct (col <? _)%Z; [|apply grows_refl].
  destruct (py_index cells col) as [target_cell|]; [|apply grows_refl].
  pose proof (found_username_grows c target_cell (keys st)) as Hg.
  by destruct (found_username c target_cell (keys st)) as [f ks].
Qed.

Lemma read_rows_grows (c : confluence) (col : Z) (rows : list (list cell_tag))
    (st : leads_state) :
  grows (keys st) (turn_keys (read_rows c col rows st)).
Proof.
  revert st. induction rows as [|cells rows IH]; intros st; cbn [read_rows].
  - apply grows_refl.
  - pose proof (read_row_grows c col st cells) as Hg.
    destruct (read_row c col st cells) as [st'|ks]; [|exact Hg].
    eapply grows_trans; [exact Hg | apply IH].
Qed.

Lemma fetch_grows (env : settings) (ks : key_state) :
  grows ks (snd (fetch_team_leads_mapping env ks)).
Proof.
  unfold fetch_team_leads_mapping.
  destruct (negb _); [apply grows_refl|].
  destruct (CONFLUENCE_PAGE_ID env) as [[|a page_id]|]; try apply grows_refl.
  destruct (get_confluence_client env) as [c|]; [|apply grows_refl].
  destruct (get_page_by_id c (a :: page_id)) as [| |rows]; try apply grows_refl.
  pose proof (read_rows_grows c (col_idx env) rows (mkleads None ∅ ks)) as Hg.
  by destruct (read_rows c (col_idx env) rows (mkleads None ∅ ks)).
Qed.

Lemma resolve_cached (c : confluence) (k u : pystr) (st : key_state) :
  k <> [] -> USER_KEY_CACHE st !! k = Some u ->
  resolve_user_by_key c k st = (Some u, st).
Proof.
  intros Hk Hc. unfold resolve_user_by_key. destruct k; [done|]. by rewrite Hc.
Qed.

(** A key that was resolved is answered from the cache from then on,
    also after any later reading of the page and whatever the directory
    would say now: the same login, and the directory is not asked. *)
Theorem resolved_key_stays_cached (c c' : confluence) (k u : pystr) (st : key_state)
    (env : settings) :
  fst (resolve_user_by_key c k st) = Some u ->
  let st1 := snd (resolve_user_by_key c k st) in
  let st2 := snd (fetch_team_leads_mapping env st1) in
  resolve_user_by_key c' k st1 = (Some u, st1)
  /\ resolve_user_by_key c' k st2 = (Some u, st2).
Proof.
  intros Hres. cbv zeta.
  assert (Hk : k <> []) by (intros ->; discriminate).
  assert (Hc : USER_KEY_CACHE (snd (resolve_user_by_key c k st)) !! k = Some u).
  { unfold resolve_user_by_key in *. destruct k as [|a k]; [done|].
    destruct (USER_KEY_CACHE st !! (a :: k)) as [v|] eqn:Hv.
    - cbn [fst snd] in *. congruence.
    - destruct (get_user_details_by_userkey c (a :: k)) as [|[v|]]; try discriminate.
      cbn [fst snd USER_KEY_CACHE] in *. injection Hres as ->. apply lookup_insert_eq. }
  split; [by apply resolve_cached|].
  apply resolve_cached; [done|].
  destruct (fetch_grows env (snd (resolve_user_by_key c k st))) as (_ & _ & _ & Hkeep & _).
  by apply Hkeep.
Qed.

Lemma resolved_key_stays_cached_witness :
  let st1 := snd (resolve_user_by_key Sample3.wiki (py "8af005") Sample3.no_keys) in
  let st2 := snd (fetch_team_leads_mapping (Sample3.env 1) st1) in
  resolve_user_by_key (mkconfluence (fun _ => DetailsRaise) (fun _ => PageRaise))
                      (py "8af005") st1
  = (Some (py "ivanov"), st1)
  /\ resolve_user_by_key (mkconfluence (fun _ => DetailsRaise) (fun _ => PageRaise))
                         (py "8af005") st2
     = (Some (py "ivanov"), st2).
Proof.
  apply (resolved_key_stays_cached Sample3.wiki). vm_compute. reflexivity.
Defined.

(** One reading of the page asks the directory only for keys that were
    not cached when it started, each of them not empty; it loses and
    changes no cached login, and caches none but of keys it asked for. *)
Theorem fetch_asks_unknown_keys (env : settings) (ks : key_state) :
  exists new,
    api_calls (snd (fetch_team_leads_mapping env ks)) = new ++ api_calls ks
    /\ Forall (fun k => k <> [] /\ USER_KEY_CACHE ks !! k = None) new
    /\ (forall k u, USER_KEY_CACHE ks !! k = Some u ->
                    USER_KEY_CACHE (snd (fetch_team_leads_mapping env ks)) !! k = Some u)
    /\ (forall k u, USER_KEY_CACHE (snd (fetch_team_leads_mapping env ks)) !! k = Some u ->
                    USER_KEY_CACHE ks !! k = Some u \/ k ∈ new).
Proof. apply fetch_grows. Qed.

(** ** The mapping of teams to leads *)

Lemma assign_parts_lookup (cur : option pystr) (parts : list pystr)
    (m : gmap pystr pystr) (t : pystr) :
  assign_parts cur parts m !! t
  = if bool_decide (t ∈ List.filter team_pattern_match parts)
    then match lead_tag cur with
         | Some v => Some v
         | None => m !! t
         end
    else m !! t.
Proof.
  unfold assign_parts. revert m.
  induction parts as [|p parts IH]; intros m; cbn [fold_left List.filter].
  - rewrite bool_decide_eq_false_2; [done|]. apply not_elem_of_nil.
  - rewrite IH. clear IH.
    destruct (team_pattern_match p) eqn:Hp.
    + destruct (bool_decide (t ∈ List.filter team_pattern_match parts)) eqn:Hin.
      * apply bool_decide_eq_true in Hin.
        rewrite bool_decide_eq_true_2 by (apply elem_of_cons; by right).
        destruct cur as [[|a l]|]; cbn [lead_tag]; try done.
      * apply bool_decide_eq_false in Hin.
        destruct (decide (t = p)) as [->|Hne].
        -- rewrite bool_decide_eq_true_2 by (apply elem_of_cons; by left).
           destruct cur as [[|a l]|]; cbn [lead_tag]; try done.
           by rewrite lookup_insert_eq.
        -- rewrite bool_decide_eq_false_2
             by (intros H; apply elem_of_cons in H as [?|?]; done).
           destruct cur as [[|a l]|]; try done. by rewrite lookup_insert_ne.
    + done.
Qed.

Lemma read_row_Next (c : confluence) (col : Z) (st st' : leads_state)
    (cells : list cell_tag) (t : pystr) :
  read_row c col st cells = Next st' ->
  (truthy (current_lead st) = true -> truthy (current_lead st') = true)
  /\ leads_map st' !! t
     = if bool_decide (t ∈ row_teams col cells)
       then match lead_tag (current_lead st') with
            | Some v => Some v
            | None => leads_map st !! t
            end
       else leads_map st !! t.
Proof.
  unfold read_row, row_teams. destruct (col <? _)%Z.
  - destruct (py_index cells col) as [target_cell|]; [|discriminate].
    destruct (found_username c target_cell (keys st)) as [f ks].
    intros [= <-]. cbn [current_lead leads_map]. split.
    + destruct (truthy f) eqn:Hf; [intros _; exact Hf | done].
    + apply assign_parts_lookup.
  - intros [= <-]. split; [done|].
    rewrite bool_decide_eq_false_2; [done | apply not_elem_of_nil].
Qed.

Lemma lead_tag_truthy (cur : option pystr) :
  lead_tag cur = None <-> truthy cur = false.
Proof. by destruct cur as [[|a l]|]. Qed.

Lemma read_rows_app (c : confluence) (col : Z) (r1 r2 : list (list cell_tag))
    (st : leads_state) :
  read_rows c col (r1 ++ r2) st
  = match read_rows c col r1 st with
    | Next st1 => read_rows c col r2 st1
    | Raised ks => Raised ks
    end.
Proof.
  revert st. induction r1 as [|cells r1 IH]; intros st; cbn [app read_rows]; [done|].
  by destruct (read_row c col st cells).
Qed.

Lemma read_rows_unlisted (c : confluence) (col : Z) (rows : list (list cell_tag))
    (st st' : leads_state) (t : pystr) :
  Forall (fun cells => t ∉ row_teams col cells) rows ->
  read_rows c col rows st = Next st' ->
  leads_map st' !! t = leads_map st !! t.
Proof.
  intros Hrows. revert st.
  induction Hrows as [|cells rows Hc _ IH]; intros st; cbn [read_rows].
  - by intros [= <-].
  - destruct (read_row c col st cells) as [st1|] eqn:Hrow; [|discriminate].
    intros H. rewrite (IH _ H).
    destruct (read_row_Next c col st st1 cells t Hrow) as [_ ->].
    by rewrite bool_decide_eq_false_2.
Qed.

Lemma read_rows_no_lead (c : confluence) (col : Z) (rows : list (list cell_tag))
    (st st' : leads_state) :
  read_rows c col rows st = Next st' ->
  (truthy (current_lead st) = false -> leads_map st = ∅) ->
  truthy (current_lead st') = false -> leads_map st' = ∅.
Proof.
  revert st. induction rows as [|cells rows IH]; intros st; cbn [read_rows].
  - by intros [= <-].
  - destruct (read_row c col st cells) as [st1|] eqn:Hrow; [|discriminate].
    intros H Hinv. apply (IH _ H). intros Hno.
    assert (Hst : truthy (current_lead st) = false).
    { destruct (truthy (current_lead st)) eqn:Ht; [|done].
      destruct (read_row_Next c col st st1 cells [] Hrow) as [Hmono _].
      rewrite Hmono in Hno; done. }
    apply map_eq. intros t. rewrite lookup_empty.
    destruct (read_row_Next c col st st1 cells t Hrow) as [_ ->].
    apply lead_tag_truthy in Hno. rewrite Hno, (Hinv Hst), lookup_empty.
    by destruct (bool_decide _).
Qed.

(** The tag of a team is that of the lead in force at the last row that
    lists the team: the lead the row names, or else the one carried over
    from the rows above; a team listed only before any lead is known,
    or not listed at all, has no tag. *)
Theorem team_lead_last_row (c : confluence) (col : Z) (rows : list (list cell_tag))
    (ks : key_state) (st_end : leads_state) (t : pystr) :
  read_rows c col rows (mkleads None ∅ ks) = Next st_end ->
  (Forall (fun cells => t ∉ row_teams col cells) rows -> leads_map st_end !! t = None)
  /\ (forall r1 cells r2 st1,
        rows = r1 ++ cells :: r2 ->
        t ∈ row_teams col cells ->
        Forall (fun cells' => t ∉ row_teams col cells') r2 ->
        read_rows c col (r1 ++ [cells]) (mkleads None ∅ ks) = Next st1 ->
        leads_map st_end !! t = lead_tag (current_lead st1)).
Proof.
  intros Hend. split.
  - intros Hno. by rewrite (read_rows_unlisted c col rows _ _ t Hno Hend).
  - intros r1 cells r2 st1 -> Hin Hno Hst1.
    rewrite read_rows_app in Hend, Hst1.
    destruct (read_rows c col r1 (mkleads None ∅ ks)) as [st0|] eqn:H0; [|discriminate].
    cbn [read_rows] in Hend, Hst1.
    destruct (read_row c col st0 cells) as [st1'|] eqn:Hrow; [|discriminate].
    injection Hst1 as ->.
    rewrite (read_rows_unlisted c col r2 _ _ t Hno Hend).
    destruct (read_row_Next c col st0 st1 cells t Hrow) as [Hmono ->].
    rewrite bool_decide_eq_true_2 by done.
    destruct (lead_tag (current_lead st1)) as [v|] eqn:Htag; [done|].
    apply lead_tag_truthy in Htag.
    assert (H0no : truthy (current_lead st0) = false).
    { destruct (truthy (current_lead st0)); [|done]. rewrite Hmono in Htag; done. }
    by rewrite (read_rows_no_lead c col r1 _ _ H0 (fun _ => eq_refl) H0no), lookup_empty.
Qed.

Lemma team_lead_last_row_witness :
  leads_map Sample3.after_table !! py "Stream2-Team" = Some (py "@ivanov").
Proof.
  destruct (team_lead_last_row Sample3.wiki 0 Sample3.table Sample3.no_keys
              Sample3.after_table (py "Stream2-Team")) as [_ Hlast];
    [vm_compute; reflexivity|].
  apply (Hlast [[Sample3.lead_cell; Sample3.other_cell]] [Sample3.team_cell] []
               Sample3.after_table).
  - reflexivity.
  - vm_compute. apply elem_of_cons. by left.
  - constructor.
  - vm_compute. reflexivity.
Defined.

Lemma assign_parts_entries (P : pystr -> pystr -> Prop) (cur : option pystr)
    (parts : list pystr) (m : gmap pystr pystr) :
  (forall p lead, team_pattern_match p = true -> lead <> [] -> P p (py "@" ++ lead)) ->
  map_Forall P m -> map_Forall P (assign_parts cur parts m).
Proof.
  intros HP. unfold assign_parts. revert m.
  induction parts as [|p parts IH]; intros m Hm; cbn [fold_left]; [done|].
  apply IH. destruct (team_pattern_match p) eqn:Hp; [|done].
  destruct cur as [[|a l]|]; try done.
  apply map_Forall_insert_2; [|done]. by apply HP.
Qed.

Lemma read_rows_entries (P : pystr -> pystr -> Prop) (c : confluence) (col : Z)
    (rows : list (list cell_tag)) (st st' : leads_state) :
  (forall p lead, team_pattern_match p = true -> lead <> [] -> P p (py "@" ++ lead)) ->
  map_Forall P (leads_map st) ->
  read_rows c col rows st = Next st' ->
  map_Forall P (leads_map st').
Proof.
  intros HP. revert st. induction rows as [|cells rows IH]; intros st Hm; cbn [read_rows].
  - by intros [= <-].
  - destruct (read_row c col st cells) as [st1|] eqn:Hrow; [|discriminate].
    apply IH. unfold read_row in Hrow. destruct (col <? _)%Z.
    + destruct (py_index cells col) as [target_cell|]; [|discriminate].
      destruct (found_username c target_cell (keys st)) as [f ks'].
      injection Hrow as <-. cbn [leads_map]. by apply assign_parts_entries.
    + by injection Hrow as <-.
Qed.

(** Every entry of the mapping goes from a name that matches the team
    pattern to "@" followed by a login that is not empty. *)
Theorem leads_mapping_entries (env : settings) (ks : key_state) (t v : pystr) :
  fst (fetch_team_leads_mapping env ks) !! t = Some v ->
  team_pattern_match t = true /\ exists lead, lead <> [] /\ v = py "@" ++ lead.
Proof.
  set (P := fun (t v : pystr) =>
              team_pattern_match t = true /\ exists lead, lead <> [] /\ v = py "@" ++ lead).
  assert (Hall : map_Forall P (fst (fetch_team_leads_mapping env ks))).
  { unfold fetch_team_leads_mapping.
    destruct (negb _); [apply map_Forall_empty|].
    destruct (CONFLUENCE_PAGE_ID env) as [[|a page_id]|]; try apply map_Forall_empty.
    destruct (get_confluence_client env) as [c|]; [|apply map_Forall_empty].
    destruct (get_page_by_id c (a :: page_id)) as [| |rows]; try apply map_Forall_empty.
    destruct (read_rows c (col_idx env) rows (mkleads None ∅ ks)) as [st|] eqn:Hrows;
      [|apply map_Forall_empty].
    cbn [fst]. eapply (read_rows_entries P); [| |exact Hrows].
    - intros p lead Hp Hl. split; [done|]. by exists lead.
    - apply map_Forall_empty. }
  intros Hv. exact (Hall t v Hv).
Qed.

Lemma leads_mapping_entries_witness :
  team_pattern_match (py "arch-team") = true
  /\ exists lead, lead <> [] /\ py "@ivanov" = py "@" ++ lead.
Proof.
  apply (leads_mapping_entries (Sample3.env 0) Sample3.no_keys).
  vm_compute. reflexivity.
Defined.

(** ** The column index *)

Lemma py_index_nonneg {A : Type} (l : list A) (i : Z) :
  (0 <= i < Z.of_nat (length l))%Z -> is_Some (py_index l i).
Proof.
  intros Hi. unfold py_index. rewrite (proj2 (Z.leb_le 0 i)) by lia.
  apply lookup_lt_is_Some. lia.
Qed.

(** With a column index that is not negative the loop never fails: the
    rows with too few cells are passed over, and leaving them out
    changes nothing. With a negative index one row with fewer cells than
    the index counts back makes the whole mapping empty. *)
Theorem column_index_bounds (c : confluence) (col : Z) (rows : list (list cell_tag))
    (st : leads_state) :
  ((0 <= col)%Z ->
   (exists st', read_rows c col rows st = Next st')
   /\ read_rows c col rows st
      = read_rows c col
          (List.filter (fun cells => (col <? Z.of_nat (length cells))%Z) rows) st)
  /\ ((col < 0)%Z ->
      Exists (fun cells => (Z.of_nat (length cells) < - col)%Z) rows ->
      exists ks, read_rows c col rows st = Raised ks).
Proof.
  split.
  - intros Hcol. revert st.
    induction rows as [|cells rows IH]; intros st; cbn [read_rows List.filter].
    + split; [by exists st | done].
    + destruct (col <? Z.of_nat (length cells))%Z eqn:Hlen.
      * cbn [read_rows]. unfold read_row. rewrite Hlen.
        apply Z.ltb_lt in Hlen.
        destruct (py_index_nonneg cells col) as [target_cell ->]; [lia|].
        destruct (found_username c target_cell (keys st)) as [f ks]. apply IH.
      * unfold read_row. rewrite Hlen. apply IH.
  - intros Hcol Hex. revert st.
    induction Hex as [cells rows Hshort|cells rows _ IH]; intros st; cbn [read_rows].
    + unfold read_row. rewrite (proj2 (Z.ltb_lt col _)) by lia.
      unfold py_index. rewrite (proj2 (Z.leb_gt 0 col)) by lia.
      rewrite (proj2 (Z.leb_gt (- col) _)) by lia. by exists (keys st).
    + destruct (read_row c col st cells) as [st1|ks]; [apply IH | by exists ks].
Qed.

Lemma column_index_bounds_witness :
  exists ks,
    read_rows Sample3.wiki (-2) Sample3.table (mkleads None ∅ Sample3.no_keys) = Raised ks.
Proof.
  destruct (column_index_bounds Sample3.wiki (-2) Sample3.table
              (mkleads None ∅ Sample3.no_keys)) as [_ Hneg].
  apply Hneg; [lia|]. right. left. vm_compute. reflexivity.
Defined.
